(** * kayak-travel-viz: the itinerary-to-segment resolution pipeline

    A shallow embedding of [scripts/build.py]: the airport reference index
    builder ([load_iata_index]), the code extractor ([iata_from_raw]), the
    timestamp parser ([parse_dt], [dt_iso]), the segment resolver
    ([coords_from_address], [collect_segments]) and the grouping done at the
    end of [main].

    Python values are modelled as follows.
    - text is [string]; the model covers ASCII text (a byte above 127 is
      left alone by [upper] and [lower] and is never white space);
    - a decoded JSON document is a [json] tree, a dict being an association
      list in insertion order;
    - a function that can raise returns a [result];
    - [float] is Rocq's binary64 [float]; only literals and values passed
      through are used, no arithmetic;
    - the index and the alias table, only ever looked up, are [gmap]s;
      the [groups] dict of [main], whose iteration order is observable, is an
      association list in insertion order.
    Library functions whose behaviour is not in the repository
    ([float()] on text, [repr], [dateutil.tz]) are fields of [pylib]. *)

From Stdlib Require Import ZArith Ascii String List Floats Sorted Permutation.
From Stdlib Require OrderedTypeEx.
From stdpp Require Import gmap strings list.

Set Warnings "-inexact-float,-register-all".
Open Scope string_scope.
Open Scope list_scope.

(** ** Python: exceptions *)

Inductive exn := AttributeError | TypeError | ValueError | OverflowError.

Inductive result (A : Type) :=
| Ok (a : A)
| Raise (e : exn).
Arguments Ok {A} a.
Arguments Raise {A} e.

#[global] Instance result_ret : MRet result := fun A a => Ok a.
#[global] Instance result_bind : MBind result := fun A B f m =>
  match m with
  | Ok a => f a
  | Raise e => Raise e
  end.

(** [try: m except Exception: return d] *)
Definition try_except {A} (m : result A) (d : A) : A :=
  match m with
  | Ok a => a
  | Raise _ => d
  end.

Definition is_ok {A} (m : result A) : bool :=
  match m with Ok _ => true | Raise _ => false end.

(** ** Python: text *)

Definition chars (s : string) : list ascii := list_ascii_of_string s.
Definition text (l : list ascii) : string := string_of_list_ascii l.

Definition in_range (lo hi : nat) (c : ascii) : bool :=
  (lo <=? nat_of_ascii c)%nat && (nat_of_ascii c <=? hi)%nat.

(** [str.isspace] on ASCII, also the class [\s] of [re]:
    TAB LF VT FF CR, FS GS RS US, and the space. *)
Definition is_space (c : ascii) : bool :=
  in_range 9 13 c || in_range 28 32 c.

Definition is_upper (c : ascii) : bool := in_range 65 90 c.
Definition is_lower (c : ascii) : bool := in_range 97 122 c.
Definition is_digit (c : ascii) : bool := in_range 48 57 c.

Definition upper_char (c : ascii) : ascii :=
  if is_lower c then ascii_of_nat (nat_of_ascii c - 32) else c.
Definition lower_char (c : ascii) : ascii :=
  if is_upper c then ascii_of_nat (nat_of_ascii c + 32) else c.

Fixpoint lstrip (l : list ascii) : list ascii :=
  match l with
  | c :: l' => if is_space c then lstrip l' else l
  | [] => []
  end.
Definition rstrip (l : list ascii) : list ascii := rev (lstrip (rev l)).

(** [s.strip()], [s.upper()], [s.lower()] *)
Definition strip (s : string) : string := text (rstrip (lstrip (chars s))).
Definition upper (s : string) : string := text (map upper_char (chars s)).
Definition lower (s : string) : string := text (map lower_char (chars s)).

(** [a in b] on text: [a] occurs in [b] as a substring. *)
Fixpoint is_prefix (a b : list ascii) : bool :=
  match a, b with
  | [], _ => true
  | x :: a', y :: b' => Ascii.eqb x y && is_prefix a' b'
  | _ :: _, [] => false
  end.
Fixpoint occurs (a b : list ascii) : bool :=
  is_prefix a b || match b with
                   | [] => false
                   | _ :: b' => occurs a b'
                   end.
Definition str_contains (b a : string) : bool := occurs (chars a) (chars b).

(** Decimal text of an integer, as [str(int)] prints it. *)
Definition digit_char (n : nat) : ascii := ascii_of_nat (48 + n).
Fixpoint digits_of (fuel : nat) (n : N) (acc : list ascii) : list ascii :=
  match fuel with
  | O => acc
  | S fuel' =>
      let acc' := digit_char (N.to_nat (n mod 10)) :: acc in
      if (n <? 10)%N then acc' else digits_of fuel' (n / 10)%N acc'
  end.
Definition str_of_N (n : N) : string :=
  text (digits_of (S (N.to_nat (N.log2 n))) n []).
Definition str_of_Z (z : Z) : string :=
  match z with
  | Zneg p => "-" +:+ str_of_N (Npos p)
  | _ => str_of_N (Z.to_N z)
  end.
Definition str_of_nat (n : nat) : string := str_of_N (N.of_nat n).

(** The value of a run of decimal digits, as [int(s)] reads it. *)
Definition digit_val (c : ascii) : Z := Z.of_nat (nat_of_ascii c - 48).
Definition int_of_digits (l : list ascii) : Z :=
  fold_left (fun acc c => 10 * acc + digit_val c)%Z l 0%Z.

(** ** Python: [re], for the patterns this program uses

    A backtracking matcher in the order [re] explores: alternatives left to
    right, repetitions greedy.  Repetition is over a single character class,
    which is all the patterns here need. *)

Inductive regex :=
| RChar (p : ascii -> bool)                      (* one character of a class *)
| RSeq (r1 r2 : regex)                           (* r1 r2 *)
| RAlt (r1 r2 : regex)                           (* r1|r2 *)
| RRep (p : ascii -> bool) (lo : nat) (hi : option nat)   (* p{lo,hi} *)
| ROpt (r : regex)                               (* (?:r)? *)
| RGroup (name : string) (r : regex)             (* (?P<name>r) *)
| REnd.                                          (* $ *)

Definition captures := list (string * list ascii).

Definition room (hi : option nat) : bool :=
  match hi with Some O => false | _ => true end.
Definition dec (hi : option nat) : option nat :=
  match hi with Some n => Some (pred n) | None => None end.

Fixpoint rep {R} (p : ascii -> bool) (lo : nat) (hi : option nat)
    (s : list ascii) (k : list ascii -> option R) : option R :=
  let stop := match lo with O => k s | S _ => None end in
  match s with
  | c :: s' =>
      if p c && room hi then
        match rep p (pred lo) (dec hi) s' k with
        | Some x => Some x
        | None => stop
        end
      else stop
  | [] => stop
  end.

Fixpoint rmatch {R} (r : regex) (s : list ascii) (caps : captures)
    (k : list ascii -> captures -> option R) : option R :=
  match r with
  | RChar p =>
      match s with
      | c :: s' => if p c then k s' caps else None
      | [] => None
      end
  | RSeq r1 r2 => rmatch r1 s caps (fun s' caps' => rmatch r2 s' caps' k)
  | RAlt r1 r2 =>
      match rmatch r1 s caps k with
      | Some x => Some x
      | None => rmatch r2 s caps k
      end
  | RRep p lo hi => rep p lo hi s (fun s' => k s' caps)
  | ROpt r1 =>
      match rmatch r1 s caps k with
      | Some x => Some x
      | None => k s caps
      end
  | RGroup name r1 =>
      rmatch r1 s caps
        (fun s' caps' => k s' ((name, take (length s - length s') s) :: caps'))
  | REnd =>
      match s with
      | [] => k s caps
      | [c] => if Ascii.eqb c "010" then k s caps else None
      | _ => None
      end
  end.

(** [pattern.match(s)]: the text left after the match, and the groups. *)
Definition re_match (r : regex) (s : list ascii) : option (list ascii * captures) :=
  rmatch r s [] (fun s' caps => Some (s', caps)).

(** [m.group(name)] *)
Fixpoint group (caps : captures) (name : string) : option (list ascii) :=
  match caps with
  | [] => None
  | (n, g) :: caps' => if String.eqb n name then Some g else group caps' name
  end.

(** [pattern.findall(s)] for a pattern with one group and no empty match:
    the group of every match, scanning left to right, matches not
    overlapping ([skip] characters of the last match are still to pass). *)
Fixpoint findall_from (r : regex) (name : string) (skip : nat) (s : list ascii)
    : list (list ascii) :=
  match s with
  | [] => []
  | _ :: s' =>
      match skip with
      | S n => findall_from r name n s'
      | O =>
          match re_match r s with
          | Some (rest, caps) =>
              default [] (group caps name)
                :: findall_from r name (length s - length rest - 1) s'
          | None => findall_from r name 0 s'
          end
      end
  end.
Definition findall (r : regex) (name : string) (s : list ascii) : list (list ascii) :=
  findall_from r name 0 s.

Definition lit (c : ascii) : regex := RChar (Ascii.eqb c).
Definition letters3 : regex := RRep is_upper 3 (Some 3).

(** [IATA_STRICT_RE = ^(?P<c1>[A-Z]{3})(?:\s*\((?P<c2>[A-Z]{3})\))?$] *)
Definition IATA_STRICT_RE : regex :=
  RSeq (RGroup "c1" letters3)
    (RSeq (ROpt (RSeq (RRep is_space 0 None)
                   (RSeq (lit "(") (RSeq (RGroup "c2" letters3) (lit ")")))))
       REnd).

(** [IATA_PAREN_RE = \(([A-Z]{3})\)] *)
Definition IATA_PAREN_RE : regex :=
  RSeq (lit "(") (RSeq (RGroup "1" letters3) (lit ")")).

(** ** The code extractor *)

Definition IATA_ALIASES : gmap string string :=
  list_to_map [("TXL", "BER"); ("SXF", "BER"); ("NYC", "JFK")].

(** [IATA_ALIASES.get(code, code)] *)
Definition alias (code : string) : string := default code (IATA_ALIASES !! code).

Definition iata_from_raw (raw : option string) : option string :=
  match raw with
  | None | Some "" => None
  | Some raw =>
      let raw0 := strip raw in
      let raw_up := upper raw0 in
      match re_match IATA_STRICT_RE (chars raw_up) with
      | Some (_, m) =>
          let code :=
            match group m "c2" with
            | Some ((_ :: _) as c2) => c2
            | _ => default [] (group m "c1")
            end in
          Some (alias (text code))
      | None =>
          match findall IATA_PAREN_RE "1" (chars raw_up) with
          | [] => None
          | c :: par => Some (alias (text (List.last par c)))
          end
      end
  end.

(** ** Python: decoded JSON values *)

Inductive json :=
| JNull
| JBool (b : bool)
| JInt (z : Z)
| JFloat (f : float)
| JStr (s : string)
| JArr (l : list json)
| JObj (kv : list (string * json)).

(** Truth value of a Python object. *)
Definition truthy (v : json) : bool :=
  match v with
  | JNull => false
  | JBool b => b
  | JInt z => negb (z =? 0)%Z
  | JFloat f => negb (PrimFloat.eqb f 0%float)
  | JStr s => negb (String.eqb s "")
  | JArr l => negb (bool_decide (l = []))
  | JObj kv => negb (bool_decide (kv = []))
  end.

(** [a or b] *)
Definition py_or (a b : json) : json := if truthy a then a else b.
Infix "|||" := py_or (at level 50, left associativity).

(** [v is None] *)
Definition is_none (v : json) : bool :=
  match v with JNull => true | _ => false end.

Fixpoint assoc {A} (k : string) (kv : list (string * A)) : option A :=
  match kv with
  | [] => None
  | (k', v) :: kv' => if String.eqb k' k then Some v else assoc k kv'
  end.

(** [v.get(key, d)]: an [AttributeError] unless [v] is a dict. *)
Definition py_get_default (v : json) (key : string) (d : json) : result json :=
  match v with
  | JObj kv => Ok (default d (assoc key kv))
  | _ => Raise AttributeError
  end.
(** [v.get(key)] *)
Definition py_get (v : json) (key : string) : result json :=
  py_get_default v key JNull.

(** [for x in v]: the elements of a list, the characters of a text, the keys
    of a dict; a [TypeError] for anything else. *)
Definition py_iter (v : json) : result (list json) :=
  match v with
  | JArr l => Ok l
  | JStr s => Ok (map (fun c => JStr (text [c])) (chars s))
  | JObj kv => Ok (map (fun p => JStr (fst p)) kv)
  | _ => Raise TypeError
  end.

(** ** Dates and times: [datetime.datetime] *)

Record datetime := {
  dt_year : Z;
  dt_month : Z;
  dt_day : Z;
  dt_hour : Z;
  dt_minute : Z;
  dt_second : Z;
  dt_microsecond : Z;
  tzinfo : option string       (* the zone attached, by its identity *)
}.

(** What the repository takes from the Python libraries without containing
    it. *)
Record pylib := {
  (** [float(s)] on text; [None] is its [ValueError] *)
  float_of_str : string -> option float;
  (** [float(n)] on an integer; [None] is its [OverflowError] *)
  float_of_int : Z -> option float;
  (** [str(v)] of a float, a list or a dict *)
  repr : json -> string;
  (** [tz.gettz(tzid)]: the zone found; [None] when it raises or finds none *)
  gettz : json -> option string;
  (** [tzinfo.utcoffset(dt)] of a zone at a local time, in microseconds *)
  utcoffset : string -> datetime -> Z
}.

Section Library.
Context (L : pylib).

(** [str(v)] *)
Definition py_str (v : json) : string :=
  match v with
  | JNull => "None"
  | JBool true => "True"
  | JBool false => "False"
  | JInt z => str_of_Z z
  | JStr s => s
  | _ => repr L v
  end.

(** [float(v)] *)
Definition py_float (v : json) : result float :=
  match v with
  | JBool b => Ok (if b then 1%float else 0%float)
  | JInt z => match float_of_int L z with Some f => Ok f | None => Raise OverflowError end
  | JFloat f => Ok f
  | JStr s => match float_of_str L s with Some f => Ok f | None => Raise ValueError end
  | JNull | JArr _ | JObj _ => Raise TypeError
  end.

(** [code not in label]: substring of a text, element of a list, key of a
    dict; a [TypeError] for anything else. *)
Definition py_contains (label : json) (code : string) : result bool :=
  match label with
  | JStr s => Ok (str_contains s code)
  | JArr l => Ok (existsb (fun v => match v with JStr s => String.eqb s code | _ => false end) l)
  | JObj kv => Ok (existsb (fun p => String.eqb (fst p) code) kv)
  | _ => Raise TypeError
  end.

End Library.

Definition is_leap (y : Z) : bool :=
  ((y mod 4 =? 0) && (negb (y mod 100 =? 0) || (y mod 400 =? 0)))%Z.

Definition days_in_month (y m : Z) : Z :=
  if (m =? 2)%Z then (if is_leap y then 29 else 28)%Z
  else if bool_decide (m ∈ [4; 6; 9; 11]%Z) then 30%Z else 31%Z.

Definition days_before_year (y : Z) : Z :=
  let y := (y - 1)%Z in (y * 365 + y / 4 - y / 100 + y / 400)%Z.

Definition days_before_month (y m : Z) : Z :=
  fold_right Z.add 0%Z (map (days_in_month y) (map Z.of_nat (seq 1 (Z.to_nat (m - 1))))).

(** [date.toordinal()]: 1 is 0001-01-01. *)
Definition ymd2ord (y m d : Z) : Z :=
  (days_before_year y + days_before_month y m + d)%Z.

(** The inverse, [date.fromordinal]. *)
Definition ord2ymd (n : Z) : Z * Z * Z :=
  let n := (n - 1)%Z in
  let n400 := (n / 146097)%Z in let n := (n mod 146097)%Z in
  let n100 := (n / 36524)%Z in let n := (n mod 36524)%Z in
  let n4 := (n / 1461)%Z in let n := (n mod 1461)%Z in
  let n1 := (n / 365)%Z in let n := (n mod 365)%Z in
  let y := (n400 * 400 + 1 + n100 * 100 + n4 * 4 + n1)%Z in
  if ((n1 =? 4) || (n100 =? 4))%Z then ((y - 1)%Z, 12%Z, 31%Z)
  else
    let m := ((n + 50) / 32)%Z in
    let m := if (n <? days_before_month y m)%Z then (m - 1)%Z else m in
    (y, m, (n - days_before_month y m + 1)%Z).

Definition us_per_day : Z := 86400000000.

(** Microseconds since 0001-01-01 00:00 of the wall-clock reading. *)
Definition to_us (d : datetime) : Z :=
  ((ymd2ord (dt_year d) (dt_month d) (dt_day d) - 1) * us_per_day
   + ((dt_hour d * 60 + dt_minute d) * 60 + dt_second d) * 1000000
   + dt_microsecond d)%Z.

Definition of_us (t : Z) (tz : option string) : datetime :=
  let '(y, m, d) := ord2ymd (t / us_per_day + 1) in
  let r := (t mod us_per_day)%Z in
  {| dt_year := y; dt_month := m; dt_day := d;
     dt_hour := r / 3600000000;
     dt_minute := (r / 60000000) mod 60;
     dt_second := (r / 1000000) mod 60;
     dt_microsecond := r mod 1000000;
     tzinfo := tz |}.

Definition fields (d : datetime) : list Z :=
  [dt_year d; dt_month d; dt_day d; dt_hour d; dt_minute d; dt_second d; dt_microsecond d].

Fixpoint lex_lt (a b : list Z) : bool :=
  match a, b with
  | x :: a', y :: b' => (x <? y)%Z || ((x =? y)%Z && lex_lt a' b')
  | [], _ :: _ => true
  | _, [] => false
  end.

(** [a < b] on datetimes: wall-clock readings when both are naive or share
    their zone or their offset, instants otherwise; a [TypeError] when one is
    naive and the other aware. *)
Definition dt_lt (L : pylib) (a b : datetime) : result bool :=
  match tzinfo a, tzinfo b with
  | None, None => Ok (lex_lt (fields a) (fields b))
  | Some za, Some zb =>
      let oa := utcoffset L za a in
      let ob := utcoffset L zb b in
      if String.eqb za zb || (oa =? ob)%Z then Ok (lex_lt (fields a) (fields b))
      else Ok (to_us a - oa <? to_us b - ob)%Z
  | _, _ => Raise TypeError
  end.

(** [a > b] *)
Definition dt_gt (L : pylib) (a b : datetime) : result bool := dt_lt L b a.

(** [n] printed on [width] digits, zero padded: [%0(width)d]. *)
Definition pad (width : nat) (n : Z) : string :=
  let s := chars (str_of_Z n) in
  text (replicate (width - length s) "0"%char ++ s).

(** [dt.isoformat()] of a wall-clock reading *)
Definition isoformat (d : datetime) : string :=
  pad 4 (dt_year d) +:+ "-" +:+ pad 2 (dt_month d) +:+ "-" +:+ pad 2 (dt_day d)
  +:+ "T" +:+ pad 2 (dt_hour d) +:+ ":" +:+ pad 2 (dt_minute d) +:+ ":" +:+ pad 2 (dt_second d)
  +:+ (if (dt_microsecond d =? 0)%Z then "" else "." +:+ pad 6 (dt_microsecond d)).

(** [dt.astimezone(tz.UTC)]: an [OverflowError] when the instant leaves the
    years 1 to 9999. *)
Definition astimezone_utc (L : pylib) (d : datetime) : result datetime :=
  match tzinfo d with
  | None => Ok d
  | Some z =>
      let u := of_us (to_us d - utcoffset L z d) (Some "UTC") in
      if ((1 <=? dt_year u) && (dt_year u <=? 9999))%Z then Ok u else Raise OverflowError
  end.

(** ** [datetime.strptime] for the two formats of [parse_dt]

    The patterns are those [_strptime] builds: a blank of the format is
    [\s+], and the numeric directives take one or two digits. *)

Fixpoint seqs (rs : list regex) : regex :=
  match rs with
  | [] => RRep (fun _ => false) 0 (Some 0)
  | [r] => r
  | r :: rs' => RSeq r (seqs rs')
  end.
Fixpoint alts (rs : list regex) : regex :=
  match rs with
  | [] => RChar (fun _ => false)
  | [r] => r
  | r :: rs' => RAlt r (alts rs')
  end.

Definition d_ : regex := RChar is_digit.                     (* \d *)
Definition rng (a b : ascii) : regex :=                      (* [a-b] *)
  RChar (in_range (nat_of_ascii a) (nat_of_ascii b)).

Definition dir_Y := RGroup "Y" (seqs [d_; d_; d_; d_]).
Definition dir_m := RGroup "m" (alts [seqs [lit "1"; rng "0" "2"]; seqs [lit "0"; rng "1" "9"]; rng "1" "9"]).
Definition dir_d := RGroup "d" (alts [seqs [lit "3"; rng "0" "1"]; seqs [rng "1" "2"; d_];
                                    seqs [lit "0"; rng "1" "9"]; rng "1" "9"; seqs [lit " "; rng "1" "9"]]).
Definition dir_H := RGroup "H" (alts [seqs [lit "2"; rng "0" "3"]; seqs [rng "0" "1"; d_]; d_]).
Definition dir_M := RGroup "M" (alts [seqs [rng "0" "5"; d_]; d_]).
Definition dir_S := RGroup "S" (alts [seqs [lit "6"; rng "0" "1"]; seqs [rng "0" "5"; d_]; d_]).
Definition dir_f := RGroup "f" (RRep is_digit 1 (Some 6)).
Definition blank := RRep is_space 1 None.

(** ["%Y-%m-%d %H:%M:%S"] *)
Definition FMT_SECONDS : regex :=
  seqs [dir_Y; lit "-"; dir_m; lit "-"; dir_d; blank; dir_H; lit ":"; dir_M; lit ":"; dir_S].
(** [DATE_FMT = "%Y-%m-%d %H:%M:%S.%f"] *)
Definition DATE_FMT : regex := seqs [FMT_SECONDS; lit "."; dir_f].

Definition int_group (m : captures) (name : string) : Z :=
  int_of_digits (filter (fun c => is_digit c = true) (default [] (group m name))).

(** [datetime.strptime(s, fmt)]; [None] is its [ValueError]. *)
Definition strptime (fmt : regex) (s : string) : option datetime :=
  match re_match fmt (chars s) with
  | Some ([], m) =>
      let f := default [] (group m "f") in
      let d := {| dt_year := int_group m "Y"; dt_month := int_group m "m";
                  dt_day := int_group m "d"; dt_hour := int_group m "H";
                  dt_minute := int_group m "M"; dt_second := int_group m "S";
                  dt_microsecond := int_of_digits (f ++ replicate (6 - length f) "0"%char);
                  tzinfo := None |} in
      if ((1 <=? dt_year d) && (dt_day d <=? days_in_month (dt_year d) (dt_month d))
          && (dt_second d <=? 59))%Z
      then Some d else None
  | _ => None
  end.

(** ** [parse_dt] and [dt_iso] *)

Definition parse_dt (L : pylib) (s : json) (tzid : json) : result (option datetime) :=
  if negb (truthy s) then Ok None
  else
    match s with
    | JStr s =>
        let s := strip s in
        let parsed :=
          match strptime DATE_FMT s with
          | Some dt => Some dt
          | None => strptime FMT_SECONDS s       (* fallback: without fractional *)
          end in
        match parsed with
        | None => Ok None
        | Some dt =>
            if truthy tzid then
              Ok (Some {| dt_year := dt_year dt; dt_month := dt_month dt; dt_day := dt_day dt;
                          dt_hour := dt_hour dt; dt_minute := dt_minute dt;
                          dt_second := dt_second dt; dt_microsecond := dt_microsecond dt;
                          tzinfo := gettz L tzid |})
            else Ok (Some dt)
        end
    | _ => Raise AttributeError                  (* s.strip() *)
    end.

Definition dt_iso (L : pylib) (dt : option datetime) : result (option string) :=
  match dt with
  | None => Ok None
  | Some d =>
      match tzinfo d with
      | None => Ok (Some (isoformat d))
      | Some _ => u ← astimezone_utc L d; Ok (Some (isoformat u +:+ "+00:00"))
      end
  end.

(** ** The airport reference index *)

(** IATA -> (lat, lon, name, iso_country) *)
Definition airport : Type := float * float * string * option string.

(** Manual patches for airports missing from datasets. *)
Definition MANUAL_AIRPORTS : list (string * airport) :=
  [("LGP", (13.1575%float, 123.7350%float, "Legazpi Airport", Some "PH"))].

(** [row.get(k) or ""] on a row of [csv.DictReader] *)
Definition field (row : gmap string string) (k : string) : string :=
  default "" (row !! k).

(** [parts[i] or ""] *)
Definition part (parts : list string) (i : nat) : string := nth i parts "".

Section Index.
Context (L : pylib).

(** One row of the OurAirports CSV. *)
Definition add_ourairports (idx : gmap string airport) (row : gmap string string)
    : gmap string airport :=
  let iata := upper (strip (field row "iata_code")) in
  if String.eqb iata "" || negb (String.length iata =? 3)%nat then idx
  else
    match float_of_str L (field row "latitude_deg"),
          float_of_str L (field row "longitude_deg") with
    | Some lat, Some lon =>
        let name := strip (field row "name") in
        let c := upper (strip (field row "iso_country")) in
        let iso_country := if String.eqb c "" then None else Some c in
        <[iata := (lat, lon, name, iso_country)]> idx
    | _, _ => idx
    end.

(** One line of OpenFlights [airports.dat], split into its fields:
    Airport ID, Name, City, Country, IATA, ICAO, Lat, Lon, ... *)
Definition add_openflights (idx : gmap string airport) (parts : list string)
    : gmap string airport :=
  if (length parts <? 8)%nat then idx
  else
    let iata := upper (strip (part parts 4)) in
    if String.eqb iata "" || String.eqb iata "\N" || negb (String.length iata =? 3)%nat
    then idx
    else if bool_decide (is_Some (idx !! iata)) then idx
    else
      match float_of_str L (part parts 6), float_of_str L (part parts 7) with
      | Some lat, Some lon => <[iata := (lat, lon, strip (part parts 1), None)]> idx
      | _, _ => idx
      end.

(** One entry of [MANUAL_AIRPORTS]. *)
Definition add_manual (idx : gmap string airport) (entry : string * airport)
    : gmap string airport :=
  let '(code, rec) := entry in
  if bool_decide (is_Some (idx !! code)) then idx else <[code := rec]> idx.

(** [openflights_dat] is [None] when no path is given or the file does not
    exist. *)
Definition load_iata_index (airports_csv : list (gmap string string))
    (openflights_dat : option (list (list string))) : gmap string airport :=
  let idx := foldl add_ourairports ∅ airports_csv in
  let idx := foldl add_openflights idx (default [] openflights_dat) in
  foldl add_manual idx MANUAL_AIRPORTS.

End Index.

(** ** The segment resolver *)

Record SegmentRecord := {
  trip_group_key : string;
  trip_name : string;
  trip_key : string;           (* unique per event *)
  type : string;
  from_label : string;
  to_label : string;
  departure : option datetime;
  arrival : option datetime;
  from_lat : float;
  from_lon : float;
  to_lat : float;
  to_lon : float
}.

(** An entry of [event_summaries], by its keys. *)
Record EventSummary := {
  tripGroupKey : string;
  tripName : string;
  tripKey : string;
  title : json;
  type_ : string;
  year : option Z;
  start : option string;
  end_ : option string;
  segmentCount : nat
}.

(** A [*.txt] file of the input directory: its stem and what
    [json.loads(p.read_text())] gives, [None] when that raises. *)
Record source_file := {
  stem : string;
  content : option json
}.

(** [for x in xs: s = body(s, x)], an exception ending the loop. *)
Fixpoint for_each {S A} (body : S -> A -> result S) (xs : list A) (s : S) : result S :=
  match xs with
  | [] => Ok s
  | x :: xs' => s' ← body s x; for_each body xs' s'
  end.

(** [enumerate(xs)] *)
Definition enumerate {A} (xs : list A) : list (nat * A) := zip (seq 0 (length xs)) xs.

(** The running state of the loop over the segments of one event. *)
Record event_state := {
  segments : list SegmentRecord;
  seg_count : nat;
  start_dt : option datetime;
  end_dt : option datetime;
  title_guess : option string
}.

Section Resolver.
Context (L : pylib) (airport_index : gmap string airport).

(** [str(raw) if raw else None] *)
Definition raw_text (raw : json) : option string :=
  if truthy raw then Some (py_str L raw) else None.

Definition coords_from_address (addr : json)
    : result (option float * option float * option string) :=
  if negb (truthy addr) then Ok (None, None, None)
  else
    lat ← py_get addr "latitude";
    lon ← py_get addr "longitude";
    raw ← py_get addr "rawAddress";
    let unresolved := (None, None, raw_text raw) in
    if negb (is_none lat) && negb (is_none lon) then
      Ok (try_except
            (la ← py_float L lat; lo ← py_float L lon; Ok (Some la, Some lo, raw_text raw))
            unresolved)
    else Ok unresolved.

(** [addr.get("city") or addr.get("rawAddress") or raw or fallback] *)
Definition endpoint_label (addr : json) (raw : option string) (fallback : string)
    : result json :=
  city ← py_get addr "city";
  rawAddress ← py_get addr "rawAddress";
  Ok (city ||| rawAddress ||| from_option JStr JNull raw ||| JStr fallback).

(** "If missing coords, try resolve airport codes": one endpoint. *)
Definition resolve_endpoint (lat lon : option float) (raw : option string) (label : json)
    : result (option float * option float * json) :=
  if bool_decide (lat = None) || bool_decide (lon = None) then
    match iata_from_raw raw with
    | Some code =>
        match (if String.eqb code "" then None else airport_index !! code) with
        | Some (a_lat, a_lon, _, _) =>
            let label := label ||| JStr code in
            if truthy label then
              inside ← py_contains label code;
              if negb inside
              then Ok (Some a_lat, Some a_lon, JStr (py_str L label +:+ " (" +:+ code +:+ ")"))
              else Ok (Some a_lat, Some a_lon, label)
            else Ok (Some a_lat, Some a_lon, label)
        | None => Ok (lat, lon, label)
        end
    | None => Ok (lat, lon, label)
    end
  else Ok (lat, lon, label).

(** [if dt and (cur is None or dt < cur): cur = dt] *)
Definition track (before : datetime -> datetime -> result bool)
    (dt cur : option datetime) : result (option datetime) :=
  match dt, cur with
  | None, _ => Ok cur
  | Some d, None => Ok (Some d)
  | Some d, Some c => before d c ≫= λ b : bool, Ok (if b then Some d else cur)
  end.

(** The endpoints of a segment: labels and coordinates, [None] when a
    coordinate stays unresolved on either end. *)
Definition resolve_segment (seg : json)
    : result (option (float * float * json * (float * float * json))) :=
  departureAddress ← py_get seg "departureAddress";
  arrivalAddress ← py_get seg "arrivalAddress";
  let dep_addr := departureAddress ||| JObj [] in
  let arr_addr := arrivalAddress ||| JObj [] in
  '(dep_lat, dep_lon, dep_raw) ← coords_from_address dep_addr;
  '(arr_lat, arr_lon, arr_raw) ← coords_from_address arr_addr;
  dep_label ← endpoint_label dep_addr dep_raw "Departure";
  arr_label ← endpoint_label arr_addr arr_raw "Arrival";
  '(dep_lat, dep_lon, dep_label) ← resolve_endpoint dep_lat dep_lon dep_raw dep_label;
  '(arr_lat, arr_lon, arr_label) ← resolve_endpoint arr_lat arr_lon arr_raw arr_label;
  match dep_lat, dep_lon, arr_lat, arr_lon with
  | Some dep_lat, Some dep_lon, Some arr_lat, Some arr_lon =>
      Ok (Some (dep_lat, dep_lon, dep_label, (arr_lat, arr_lon, arr_label)))
  | _, _, _, _ => Ok None
  end.

(** The body of [for seg in (leg.get("segments") or [])]. *)
Definition process_segment (trip_group_key trip_name trip_key t : string)
    (st : event_state) (seg : json) : result event_state :=
  let seg_count := S (seg_count st) in
  departureDate ← py_get seg "departureDate";
  departureTimeZoneID ← py_get seg "departureTimeZoneID";
  dep_dt ← parse_dt L departureDate departureTimeZoneID;
  arrivalDate ← py_get seg "arrivalDate";
  arrivalTimeZoneID ← py_get seg "arrivalTimeZoneID";
  arr_dt ← parse_dt L arrivalDate arrivalTimeZoneID;
  start_dt ← track (dt_lt L) dep_dt (start_dt st);
  end_dt ← track (dt_gt L) arr_dt (end_dt st);
  r ← resolve_segment seg;
  match r with
  | Some (dep_lat, dep_lon, dep_label, (arr_lat, arr_lon, arr_label)) =>
      let title_guess :=
        match title_guess st with
        | None | Some "" => Some (py_str L dep_label +:+ " → " +:+ py_str L arr_label)
        | Some g => Some g
        end in
      Ok {| segments := (segments st ++
              [{| trip_group_key := trip_group_key; trip_name := trip_name;
                  trip_key := trip_key; type := t;
                  from_label := py_str L dep_label; to_label := py_str L arr_label;
                  departure := dep_dt; arrival := arr_dt;
                  from_lat := dep_lat; from_lon := dep_lon;
                  to_lat := arr_lat; to_lon := arr_lon |}])%list;
            seg_count := seg_count; start_dt := start_dt; end_dt := end_dt;
            title_guess := title_guess |}
  | None =>
      (* can't map it; skip *)
      Ok {| segments := segments st; seg_count := seg_count;
            start_dt := start_dt; end_dt := end_dt; title_guess := title_guess st |}
  end.

(** The body of [for leg in legs]. *)
Definition process_leg (trip_group_key trip_name trip_key t : string)
    (st : event_state) (leg : json) : result event_state :=
  segs ← py_get leg "segments";
  segs ← py_iter (segs ||| JArr []);
  for_each (process_segment trip_group_key trip_name trip_key t) segs st.

(** [t.lower()] *)
Definition py_lower (t : json) : result string :=
  match t with
  | JStr s => Ok (lower s)
  | _ => Raise AttributeError
  end.

(** [len([s for s in segments if s.trip_key == trip_key])] *)
Definition count_key (segments : list SegmentRecord) (key : string) : nat :=
  length (filter (fun s => trip_key s = key) segments).

(** [t.lower() == "hotel" and (ev.get("address") or {}).get("latitude") is not None] *)
Definition lodging_shortcut (t ev : json) : result bool :=
  tl ← py_lower t;
  if String.eqb tl "hotel" then
    address ← py_get ev "address";
    latitude ← py_get (address ||| JObj []) "latitude";
    Ok (negb (is_none latitude))
  else Ok false.

(** The body of [for ev_i, ev in enumerate(events)]; the state is
    [(segments, event_summaries)]. *)
Definition process_event (stem trip_group_key trip_name : string)
    (st : list SegmentRecord * list EventSummary) (iev : nat * json)
    : result (list SegmentRecord * list EventSummary) :=
  let '(segs, event_summaries) := st in
  let '(ev_i, ev) := iev in
  UIDescription ← py_get ev "UIDescription";
  let t := UIDescription ||| JStr "Other" in
  id ← py_get_default ev "id" (JInt (Z.of_nat ev_i));
  let trip_key := stem +:+ ":" +:+ py_str L id in
  hotel ← lodging_shortcut t ev;
  if hotel : bool then
    address ← py_get ev "address";
    let addr := address ||| JObj [] in
    latitude ← py_get addr "latitude";
    lat ← py_float L latitude;
    longitude ← py_get addr "longitude";
    lon ← py_float L longitude;
    locationName ← py_get addr "locationName";
    rawAddress ← py_get addr "rawAddress";
    let label := locationName ||| rawAddress ||| JStr "Hotel" in
    venueStartDate ← py_get ev "venueStartDate";
    start ← parse_dt L venueStartDate JNull;
    venueEndDate ← py_get ev "venueEndDate";
    end_ ← parse_dt L venueEndDate JNull;
    start_iso ← dt_iso L start;
    end_iso ← dt_iso L end_;
    Ok (segs,
        (event_summaries ++
          [{| tripGroupKey := trip_group_key; tripName := trip_name; tripKey := trip_key;
              title := label; type_ := "Hotel"; year := dt_year <$> start;
              start := start_iso; end_ := end_iso; segmentCount := 0 |}])%list)
  else
    legs ← py_get ev "legs";
    legs ← py_iter (legs ||| JArr []);
    st ← for_each (process_leg trip_group_key trip_name trip_key (py_str L t)) legs
           {| segments := segs; seg_count := 0; start_dt := None; end_dt := None;
              title_guess := None |};
    if (0 <? seg_count st)%nat then
      let title :=
        match title_guess st with
        | None | Some "" => py_str L t +:+ " trip"
        | Some g => g
        end in
      start_iso ← dt_iso L (start_dt st);
      end_iso ← dt_iso L (end_dt st);
      Ok (segments st,
          (event_summaries ++
            [{| tripGroupKey := trip_group_key; tripName := trip_name; tripKey := trip_key;
                title := JStr title; type_ := py_str L t; year := dt_year <$> start_dt st;
                start := start_iso; end_ := end_iso;
                segmentCount := count_key (segments st) trip_key |}])%list)
    else Ok (segments st, event_summaries).

(** The body of [for p in sorted(raw_dir.glob("*.txt"))]. *)
Definition process_file (st : list SegmentRecord * list EventSummary) (p : source_file)
    : result (list SegmentRecord * list EventSummary) :=
  match content p with
  | None => Ok st                      (* except Exception: continue *)
  | Some obj =>
      tripID ← py_get obj "tripID";
      let trip_group_key := py_str L (tripID ||| JStr (stem p)) in
      customName ← py_get obj "customName";
      name ← py_get obj "name";
      let trip_name := py_str L (customName ||| name ||| JStr (stem p)) in
      tripEvents ← py_get obj "tripEvents";
      events ← py_iter (tripEvents ||| JArr []);
      for_each (process_event (stem p) trip_group_key trip_name) (enumerate events) st
  end.

(** [raw_dir] is given by its [*.txt] files in sorted order. *)
Definition collect_segments (raw_dir : list source_file)
    : result (list SegmentRecord * list EventSummary) :=
  for_each process_file raw_dir ([], []).

End Resolver.

(** ** Grouping the events by trip, at the end of [main] *)

(** A value of the [groups] dict, by its keys. *)
Record TripGroup := {
  g_tripGroupKey : string;
  g_tripName : string;
  g_year : option Z;
  g_start : option string;
  g_end : option string;
  g_events : list EventSummary
}.

(** Truth value of an optional text and of an optional integer. *)
Definition some_text (o : option string) : bool :=
  match o with Some s => negb (String.eqb s "") | None => false end.
Definition some_int (o : option Z) : bool :=
  match o with Some z => negb (z =? 0)%Z | None => false end.

(** [a < b] on two values known to be present *)
Definition text_lt (a b : option string) : bool :=
  String.ltb (default "" a) (default "" b).
Definition int_lt (a b : option Z) : bool := (default 0 a <? default 0 b)%Z.

(** [g['events'].append(e)] and the update of the range. *)
Definition update_group (g : TripGroup) (e : EventSummary) : TripGroup :=
  {| g_tripGroupKey := g_tripGroupKey g;
     g_tripName := g_tripName g;
     g_year :=
       if some_int (year e) && (negb (some_int (g_year g)) || int_lt (year e) (g_year g))
       then year e else g_year g;
     g_start :=
       if some_text (start e) && (negb (some_text (g_start g)) || text_lt (start e) (g_start g))
       then start e else g_start g;
     g_end :=
       if some_text (end_ e) && (negb (some_text (g_end g)) || text_lt (g_end g) (end_ e))
       then end_ e else g_end g;
     g_events := g_events g ++ [e] |}.

Definition new_group (gk : string) (e : EventSummary) : TripGroup :=
  {| g_tripGroupKey := gk;
     g_tripName := if String.eqb (tripName e) "" then gk else tripName e;
     g_year := year e;
     g_start := start e;
     g_end := end_ e;
     g_events := [] |}.

(** The value under [k] replaced where it stands. *)
Fixpoint alter_assoc {A} (f : A -> A) (k : string) (kv : list (string * A))
    : list (string * A) :=
  match kv with
  | [] => []
  | (k', v) :: kv' =>
      if String.eqb k' k then (k', f v) :: kv' else (k', v) :: alter_assoc f k kv'
  end.

(** The body of [for e in events]. *)
Definition add_event (groups : list (string * TripGroup)) (e : EventSummary)
    : list (string * TripGroup) :=
  let gk := tripGroupKey e in
  if String.eqb gk "" then groups
  else
    match assoc gk groups with
    | Some _ => alter_assoc (fun g => update_group g e) gk groups
    | None => groups ++ [(gk, update_group (new_group gk e) e)]
    end.

(** [sorted(l, key=key)]: the stable sort by a text key. *)
Fixpoint insert_by {A} (key : A -> string) (x : A) (l : list A) : list A :=
  match l with
  | [] => [x]
  | y :: l' => if String.ltb (key y) (key x) then y :: insert_by key x l' else x :: l
  end.
Definition sorted_by {A} (key : A -> string) (l : list A) : list A :=
  foldr (insert_by key) [] l.

(** [lambda x: (x.get('start') or '')] *)
Definition start_key (e : EventSummary) : string := default "" (start e).
Definition group_start_key (g : TripGroup) : string := default "" (g_start g).

Definition sort_inside (g : TripGroup) : TripGroup :=
  {| g_tripGroupKey := g_tripGroupKey g; g_tripName := g_tripName g;
     g_year := g_year g; g_start := g_start g; g_end := g_end g;
     g_events := sorted_by start_key (g_events g) |}.

(** [summary["tripGroups"]] *)
Definition trip_groups (events : list EventSummary) : list TripGroup :=
  let groups := foldl add_event [] events in
  let trip_groups := map snd groups in
  sorted_by group_start_key (map sort_inside trip_groups).

(** ** The map document: [to_geojson] *)

(** An optional value as JSON, [None] as [null]. *)
Definition json_opt {A} (f : A → json) (o : option A) : json := from_option f JNull o.

(** [s.departure.year if s.departure else (s.arrival.year if s.arrival else None)] *)
Definition record_year (s : SegmentRecord) : option Z :=
  match departure s with
  | Some d => Some (dt_year d)
  | None => dt_year <$> arrival s
  end.

(** The three features appended for one record: the line, and the points of
    its two ends. *)
Definition to_geojson_features (L : pylib) (s : SegmentRecord) : result (list json) :=
  let year := json_opt JInt (record_year s) in
  let shared := [("tripGroupKey", JStr (trip_group_key s)); ("tripName", JStr (trip_name s));
                 ("tripKey", JStr (trip_key s)); ("type", JStr (type s)); ("year", year)] in
  departure_iso ← dt_iso L (departure s);
  arrival_iso ← dt_iso L (arrival s);
  Ok [JObj [("type", JStr "Feature");
            ("geometry",
             JObj [("type", JStr "LineString");
                   ("coordinates",
                    JArr [JArr [JFloat (from_lon s); JFloat (from_lat s)];
                          JArr [JFloat (to_lon s); JFloat (to_lat s)]])]);
            ("properties",
             JObj (shared ++
                   [("fromLabel", JStr (from_label s)); ("toLabel", JStr (to_label s));
                    ("departure", json_opt JStr departure_iso);
                    ("arrival", json_opt JStr arrival_iso)]))];
      JObj [("type", JStr "Feature");
            ("geometry",
             JObj [("type", JStr "Point");
                   ("coordinates", JArr [JFloat (from_lon s); JFloat (from_lat s)])]);
            ("properties", JObj (shared ++ [("label", JStr (from_label s))]))];
      JObj [("type", JStr "Feature");
            ("geometry",
             JObj [("type", JStr "Point");
                   ("coordinates", JArr [JFloat (to_lon s); JFloat (to_lat s)])]);
            ("properties", JObj (shared ++ [("label", JStr (to_label s))]))]].

Definition to_geojson (L : pylib) (segs : list SegmentRecord) : result json :=
  feats ← for_each (λ feats s, new ← to_geojson_features L s; Ok (feats ++ new)) segs [];
  Ok (JObj [("type", JStr "FeatureCollection"); ("features", JArr feats)]).

(** ** [main], up to the two JSON documents it writes

    The downloads give the two datasets; the HTML and PNG builders, which
    come after the two documents are written and are made of calls to the
    plotting libraries, are left out. *)

(** The [summary] dict, by its keys. *)
Record Summary := {
  sourceFiles : nat;
  total_segmentCount : nat;
  tripGroups : list TripGroup;
  events : list EventSummary
}.

(** [trips.geojson] and [summary.json] as [main] computes them from the two
    downloaded datasets and the input directory, given by its [*.txt]
    files. *)
Definition main (L : pylib) (airports_csv : list (gmap string string))
    (openflights_dat : list (list string)) (in_dir : list source_file)
    : result (json * Summary) :=
  let airport_index := load_iata_index L airports_csv (Some openflights_dat) in
  '(segs, evs) ← collect_segments L airport_index in_dir;
  geo ← to_geojson L segs;
  Ok (geo, {| sourceFiles := length in_dir;
              total_segmentCount := length segs;
              tripGroups := trip_groups evs;
              events := evs |}).

(** ** The code extractor as the specification words it (section 4.2)

    Normalize to uppercase, trim; accept the exact shapes [XXX] and
    [XXX (YYY)], the parenthesized code taking precedence; else take the last
    parenthesized code anywhere in the text; apply the alias table. *)

Definition upper3 (a b c : ascii) : bool := is_upper a && is_upper b && is_upper c.

(** The text is exactly [XXX] or [XXX (YYY)]: the code it designates. *)
Definition exact_shape (s : list ascii) : option (list ascii) :=
  match s with
  | [a; b; c] => if upper3 a b c then Some [a; b; c] else None
  | [a; b; c; sp; lp; d; e; f; rp] =>
      if upper3 a b c && Ascii.eqb " " sp && Ascii.eqb "(" lp && upper3 d e f && Ascii.eqb ")" rp
      then Some [d; e; f] else None
  | _ => None
  end.

(** A parenthesized code starts the text. *)
Definition paren_code_at (s : list ascii) : option (list ascii) :=
  match s with
  | lp :: a :: b :: c :: rp :: _ =>
      if Ascii.eqb "(" lp && upper3 a b c && Ascii.eqb ")" rp then Some [a; b; c] else None
  | _ => None
  end.

(** The parenthesized code that starts furthest to the right. *)
Fixpoint last_paren_code (s : list ascii) : option (list ascii) :=
  match s with
  | [] => None
  | _ :: s' =>
      match last_paren_code s' with
      | Some c => Some c
      | None => paren_code_at s
      end
  end.

Definition code_extractor (raw : string) : option string :=
  let s := chars (strip (upper raw)) in
  match exact_shape s with
  | Some code => Some (alias (text code))
  | None =>
      match last_paren_code s with
      | Some code => Some (alias (text code))
      | None => None
      end
  end.

(** * Definitions for the properties *)

(** ** The two patterns, in closed form *)

(** [$] *)
Definition at_end (s : list ascii) : bool :=
  match s with
  | [] => true
  | [c] => Ascii.eqb c "010"
  | _ => false
  end.

(** What [IATA_STRICT_RE.match] gives: the groups [c1] and [c2]. *)
Definition strict_groups (s : list ascii) : option (list ascii * option (list ascii)) :=
  match s with
  | a :: b :: c :: s' =>
      if upper3 a b c then
        match paren_code_at (lstrip s') with
        | Some c2 =>
            if at_end (drop 5 (lstrip s')) then Some ([a; b; c], Some c2)
            else if at_end s' then Some ([a; b; c], None) else None
        | None => if at_end s' then Some ([a; b; c], None) else None
        end
      else None
  | _ => None
  end.

(** The last element of a list, when there is one. *)
Definition last_opt {A} (l : list A) : option A :=
  match l with
  | [] => None
  | x :: l' => Some (List.last l' x)
  end.

(** ** The airport reference index *)


(** ** The order on text and the stable sort *)

(** [a] is not after [b]. *)
Definition text_le (a b : string) : Prop := String.ltb b a = false.

Definition key_le {A} (key : A → string) (x y : A) : Prop := text_le (key x) (key y).

(** ** Grouping by trip *)

(** The update rule of a group's year, start and end:
    [if new and (not cur or new < cur): cur = new]. *)
Definition pick {A} (t : option A → bool) (l : option A → option A → bool)
    (new cur : option A) : option A :=
  if t new && (negb (t cur) || l new cur) then new else cur.

(** [r] is the least of [xs], absent when there is none. *)
Definition least {A} (ltb : A → A → bool) (xs : list A) (r : option A) : Prop :=
  match r with
  | None => xs = []
  | Some m => m ∈ xs ∧ ∀ x, x ∈ xs → ltb x m = false
  end.

(** An event summary as the resolver builds them: a start and an end that
    are present are ISO texts, not empty, and a year that is present is a
    year of [datetime], not 0. *)
Definition well_formed (e : EventSummary) : Prop :=
  start e ≠ Some "" ∧ end_ e ≠ Some "" ∧ year e ≠ Some 0%Z.

(** The events of a trip group key, in the order of the input. *)
Definition members (k : string) (events : list EventSummary) : list EventSummary :=
  filter (λ e, tripGroupKey e = k) events.

Record group_ok (events : list EventSummary) (k : string) (g : TripGroup) : Prop := {
  ok_key : g_tripGroupKey g = k;
  ok_events : g_events g = members k events;
  ok_start : least String.ltb (omap start (members k events)) (g_start g);
  ok_end : least (flip String.ltb) (omap end_ (members k events)) (g_end g);
  ok_year : least Z.ltb (omap year (members k events)) (g_year g)
}.

(** What holds of the [groups] dict after the events [events]. *)
Definition groups_ok (events : list EventSummary) (groups : list (string * TripGroup))
    : Prop :=
  NoDup (map fst groups)
  ∧ (∀ k g, (k, g) ∈ groups → k ≠ "" ∧ members k events ≠ [] ∧ group_ok events k g)
  ∧ (∀ e, e ∈ events → tripGroupKey e ≠ "" → tripGroupKey e ∈ map fst groups).

(** Ascending, a start that is absent first. *)
Definition absent_first (a b : option string) : Prop :=
  match a, b with
  | None, _ => True
  | Some _, None => False
  | Some x, Some y => text_le x y
  end.

(** ** The segment resolver *)

(** The raw segments of an event, leg after leg. *)
Definition items (v : result json) : list json :=
  try_except (v ≫= λ v, py_iter (v ||| JArr [])) [].
Definition leg_segments (leg : json) : list json := items (py_get leg "segments").
Definition raw_segments (ev : json) : list json :=
  concat (map leg_segments (items (py_get ev "legs"))).

(** The category and the trip key of an event. *)
Definition event_type (ev : json) : json :=
  try_except (py_get ev "UIDescription") JNull ||| JStr "Other".
Definition event_key (L : pylib) (stem : string) (ev_i : nat) (ev : json) : string :=
  stem +:+ ":" +:+ py_str L (try_except (py_get_default ev "id" (JInt (Z.of_nat ev_i))) JNull).

(** ** Endpoints as the specification words them (section 4.3)

    Coordinates: the direct latitude and longitude fields if present and
    numeric; otherwise the code extractor on the raw address text and a
    lookup in the airport reference index. *)

(** [v.get(k)], [None] also where [v] is no dict. *)
Definition get (v : json) (k : string) : json := try_except (py_get v k) JNull.

Section Endpoints.
Context (L : pylib) (airport_index : gmap string airport).

Definition direct_coords (addr : json) : option (float * float) :=
  if is_none (get addr "latitude") || is_none (get addr "longitude") then None
  else
    match py_float L (get addr "latitude"), py_float L (get addr "longitude") with
    | Ok lat, Ok lon => Some (lat, lon)
    | _, _ => None
    end.

(** The raw address text of an address, if it has one. *)
Definition address_raw (addr : json) : option string :=
  raw_text L (get addr "rawAddress").






(** Both ends of the raw segment resolve. *)
Definition resolvable (seg : json) : bool :=
  match resolve_segment L airport_index seg with
  | Ok (Some _) => true
  | _ => false
  end.

(** [r] is the record emitted for the raw segment [seg]. *)
Definition emitted (gk name key t : string) (seg : json) (r : SegmentRecord) : Prop :=
  ∃ dep_lat dep_lon dep_label arr_lat arr_lon arr_label,
    resolve_segment L airport_index seg
    = Ok (Some (dep_lat, dep_lon, dep_label, (arr_lat, arr_lon, arr_label)))
    ∧ trip_group_key r = gk ∧ trip_name r = name ∧ trip_key r = key ∧ type r = t
    ∧ from_label r = py_str L dep_label ∧ to_label r = py_str L arr_label
    ∧ from_lat r = dep_lat ∧ from_lon r = dep_lon
    ∧ to_lat r = arr_lat ∧ to_lon r = arr_lon.

(** The loop state after the raw segments [raws]: all counted, and one
    record appended for each that resolves, in order. *)
Definition grows (gk name key t : string) (st st' : event_state) (raws : list json)
    : Prop :=
  seg_count st' = (seg_count st + length raws)%nat
  ∧ ∃ new, segments st' = segments st ++ new
      ∧ Forall2 (emitted gk name key t)
          (filter (λ seg, resolvable seg = true) raws) new.

(** The summary appended for an event of trip key [key]. *)
Definition summary_of (gk name key : string) (segs : list SegmentRecord)
    (s : EventSummary) : Prop :=
  tripGroupKey s = gk ∧ tripName s = name ∧ tripKey s = key
  ∧ segmentCount s = count_key segs key.

End Endpoints.

(** ** Timestamps *)

(** The value of two decimal digits. *)
Definition val2 (c1 c2 : ascii) : Z := int_of_digits [c1; c2].

(** Texts of the exact form [YYYY-MM-DD HH:MM:SS] and
    [YYYY-MM-DD HH:MM:SS.ffffff]. *)
Section ExactFormTexts.
Variables y1 y2 y3 y4 m1 m2 d1 d2 h1 h2 n1 n2 s1 s2 f1 f2 f3 f4 f5 f6 : ascii.

Definition seconds_form : list ascii :=
  [y1; y2; y3; y4; "-"; m1; m2; "-"; d1; d2; " "; h1; h2; ":"; n1; n2; ":"; s1; s2]%char.
Definition fraction_form : list ascii :=
  seconds_form ++ ["."; f1; f2; f3; f4; f5; f6]%char.

(** The date and time the text denotes. *)
Definition denoted (us : Z) : datetime :=
  {| dt_year := int_of_digits [y1; y2; y3; y4]; dt_month := val2 m1 m2;
     dt_day := val2 d1 d2; dt_hour := val2 h1 h2; dt_minute := val2 n1 n2;
     dt_second := val2 s1 s2; dt_microsecond := us; tzinfo := None |}.

(** The text is made of digits and denotes a date and a time of day. *)
Definition valid_form : Prop :=
  Forall (λ c, is_digit c = true)
    [y1; y2; y3; y4; m1; m2; d1; d2; h1; h2; n1; n2; s1; s2; f1; f2; f3; f4; f5; f6]
  ∧ (1 ≤ int_of_digits [y1; y2; y3; y4])%Z
  ∧ (1 ≤ val2 m1 m2 ≤ 12)%Z
  ∧ (1 ≤ val2 d1 d2 ≤ days_in_month (int_of_digits [y1; y2; y3; y4]) (val2 m1 m2))%Z
  ∧ (val2 h1 h2 ≤ 23)%Z ∧ (val2 n1 n2 ≤ 59)%Z ∧ (val2 s1 s2 ≤ 59)%Z.

Definition seconds_groups : captures :=
  [("S", [s1; s2]); ("M", [n1; n2]); ("H", [h1; h2]); ("d", [d1; d2]); ("m", [m1; m2]);
   ("Y", [y1; y2; y3; y4])].

End ExactFormTexts.

(** The two formats, the one with a fraction first. *)
Definition strptime_either (s : string) : option datetime :=
  match strptime DATE_FMT s with
  | Some dt => Some dt
  | None => strptime FMT_SECONDS s
  end.

(** [dt.replace(tzinfo=tz)] *)
Definition with_zone (d : datetime) (tz : option string) : datetime :=
  {| dt_year := dt_year d; dt_month := dt_month d; dt_day := dt_day d;
     dt_hour := dt_hour d; dt_minute := dt_minute d; dt_second := dt_second d;
     dt_microsecond := dt_microsecond d; tzinfo := tz |}.

(** ** Completion of the run

    Records of the expected JSON types: dicts for documents, events, legs,
    segments and addresses, lists for the events, legs and segments, texts
    for the category, the dates and the labels, numbers for the coordinates
    of a lodging, each absent at will; and no time zone identifier. *)

Definition is_text_or_none (v : json) : bool :=
  match v with JNull | JStr _ => true | _ => false end.
Definition is_dict (v : json) : bool :=
  match v with JObj _ => true | _ => false end.
Definition falsy_or (p : json → bool) (v : json) : bool := negb (truthy v) || p v.
Definition is_list_of (p : json → bool) (v : json) : bool :=
  match v with JArr l => forallb p l | _ => false end.

Definition wt_address (a : json) : bool :=
  falsy_or (λ a, is_dict a && is_text_or_none (get a "city")
                 && is_text_or_none (get a "rawAddress")) a.

Definition wt_segment (seg : json) : bool :=
  is_dict seg
  && is_text_or_none (get seg "departureDate")
  && negb (truthy (get seg "departureTimeZoneID"))
  && is_text_or_none (get seg "arrivalDate")
  && negb (truthy (get seg "arrivalTimeZoneID"))
  && wt_address (get seg "departureAddress")
  && wt_address (get seg "arrivalAddress").

Definition wt_leg (leg : json) : bool :=
  is_dict leg && falsy_or (is_list_of wt_segment) (get leg "segments").

Definition wt_event (L : pylib) (ev : json) : bool :=
  is_dict ev
  && is_text_or_none (get ev "UIDescription")
  && falsy_or is_dict (get ev "address")
  && match lodging_shortcut (event_type ev) ev with
     | Ok true =>
         let addr := get ev "address" ||| JObj [] in
         is_ok (py_float L (get addr "latitude")) && is_ok (py_float L (get addr "longitude"))
         && is_text_or_none (get ev "venueStartDate")
         && is_text_or_none (get ev "venueEndDate")
     | _ => falsy_or (is_list_of wt_leg) (get ev "legs")
     end.

Definition wt_doc (L : pylib) (obj : json) : bool :=
  is_dict obj && falsy_or (is_list_of (wt_event L)) (get obj "tripEvents").

Definition wt_file (L : pylib) (p : source_file) : bool :=
  match content p with
  | None => true
  | Some obj => wt_doc L obj
  end.

(** A date without zone, if any. *)
Definition naive (d : option datetime) : Prop := ∀ x, d = Some x → tzinfo x = None.

Definition naive_state (st : event_state) : Prop :=
  naive (start_dt st) ∧ naive (end_dt st).

(** ** Sample documents *)

(** [float] on the few texts that the sample datasets hold. *)
Definition demo_floats (s : string) : option float :=
  if String.eqb s "13.15" then Some 13.15%float
  else if String.eqb s "123.74" then Some 123.74%float
  else None.

Definition demo_lib : pylib :=
  {| float_of_str := demo_floats;
     float_of_int := λ z,
       if (Z.abs z <? 2 ^ 53)%Z
       then let f := PrimFloat.of_uint63 (Uint63.of_Z (Z.abs z)) in
            Some (if (z <? 0)%Z then PrimFloat.opp f else f)
       else None;
     repr := λ _, "?";
     gettz := λ v, match v with
                   | JStr "Europe/Berlin" => Some "Europe/Berlin"
                   | JStr "UTC" => Some "UTC"
                   | _ => None
                   end;
     utcoffset := λ z _, if String.eqb z "UTC" then 0%Z else 3600000000%Z |}.

Definition demo_row : gmap string string :=
  list_to_map [("iata_code", "lgp"); ("latitude_deg", "13.15"); ("longitude_deg", "123.74");
               ("name", "Legazpi"); ("iso_country", "ph")].

Definition demo_index : gmap string airport := load_iata_index demo_lib [] None.

(** Departure by airport code, arrival by coordinates. *)
Definition seg_resolved : json :=
  JObj [("departureDate", JStr "2024-03-01 08:15:00.000000");
        ("departureAddress", JObj [("city", JStr "Legazpi"); ("rawAddress", JStr "LGP")]);
        ("arrivalAddress",
         JObj [("latitude", JFloat 14.5%float); ("longitude", JFloat 121%float);
               ("city", JStr "Manila")])].

(** Departure from a place that is no airport code and has no coordinates. *)
Definition seg_unresolved : json :=
  JObj [("departureDate", JStr "2024-02-01 07:00:00");
        ("departureAddress", JObj [("rawAddress", JStr "Berlin Hbf")]);
        ("arrivalAddress",
         JObj [("latitude", JFloat 14.5%float); ("longitude", JFloat 121%float);
               ("city", JStr "Manila")])].

Definition event_of (t : string) (segs : list json) : json :=
  JObj [("UIDescription", JStr t); ("legs", JArr [JObj [("segments", JArr segs)]])].

Definition file_of (stem : string) (events : list json) : source_file :=
  {| stem := stem; content := Some (JObj [("tripID", JStr "T1"); ("tripEvents", JArr events)]) |}.

Definition hotel_with_coordinates : json :=
  JObj [("UIDescription", JStr "Hotel");
        ("address", JObj [("latitude", JFloat 14.5%float); ("longitude", JFloat 121%float);
                          ("locationName", JStr "Inn")]);
        ("venueStartDate", JStr "2024-03-02 14:00:00")].

Definition hotel_without_coordinates : json :=
  JObj [("UIDescription", JStr "Hotel"); ("address", JObj [("rawAddress", JStr "Main St 1")])].

Definition train_event : json := event_of "Train" [seg_unresolved].
Definition flight_event : json := event_of "Flight" [seg_resolved; seg_unresolved].

Definition summary_T1 (key : string) (title : json) (t : string) (start : option string)
    (n : nat) : EventSummary :=
  {| tripGroupKey := "T1"; tripName := "trip"; tripKey := key; title := title;
     type_ := t; year := Some 2024%Z; start := start; end_ := None; segmentCount := n |}.



Definition demo_events : list EventSummary :=
  [summary_T1 "trip:1" (JStr "b") "Flight" (Some "2024-01-05T10:00:00") 1;
   summary_T1 "trip:0" (JStr "a") "Flight" (Some "2024-01-01T09:00:00") 1;
   summary_T1 "trip:2" (JStr "c") "Hotel" None 0].

(** An event that carries the id 0, after an event without id. *)
Definition event_with_id_0 : json :=
  JObj [("UIDescription", JStr "Flight"); ("id", JInt 0);
        ("legs", JArr [JObj [("segments", JArr [seg_resolved])]])].



Definition unreadable_file : source_file := {| stem := "broken"; content := None |}.

(** ** Codes *)

(** A code: three capital letters. *)
Definition is_code (c : string) : Prop :=
  ∃ a b d, c = text [a; b; d] ∧ upper3 a b d = true.

(** ** The airport reference index, row by row *)

(** The entry a row of the primary dataset gives, when the row is taken. *)
Definition ourairports_entry (L : pylib) (row : gmap string string) : option (string * airport) :=
  let iata := upper (strip (field row "iata_code")) in
  if String.eqb iata "" || negb (String.length iata =? 3)%nat then None
  else
    match float_of_str L (field row "latitude_deg"),
          float_of_str L (field row "longitude_deg") with
    | Some lat, Some lon =>
        let c := upper (strip (field row "iso_country")) in
        Some (iata, (lat, lon, strip (field row "name"),
                     if String.eqb c "" then None else Some c))
    | _, _ => None
    end.

(** The entry a line of the secondary dataset gives, when no entry has its
    code yet. *)
Definition openflights_entry (L : pylib) (parts : list string) : option (string * airport) :=
  if (length parts <? 8)%nat then None
  else
    let iata := upper (strip (part parts 4)) in
    if String.eqb iata "" || String.eqb iata "\N" || negb (String.length iata =? 3)%nat
    then None
    else
      match float_of_str L (part parts 6), float_of_str L (part parts 7) with
      | Some lat, Some lon => Some (iata, (lat, lon, strip (part parts 1), None))
      | _, _ => None
      end.

(** The entries of a code, in the order of the dataset. *)
Definition entries_of (code : string) (es : list (string * airport)) : list airport :=
  snd <$> filter (λ e, e.1 = code) es.

(** ** Decimal text and the order on text *)

(** The decimal digits of a number, as [str] prints them. *)
Definition decimal_of (n : N) : list ascii := chars (str_of_N n).

(** [n] on [w] digits. *)
Fixpoint fixed (w : nat) (n : N) : list ascii :=
  match w with
  | O => []
  | S w' => fixed w' (n / 10) ++ [digit_char (N.to_nat (n mod 10))]
  end.

(** [a < b], [a == b] or [a > b] on text. *)
Fixpoint lcmp (a b : list ascii) : comparison :=
  match a, b with
  | [], [] => Eq
  | [], _ :: _ => Lt
  | _ :: _, [] => Gt
  | x :: a', y :: b' =>
      match Ascii.compare x y with
      | Eq => lcmp a' b'
      | c => c
      end
  end.

(** ** Dates *)

(** A date and a time of day of [datetime]. *)
Definition valid_datetime (d : datetime) : Prop :=
  (1 ≤ dt_year d ≤ 9999 ∧ 1 ≤ dt_month d ≤ 12
   ∧ 1 ≤ dt_day d ≤ days_in_month (dt_year d) (dt_month d)
   ∧ 0 ≤ dt_hour d ≤ 23 ∧ 0 ≤ dt_minute d ≤ 59 ∧ 0 ≤ dt_second d ≤ 59
   ∧ 0 ≤ dt_microsecond d ≤ 999999)%Z.

(** The ISO text of the exact forms: a [T] for the blank. *)
Definition iso_form (y1 y2 y3 y4 m1 m2 d1 d2 h1 h2 n1 n2 s1 s2 : ascii) : list ascii :=
  [y1; y2; y3; y4; "-"; m1; m2; "-"; d1; d2; "T"; h1; h2; ":"; n1; n2; ":"; s1; s2]%char.

(** [a < b] on two dates without zone. *)
Definition ltd (a b : datetime) : bool := lex_lt (fields a) (fields b).

(** The value is not [None]. *)
Definition present {A} (o : option A) : bool :=
  match o with Some _ => true | None => false end.

(** [new < cur] and [new > cur], both present. *)
Definition earlier (new cur : option datetime) : bool :=
  match new, cur with Some x, Some y => ltd x y | _, _ => false end.
Definition later (new cur : option datetime) : bool :=
  match new, cur with Some x, Some y => ltd y x | _, _ => false end.

(** ** The run, event by event *)

(** An event of the run: the stem, the trip group key and the trip name of
    its file, its position in the file, and the event. *)
Record located := {
  l_stem : string;
  l_gk : string;
  l_name : string;
  l_index : nat;
  l_event : json
}.

(** The events of a file, with the keys [collect_segments] gives them. *)
Definition file_events (L : pylib) (p : source_file) : list located :=
  match content p with
  | None => []
  | Some obj =>
      (λ iev, {| l_stem := stem p;
                 l_gk := py_str L (get obj "tripID" ||| JStr (stem p));
                 l_name := py_str L (get obj "customName" ||| get obj "name" ||| JStr (stem p));
                 l_index := fst iev; l_event := snd iev |})
      <$> enumerate (items (py_get obj "tripEvents"))
  end.

Definition run_events (L : pylib) (raw_dir : list source_file) : list located :=
  concat (map (file_events L) raw_dir).

(** The trip key of an event of the run. *)
Definition l_key (L : pylib) (e : located) : string :=
  event_key L (l_stem e) (l_index e) (l_event e).

(** The trip keys of the events of the run. *)
Definition run_keys (L : pylib) (raw_dir : list source_file) : list string :=
  l_key L <$> run_events L raw_dir.

(** An event that is a dict without the key [id]. *)
Definition no_id (ev : json) : Prop :=
  ∃ kv, ev = JObj kv ∧ assoc "id" kv = None.

(** The trip key of an event without id: the stem and the position. *)
Definition position_key (si : string * nat) : string :=
  si.1 +:+ ":" +:+ str_of_Z (Z.of_nat si.2).

(** The event takes the lodging shortcut. *)
Definition takes_shortcut (ev : json) : bool :=
  match lodging_shortcut (event_type ev) ev with Ok true => true | _ => false end.

(** The event gets a summary: a lodging with a latitude, or an event with a
    raw segment. *)
Definition summarized (ev : json) : bool :=
  takes_shortcut ev || negb (bool_decide (raw_segments ev = [])).

(** ** The loop over the segments of an event *)

(** The dates of a raw segment, as [parse_dt] reads them. *)
Definition seg_departure (L : pylib) (seg : json) : option datetime :=
  try_except (parse_dt L (get seg "departureDate") (get seg "departureTimeZoneID")) None.
Definition seg_arrival (L : pylib) (seg : json) : option datetime :=
  try_except (parse_dt L (get seg "arrivalDate") (get seg "arrivalTimeZoneID")) None.

(** The dates of a raw segment carry no zone. *)
Definition naive_segment (L : pylib) (seg : json) : Prop :=
  naive (seg_departure L seg) ∧ naive (seg_arrival L seg).

(** The records whose dates carry no zone. *)
Definition naive_record (r : SegmentRecord) : Prop :=
  naive (departure r) ∧ naive (arrival r).

(** The state of the loop before the first segment of an event. *)
Definition first_state (segs : list SegmentRecord) : event_state :=
  {| segments := segs; seg_count := 0; start_dt := None; end_dt := None;
     title_guess := None |}.

(** [if not title_guess: title_guess = new] *)
Definition guess (cur : option string) (new : string) : option string :=
  match cur with
  | None | Some "" => Some new
  | Some g => Some g
  end.

(** [f"{dep_label} → {arr_label}"] of a record. *)
Definition route (r : SegmentRecord) : string := from_label r +:+ " → " +:+ to_label r.

(** The title of the summary of an event of category [t] that added the
    records [new]. *)
Definition summary_title (t : string) (new : list SegmentRecord) : string :=
  match new with
  | r :: _ => route r
  | [] => t +:+ " trip"
  end.

(** What [collect_segments] keeps of a summary's dates. *)
Definition dated (s : EventSummary) : Prop :=
  well_formed s
  ∧ (year s = None ↔ start s = None)
  ∧ ∀ y, year s = Some y → (1 ≤ y)%Z.

(** ** The run as a whole *)

(** The raw segments of an event that give a record. *)
Definition event_records (L : pylib) (airport_index : gmap string airport) (e : located)
    : list (located * json) :=
  if takes_shortcut (l_event e) then []
  else (λ seg, (e, seg)) <$> filter (λ seg, resolvable L airport_index seg = true)
                                    (raw_segments (l_event e)).

(** The raw segments of the run that give a record, with their event. *)
Definition run_records (L : pylib) (airport_index : gmap string airport)
    (raw_dir : list source_file) : list (located * json) :=
  concat (map (event_records L airport_index) (run_events L raw_dir)).

(** [r] is the record of the raw segment [es.2] of the event [es.1]. *)
Definition record_of (L : pylib) (airport_index : gmap string airport)
    (es : located * json) (r : SegmentRecord) : Prop :=
  emitted L airport_index (l_gk es.1) (l_name es.1) (l_key L es.1)
    (py_str L (event_type (l_event es.1))) es.2 r.

(** [s] is the summary of the event [e]. *)
Definition summary_for (L : pylib) (e : located) (s : EventSummary) : Prop :=
  tripKey s = l_key L e ∧ tripGroupKey s = l_gk e ∧ tripName s = l_name e
  ∧ type_ s = (if takes_shortcut (l_event e) then "Hotel"
               else py_str L (event_type (l_event e))).

(** ** The outputs of [main] *)

(** The features of a feature collection; the kind of geometry and the
    properties of a feature. *)
Definition features (geo : json) : list json :=
  match get geo "features" with JArr l => l | _ => [] end.
Definition geometry_type (f : json) : json := get (get f "geometry") "type".
Definition is_line (f : json) : bool :=
  match geometry_type f with JStr s => String.eqb s "LineString" | _ => false end.
Definition property (f : json) (k : string) : json := get (get f "properties") k.

(** The events that [main] groups: those with a trip group key. *)
Definition keyed (events : list EventSummary) : list EventSummary :=
  filter (λ e, tripGroupKey e ≠ "") events.

(** The events of all groups. *)
Definition grouped (groups : list TripGroup) : list EventSummary :=
  concat (map g_events groups).

(** ** Zones and labels *)

(** The two dates are both without zone or both with one. *)
Definition alike (a b : datetime) : Prop := tzinfo a = None ↔ tzinfo b = None.

(** The texts of a record, and those of a summary, are not empty. *)
Definition labelled (r : SegmentRecord) : Prop :=
  from_label r ≠ "" ∧ to_label r ≠ "" ∧ type r ≠ "".
Definition titled (s : EventSummary) : Prop :=
  truthy (title s) = true ∧ type_ s ≠ "".

(** ** What a pattern matches

    [sem r pre caps caps']: the pattern [r] matches the text [pre] and
    turns the groups [caps] into [caps']. *)
Fixpoint sem (r : regex) (pre : list ascii) (caps caps' : captures) : Prop :=
  match r with
  | RChar p => ∃ c, pre = [c] ∧ p c = true ∧ caps' = caps
  | RSeq r1 r2 =>
      ∃ p1 p2 c1, pre = p1 ++ p2 ∧ sem r1 p1 caps c1 ∧ sem r2 p2 c1 caps'
  | RAlt r1 r2 => sem r1 pre caps caps' ∨ sem r2 pre caps caps'
  | RRep p lo hi =>
      Forall (λ c, p c = true) pre ∧ (lo ≤ length pre)%nat
      ∧ (∀ n, hi = Some n → (length pre ≤ n)%nat) ∧ caps' = caps
  | ROpt r1 => (pre = [] ∧ caps' = caps) ∨ sem r1 pre caps caps'
  | RGroup name r1 => ∃ c1, sem r1 pre caps c1 ∧ caps' = (name, pre) :: c1
  | REnd => pre = [] ∧ caps' = caps
  end.

(** The number a group stands for, as [strptime] reads it. *)
Definition number (pre : list ascii) : Z :=
  int_of_digits (filter (λ c, is_digit c = true) pre).

(** ** More sample documents *)

(** A directory of three files, the second of which cannot be read. *)
Definition demo_dir : list source_file :=
  [file_of "a" [flight_event; hotel_with_coordinates]; unreadable_file;
   file_of "b" [train_event; hotel_without_coordinates]].

Definition morning : datetime :=
  {| dt_year := 2024; dt_month := 3; dt_day := 1; dt_hour := 8; dt_minute := 15;
     dt_second := 0; dt_microsecond := 0; tzinfo := None |}.
Definition half_a_second_later : datetime :=
  {| dt_year := 2024; dt_month := 3; dt_day := 1; dt_hour := 8; dt_minute := 15;
     dt_second := 0; dt_microsecond := 500000; tzinfo := None |}.

(** * Properties *)

(** ** Text *)

Lemma chars_text (l : list ascii) : chars (text l) = l.
Proof. apply list_ascii_of_string_of_list_ascii. Qed.

Lemma text_chars (s : string) : text (chars s) = s.
Proof. apply string_of_list_ascii_of_string. Qed.

Lemma is_space_upper_char (c : ascii) : is_space (upper_char c) = is_space c.
Proof. destruct c as [[] [] [] [] [] [] [] []]; reflexivity. Qed.

Lemma lstrip_upper (l : list ascii) :
  lstrip (map upper_char l) = map upper_char (lstrip l).
Proof.
  induction l as [|c l IH]; simpl; [reflexivity|].
  rewrite is_space_upper_char. destruct (is_space c); [exact IH | reflexivity].
Qed.

Lemma rstrip_upper (l : list ascii) :
  rstrip (map upper_char l) = map upper_char (rstrip l).
Proof. unfold rstrip. by rewrite <- map_rev, lstrip_upper, map_rev. Qed.

(** Trimming and uppercasing commute. *)
Lemma strip_upper (s : string) : strip (upper s) = upper (strip s).
Proof.
  unfold strip, upper. rewrite !chars_text. by rewrite lstrip_upper, rstrip_upper.
Qed.

Lemma lstrip_head (l : list ascii) c l' : lstrip l = c :: l' → is_space c = false.
Proof.
  induction l as [|x l IH]; simpl; [discriminate|].
  destruct (is_space x) eqn:E; [exact IH|]. intros [= <- _]. exact E.
Qed.

(** A trimmed text does not end in white space. *)
Lemma rstrip_last (l l' : list ascii) c : rstrip l = l' ++ [c] → is_space c = false.
Proof.
  unfold rstrip. intros H. apply (f_equal (@rev ascii)) in H.
  rewrite rev_involutive, rev_app_distr in H. simpl in H.
  by apply lstrip_head in H.
Qed.

Lemma upper_strip_last (raw : string) l c :
  chars (upper (strip raw)) = l ++ [c] → is_space c = false.
Proof.
  unfold upper, strip. rewrite !chars_text, <- rstrip_upper. apply rstrip_last.
Qed.

(** ** The code extractor *)

(** The code extractor on a few texts. *)
Example iata_ex1 : iata_from_raw (Some "LHR (CDG)") = Some "CDG".
Proof. vm_compute. reflexivity. Qed.
Example iata_ex2 : iata_from_raw (Some " txl ") = Some "BER".
Proof. vm_compute. reflexivity. Qed.
Example iata_ex3 : iata_from_raw (Some "Berlin Hbf") = None.
Proof. vm_compute. reflexivity. Qed.
Example iata_ex4 : iata_from_raw (Some "Manila (MNL), Philippines (XX) (ceb)") = Some "CEB".
Proof. vm_compute. reflexivity. Qed.

(** ** The two patterns, in closed form *)

Lemma rep_letters3 {R} (s : list ascii) (k : list ascii → option R) :
  rep is_upper 3 (Some 3) s k =
  match s with
  | a :: b :: c :: s' => if upper3 a b c then k s' else None
  | _ => None
  end.
Proof.
  destruct s as [|a [|b [|c s']]]; simpl; try reflexivity;
    unfold upper3; destruct (is_upper a); simpl; try reflexivity;
    destruct (is_upper b); simpl; try reflexivity.
  destruct (is_upper c); simpl; [|reflexivity].
  destruct s'; simpl; rewrite ?andb_false_r; destruct (k _); reflexivity.
Qed.

(** A run of white space is passed whole when what follows cannot start with
    white space. *)
Lemma rep_spaces {R} (s : list ascii) (k : list ascii → option R) :
  (∀ c s', is_space c = true → k (c :: s') = None) →
  rep is_space 0 None s k = k (lstrip s).
Proof.
  intros Hk. induction s as [|c s IH]; simpl; [reflexivity|].
  destruct (is_space c) eqn:E; simpl; [|reflexivity].
  rewrite IH. destruct (k (lstrip s)); [reflexivity|]. by rewrite Hk.
Qed.

Lemma take_consumed (pre s : list ascii) :
  take (length (pre ++ s) - length s) (pre ++ s) = pre.
Proof.
  rewrite length_app. replace (length pre + length s - length s) with (length pre) by lia.
  by rewrite take_app_length.
Qed.

#[local] Opaque Ascii.eqb.

Lemma strict_closed_form (s : list ascii) :
  (λ '(_, m), (default [] (group m "c1"), group m "c2")) <$> re_match IATA_STRICT_RE s
  = strict_groups s.
Proof.
  unfold re_match, IATA_STRICT_RE, letters3. cbn [rmatch].
  rewrite rep_letters3. unfold strict_groups.
  destruct s as [|a [|b [|c s']]]; try reflexivity.
  destruct (upper3 a b c); [|reflexivity].
  rewrite rep_spaces.
  2:{ intros x t Hx. cbn. destruct (Ascii.eqb_spec "(" x) as [<-|]; [discriminate|reflexivity]. }
  change (a :: b :: c :: s') with ([a; b; c] ++ s'). rewrite take_consumed.
  set (kend := match s' with [] => _ | _ => _ end).
  assert (Hend : (λ '(_, m), (default [] (group m "c1"), group m "c2")) <$> kend
                 = if at_end s' then Some ([a; b; c], None) else None).
  { subst kend. destruct s' as [|x [|y t]]; cbn; try reflexivity.
    destruct (Ascii.eqb x "010"); reflexivity. }
  clearbody kend.
  destruct (lstrip s') as [|lp t]; [exact Hend|].
  cbn [lit rmatch paren_code_at].
  destruct (Ascii.eqb "(" lp); cbn [andb]; [|destruct t as [|? [|? [|? [|? ?]]]]; exact Hend].
  rewrite rep_letters3.
  destruct t as [|d [|e [|f t]]]; try exact Hend.
  destruct (upper3 d e f); cbn [andb]; [|destruct t; exact Hend].
  destruct t as [|rp t]; [exact Hend|].
  destruct (Ascii.eqb ")" rp); [|exact Hend].
  change (d :: e :: f :: rp :: t) with ([d; e; f] ++ rp :: t). rewrite take_consumed.
  cbn [drop].
  destruct t as [|x [|y t]]; cbn; try exact Hend; try reflexivity.
  destruct (Ascii.eqb x "010"); [reflexivity | exact Hend].
Qed.

(** What [IATA_PAREN_RE.match] gives at the start of a text. *)
Lemma paren_closed_form (s : list ascii) :
  (λ '(rest, m), (rest, default [] (group m "1"))) <$> re_match IATA_PAREN_RE s
  = (λ code, (drop 5 s, code)) <$> paren_code_at s.
Proof.
  unfold re_match, IATA_PAREN_RE, letters3. cbn [rmatch lit paren_code_at].
  destruct s as [|lp t]; [reflexivity|].
  rewrite rep_letters3.
  destruct t as [|a [|b [|c [|rp t]]]]; cbn [paren_code_at];
    try (destruct (Ascii.eqb "(" lp); reflexivity).
  - destruct (Ascii.eqb "(" lp), (upper3 a b c); reflexivity.
  - destruct (Ascii.eqb "(" lp), (upper3 a b c); cbn [andb]; try reflexivity.
    destruct (Ascii.eqb ")" rp); [|reflexivity].
    change (a :: b :: c :: rp :: t) with ([a; b; c] ++ rp :: t). rewrite take_consumed.
    reflexivity.
Qed.

Lemma paren_code_at_head (c : ascii) (s : list ascii) :
  Ascii.eqb "(" c = false → paren_code_at (c :: s) = None.
Proof. intros H. cbn. rewrite H. by destruct s as [|? [|? [|? [|? ?]]]]. Qed.

Lemma paren_code_at_length (s code : list ascii) :
  paren_code_at s = Some code → (5 <= length s)%nat.
Proof. destruct s as [|? [|? [|? [|? [|? ?]]]]]; cbn; try discriminate. lia. Qed.

(** No parenthesized code starts inside another one. *)
Lemma paren_code_inside (s code : list ascii) (i : nat) :
  paren_code_at s = Some code → (0 < i < 5)%nat → paren_code_at (drop i s) = None.
Proof.
  destruct s as [|lp [|a [|b [|c [|rp s]]]]]; cbn [paren_code_at]; try discriminate.
  destruct (Ascii.eqb "(" lp); [|discriminate]. cbn [andb].
  destruct (upper3 a b c) eqn:Hu; [|discriminate]. cbn [andb].
  destruct (Ascii.eqb_spec ")" rp) as [<-|]; [|discriminate]. intros _ Hi.
  unfold upper3 in Hu. apply andb_prop in Hu as [Hu Hc]. apply andb_prop in Hu as [Ha Hb].
  assert (Hup : ∀ x, is_upper x = true → Ascii.eqb "(" x = false).
  { intros x Hx. destruct (Ascii.eqb_spec "(" x) as [<-|]; [discriminate|reflexivity]. }
  destruct i as [|[|[|[|[|i]]]]]; try lia; cbn [drop];
    apply paren_code_at_head; auto.
Qed.

Lemma last_default {A} (l : list A) (z x y : A) :
  List.last (z :: l) x = List.last (z :: l) y.
Proof.
  revert z. induction l as [|w l IH]; intros z; [reflexivity|].
  change (List.last (w :: l) x = List.last (w :: l) y). apply IH.
Qed.

Lemma last_opt_cons {A} (x : A) (l : list A) :
  last_opt (x :: l) = match last_opt l with Some y => Some y | None => Some x end.
Proof.
  destruct l as [|y l]; [reflexivity|]. cbn [last_opt]. f_equal.
  change (List.last (y :: l) x = List.last l y).
  destruct l as [|z l]; [reflexivity|].
  change (List.last (z :: l) x = List.last (z :: l) y). apply last_default.
Qed.

Lemma findall_paren_last (s : list ascii) (skip : nat) :
  (∀ i, (i < skip)%nat → paren_code_at (drop i s) = None) →
  last_opt (findall_from IATA_PAREN_RE "1" skip s) = last_paren_code s.
Proof.
  revert skip. induction s as [|c s IH]; intros skip Hskip; [reflexivity|].
  cbn [findall_from last_paren_code].
  destruct skip as [|n].
  - pose proof (paren_closed_form (c :: s)) as Hm.
    destruct (re_match IATA_PAREN_RE (c :: s)) as [[rest m]|];
      destruct (paren_code_at (c :: s)) as [code|] eqn:Hp; try discriminate Hm.
    + cbn in Hm. injection Hm as -> ->.
      rewrite last_opt_cons, IH.
      * destruct (last_paren_code s); reflexivity.
      * intros i Hi. pose proof (paren_code_at_length _ _ Hp) as Hlen.
        rewrite length_drop in Hi. cbn [length] in Hi, Hlen.
        change (drop i s) with (drop (S i) (c :: s)).
        apply (paren_code_inside _ _ _ Hp). lia.
    + rewrite IH; [by destruct (last_paren_code s)|]. intros i Hi. lia.
  - rewrite IH.
    + pose proof (Hskip 0 ltac:(lia)) as H0. rewrite drop_0 in H0. rewrite H0.
      by destruct (last_paren_code s).
    + intros i Hi. apply (Hskip (S i)). lia.
Qed.

Lemma last_paren_code_skip (pre s : list ascii) :
  Forall (λ c, Ascii.eqb "(" c = false) pre →
  last_paren_code (pre ++ s) = last_paren_code s.
Proof.
  induction 1 as [|c pre Hc _ IH]; [reflexivity|].
  cbn [app last_paren_code]. rewrite IH, paren_code_at_head by done.
  by destruct (last_paren_code s).
Qed.

Lemma last_paren_code_single (s code : list ascii) :
  paren_code_at s = Some code → length s = 5%nat → last_paren_code s = Some code.
Proof.
  intros Hp Hlen.
  destruct s as [|lp [|a [|b [|c [|rp [|x s]]]]]]; try discriminate Hlen.
  cbn [last_paren_code]. exact Hp.
Qed.

Lemma lstrip_split (l : list ascii) :
  ∃ ws, l = ws ++ lstrip l ∧ Forall (λ c, is_space c = true) ws.
Proof.
  induction l as [|c l (ws & Hl & Hws)]; [by exists []|]. cbn [lstrip].
  destruct (is_space c) eqn:E; [|by exists []].
  exists (c :: ws). split; [by rewrite Hl at 1 | by constructor].
Qed.

Lemma not_paren_upper (c : ascii) : is_upper c = true → Ascii.eqb "(" c = false.
Proof. intros H. destruct (Ascii.eqb_spec "(" c) as [<-|]; [discriminate|reflexivity]. Qed.

Lemma not_paren_space (c : ascii) : is_space c = true → Ascii.eqb "(" c = false.
Proof. intros H. destruct (Ascii.eqb_spec "(" c) as [<-|]; [discriminate|reflexivity]. Qed.

(** The strict pattern against the exact shapes of the specification, on a
    text that does not end in white space. *)
Lemma strict_groups_exact (s : list ascii) :
  (∀ l c, s = l ++ [c] → is_space c = false) →
  match strict_groups s with
  | Some (c1, Some c2) =>
      c2 ≠ [] ∧ (∀ code, exact_shape s = Some code → code = c2)
      ∧ last_paren_code s = Some c2
  | Some (c1, None) => exact_shape s = Some c1
  | None => exact_shape s = None
  end.
Proof.
  intros Hlast. unfold strict_groups.
  destruct s as [|a [|b [|c s']]]; try reflexivity.
  destruct (upper3 a b c) eqn:Hu.
  2:{ cbn [exact_shape]. rewrite Hu. by destruct s' as [|? [|? [|? [|? [|? [|? [|? ?]]]]]]]. }
  assert (Hend : at_end s' = true → s' = []).
  { destruct s' as [|x [|y t]]; cbn; try done.
    intros Hx%Ascii.eqb_eq. subst x.
    by specialize (Hlast [a; b; c] "010"%char eq_refl). }
  assert (Hshort : if at_end s' then exact_shape (a :: b :: c :: s') = Some [a; b; c]
                   else paren_code_at (lstrip s') = None ∨
                        at_end (drop 5 (lstrip s')) = false →
                        exact_shape (a :: b :: c :: s') = None).
  { destruct (at_end s') eqn:E.
    - rewrite (Hend eq_refl). cbn. by rewrite Hu.
    - cbn [exact_shape]. rewrite Hu.
      destruct s' as [|sp [|lp [|d [|e [|f [|rp [|? ?]]]]]]]; try done.
      cbn [andb].
      destruct (Ascii.eqb_spec " " sp) as [<-|]; [|done].
      destruct (Ascii.eqb_spec "(" lp) as [<-|]; [|done].
      destruct (upper3 d e f) eqn:Hu2; [|done].
      destruct (Ascii.eqb_spec ")" rp) as [<-|]; [|done].
      assert (lstrip [" "%char; "("%char; d; e; f; ")"%char]
              = ["("%char; d; e; f; ")"%char]) as -> by reflexivity.
      cbn [paren_code_at drop at_end]. rewrite Hu2, !Ascii.eqb_refl. by intros [|]. }
  destruct (paren_code_at (lstrip s')) as [c2|] eqn:Hp.
  2:{ destruct (at_end s'); [done | by apply Hshort; left]. }
  destruct (at_end (drop 5 (lstrip s'))) eqn:E5.
  2:{ destruct (at_end s'); [done | by apply Hshort; right]. }
  clear Hshort.
  destruct (lstrip_split s') as (ws & Hs' & Hws).
  destruct (lstrip s') as [|lp [|d [|e [|f [|rp t]]]]] eqn:El; try discriminate Hp.
  assert (t = []) as ->.
  { destruct t as [|x [|y t]]; cbn in E5; try done.
    apply Ascii.eqb_eq in E5. subst x.
    by specialize (Hlast ([a; b; c] ++ ws ++ [lp; d; e; f; rp]) "010"%char
                     ltac:(rewrite Hs'; by rewrite <- !app_assoc)). }
  pose proof Hp as Hp'. cbn [paren_code_at] in Hp'.
  destruct (Ascii.eqb_spec "(" lp) as [<-|]; [|discriminate]. cbn [andb] in Hp'.
  destruct (upper3 d e f) eqn:Hu2; [|discriminate]. cbn [andb] in Hp'.
  destruct (Ascii.eqb_spec ")" rp) as [<-|]; [|discriminate].
  injection Hp' as <-.
  split; [done|]. split.
  - intros code. rewrite Hs'. cbn [exact_shape]. rewrite Hu.
    destruct ws as [|w1 [|w2 ws]]; cbn [app]; [done| |].
    + cbn [andb]. destruct (Ascii.eqb " " w1); [|done]. cbn.
      rewrite Hu2, !Ascii.eqb_refl. cbn. congruence.
    + by destruct ws as [|? [|? [|? [|? [|? ?]]]]].
  - change (a :: b :: c :: s') with ([a; b; c] ++ s'). rewrite Hs'.
    unfold upper3 in Hu. apply andb_prop in Hu as [Hu Hc]. apply andb_prop in Hu as [Ha Hb].
    rewrite last_paren_code_skip by (repeat constructor; by apply not_paren_upper).
    rewrite last_paren_code_skip by (eapply Forall_impl; [exact Hws | apply not_paren_space]).
    by apply last_paren_code_single.
Qed.

Lemma iata_from_raw_eq (raw : string) : iata_from_raw (Some raw) = code_extractor raw.
Proof.
  destruct raw as [|r0 raw']; [by vm_compute|].
  set (raw := String r0 raw'). unfold code_extractor. rewrite strip_upper.
  change (iata_from_raw (Some raw)) with
    (match re_match IATA_STRICT_RE (chars (upper (strip raw))) with
     | Some (_, m) =>
         Some (alias (text match group m "c2" with
                           | Some ((_ :: _) as c2) => c2
                           | _ => default [] (group m "c1")
                           end))
     | None =>
         match findall IATA_PAREN_RE "1" (chars (upper (strip raw))) with
         | [] => None
         | c :: par => Some (alias (text (List.last par c)))
         end
     end).
  pose proof (upper_strip_last raw) as Hlast.
  set (s := chars (upper (strip raw))) in *. clearbody s.
  pose proof (strict_closed_form s) as Hm.
  pose proof (strict_groups_exact s Hlast) as Hx.
  destruct (re_match IATA_STRICT_RE s) as [[rest m]|];
    [change (Some (default [] (group m "c1"), group m "c2") = strict_groups s) in Hm
    |change (None = strict_groups s) in Hm];
    rewrite <- Hm in Hx.
  - destruct (group m "c2") as [[|x c2]|].
    + by destruct Hx as [? _].
    + destruct Hx as (_ & Hcode & Hl).
      destruct (exact_shape s) as [code|]; [by rewrite (Hcode code eq_refl) | by rewrite Hl].
    + by rewrite Hx.
  - rewrite Hx. unfold findall.
    rewrite <- (findall_paren_last s 0) by (intros; lia).
    by destruct (findall_from IATA_PAREN_RE "1" 0 s).
Qed.


(** ** The airport reference index *)

Section IndexProperties.
Context (L : pylib).




Lemma manual_lookup (idx : gmap string airport) code :
  foldl add_manual idx MANUAL_AIRPORTS !! code =
  match idx !! code with
  | Some r => Some r
  | None => assoc code MANUAL_AIRPORTS
  end.
Proof.
  cbn [foldl MANUAL_AIRPORTS add_manual assoc].
  destruct (String.eqb_spec "LGP" code) as [<-|Hne].
  - case_bool_decide as Hin.
    + by destruct Hin as [r ->].
    + rewrite lookup_insert_eq. destruct (idx !! "LGP") eqn:E; [|done].
      exfalso. apply Hin. by eexists.
  - case_bool_decide; [|rewrite lookup_insert_ne by done]; by destruct (idx !! code).
Qed.


End IndexProperties.


(** ** The order on text *)

Lemma ltb_lts (a b : string) :
  String.ltb a b = true ↔ OrderedTypeEx.String_as_OT.lt a b.
Proof.
  rewrite <- OrderedTypeEx.String_as_OT.cmp_lt.
  unfold String.ltb, OrderedTypeEx.String_as_OT.cmp.
  destruct (String.compare a b); split; congruence.
Qed.

Lemma ltb_irrefl (a : string) : String.ltb a a = false.
Proof.
  destruct (String.ltb a a) eqn:E; [|done].
  apply ltb_lts in E. by apply OrderedTypeEx.String_as_OT.lt_not_eq in E.
Qed.

Lemma ltb_trans (a b c : string) :
  String.ltb a b = true → String.ltb b c = true → String.ltb a c = true.
Proof. rewrite !ltb_lts. apply OrderedTypeEx.String_as_OT.lt_trans. Qed.

Lemma ltb_total (a b : string) :
  String.ltb a b = false → String.ltb b a = false → a = b.
Proof.
  unfold String.ltb. rewrite (String.compare_antisym b a).
  destruct (String.compare a b) eqn:E; try done. intros _ _.
  by apply String.compare_eq_iff.
Qed.

Lemma ltb_empty (a : string) : String.ltb a "" = false.
Proof. by destruct a. Qed.

Lemma text_le_trans (a b c : string) : text_le a b → text_le b c → text_le a c.
Proof.
  unfold text_le. intros Hab Hbc.
  destruct (String.ltb c a) eqn:Hca; [|done].
  destruct (String.ltb a b) eqn:E.
  - by rewrite (ltb_trans c a b) in Hbc.
  - by rewrite (ltb_total a b E Hab) in Hca; rewrite Hca in Hbc.
Qed.

(** ** The stable sort *)

Section Sorting.
Context {A : Type} (key : A → string).

Lemma insert_by_perm (x : A) (l : list A) : Permutation (insert_by key x l) (x :: l).
Proof.
  induction l as [|y l IH]; [done|]. cbn.
  destruct (String.ltb (key y) (key x)); [|done].
  rewrite IH. apply perm_swap.
Qed.

Lemma sorted_by_perm (l : list A) : Permutation (sorted_by key l) l.
Proof.
  induction l as [|x l IH]; [done|]. cbn. rewrite insert_by_perm. by constructor.
Qed.

Lemma insert_by_sorted (x : A) (l : list A) :
  StronglySorted (key_le key) l → StronglySorted (key_le key) (insert_by key x l).
Proof.
  induction 1 as [|y l Hl IH Hy]; cbn; [by repeat constructor|].
  destruct (String.ltb (key y) (key x)) eqn:E.
  - constructor; [done|]. rewrite insert_by_perm. constructor; [|done].
    unfold key_le, text_le. destruct (String.ltb (key x) (key y)) eqn:E'; [|done].
    pose proof (ltb_trans _ _ _ E E') as H. by rewrite ltb_irrefl in H.
  - constructor; [by constructor|]. constructor; [exact E|].
    eapply Forall_impl; [exact Hy|]. intros z Hz. by apply (text_le_trans _ (key y)).
Qed.

Lemma sorted_by_sorted (l : list A) : StronglySorted (key_le key) (sorted_by key l).
Proof.
  induction l as [|x l IH]; [constructor|]. by apply insert_by_sorted.
Qed.

End Sorting.

(** ** Grouping by trip *)

Section Extremum.
Context {A : Type} (t : option A → bool) (l : option A → option A → bool)
  (ltb : A → A → bool).
Hypothesis t_None : t None = false.
Hypothesis l_Some : ∀ x y, l (Some x) (Some y) = ltb x y.
Hypothesis ltb_irreflexive : ∀ x, ltb x x = false.
Hypothesis ltb_transitive : ∀ x y z, ltb x y = true → ltb y z = true → ltb x z = true.

Lemma pick_same (new : option A) : pick t l new new = new.
Proof. unfold pick. by destruct (t new && _). Qed.

Lemma least_single (new : option A) : least ltb (option_list new) new.
Proof.
  destruct new as [x|]; [|done]. split; [by left|].
  intros y ->%list_elem_of_singleton. apply ltb_irreflexive.
Qed.

Lemma pick_least (xs : list A) (new cur : option A) :
  Forall (λ x, t (Some x) = true) (xs ++ option_list new) →
  least ltb xs cur → least ltb (xs ++ option_list new) (pick t l new cur).
Proof.
  intros Hv Hcur. unfold pick. destruct new as [x|]; cbn [option_list] in *.
  2:{ rewrite t_None. cbn. by rewrite app_nil_r. }
  apply Forall_app in Hv as [Hxs Hx]. apply Forall_cons in Hx as [Hx _].
  rewrite Hx. cbn [andb]. destruct cur as [m|]; cbn [least] in Hcur.
  - destruct Hcur as [Hm Hmin].
    rewrite (proj1 (Forall_forall _ _) Hxs m Hm). cbn [negb orb]. rewrite l_Some.
    destruct (ltb x m) eqn:E.
    + split; [apply elem_of_app; right; by left|].
      intros y [Hy| ->%list_elem_of_singleton]%elem_of_app; [|apply ltb_irreflexive].
      destruct (ltb y x) eqn:E'; [|done].
      pose proof (Hmin y Hy) as Hym. by rewrite (ltb_transitive _ _ _ E' E) in Hym.
    + split; [apply elem_of_app; by left|].
      intros y [Hy| ->%list_elem_of_singleton]%elem_of_app; [by apply Hmin | done].
  - subst xs. rewrite t_None. cbn. split; [by left|].
    intros y ->%list_elem_of_singleton. apply ltb_irreflexive.
Qed.

End Extremum.

Lemma assoc_None {A} (k : string) (kv : list (string * A)) :
  assoc k kv = None ↔ k ∉ map fst kv.
Proof.
  induction kv as [|[k' v] kv IH]; cbn.
  - split; [intros _ H; by apply elem_of_nil in H | done].
  - rewrite not_elem_of_cons. destruct (String.eqb_spec k' k) as [->|Hne].
    + split; [done | by intros [? _]].
    + rewrite IH. split; [by intros; split | by intros [_ ?]].
Qed.

Lemma alter_assoc_keys {A} (f : A → A) (k : string) (kv : list (string * A)) :
  map fst (alter_assoc f k kv) = map fst kv.
Proof.
  induction kv as [|[k' v] kv IH]; [done|]. cbn.
  destruct (String.eqb k' k); cbn; by rewrite ?IH.
Qed.

Lemma alter_assoc_elem {A} (f : A → A) (k0 : string) (kv : list (string * A)) k v' :
  NoDup (map fst kv) → (k, v') ∈ alter_assoc f k0 kv →
  ∃ v, (k, v) ∈ kv ∧ v' = if String.eqb k k0 then f v else v.
Proof.
  induction kv as [|[k' v] kv IH]; cbn; [by intros _ ?%elem_of_nil|].
  intros [Hk' Hnd]%NoDup_cons. destruct (String.eqb_spec k' k0) as [->|Hne].
  - intros [[= -> ->]|Hin]%elem_of_cons.
    + exists v. rewrite String.eqb_refl. split; [by left | done].
    + exists v'. split; [by right|].
      destruct (String.eqb_spec k k0) as [->|]; [|done].
      exfalso. apply Hk'. apply list_elem_of_fmap. by exists (k0, v').
  - intros [[= -> ->]|Hin]%elem_of_cons.
    + exists v. split; [by left|]. by destruct (String.eqb_spec k' k0).
    + destruct (IH Hnd Hin) as (v0 & Hv0 & ->). exists v0. split; [by right | done].
Qed.

Lemma members_app (k : string) (es : list EventSummary) (e : EventSummary) :
  members k (es ++ [e]) = members k es ++ (if decide (tripGroupKey e = k) then [e] else []).
Proof.
  unfold members. by rewrite filter_app.
Qed.

Lemma omap_snoc {A B} (f : A → option B) (l : list A) (x : A) :
  omap f (l ++ [x]) = omap f l ++ option_list (f x).
Proof. rewrite omap_app. cbn. by destruct (f x). Qed.

Lemma valid_texts (f : EventSummary → option string) (es : list EventSummary) :
  Forall (λ e, f e ≠ Some "") es → Forall (λ x, some_text (Some x) = true) (omap f es).
Proof.
  intros H. apply Forall_forall. intros x (e & He & Hx)%list_elem_of_omap.
  rewrite Forall_forall in H. specialize (H e He). cbn.
  destruct (String.eqb_spec x ""); [congruence | done].
Qed.

Lemma valid_ints (es : list EventSummary) :
  Forall (λ e, year e ≠ Some 0%Z) es → Forall (λ x, some_int (Some x) = true) (omap year es).
Proof.
  intros H. apply Forall_forall. intros x (e & He & Hx)%list_elem_of_omap.
  rewrite Forall_forall in H. specialize (H e He). cbn.
  destruct (Z.eqb_spec x 0); [congruence | done].
Qed.

Lemma members_well_formed (k : string) (es : list EventSummary) :
  Forall well_formed es → Forall well_formed (members k es).
Proof.
  intros H. apply Forall_forall. intros e [_ He]%list_elem_of_filter.
  by apply (proj1 (Forall_forall _ _) H).
Qed.

Lemma update_group_ok (es : list EventSummary) (e : EventSummary) (g : TripGroup) :
  Forall well_formed (es ++ [e]) →
  group_ok es (tripGroupKey e) g →
  group_ok (es ++ [e]) (tripGroupKey e) (update_group g e).
Proof.
  intros Hwf [Hk He Hs Hn Hy].
  assert (Hm : members (tripGroupKey e) (es ++ [e]) = members (tripGroupKey e) es ++ [e]).
  { rewrite members_app. by rewrite decide_True. }
  apply (members_well_formed (tripGroupKey e)) in Hwf. rewrite Hm in Hwf.
  split; rewrite ?Hm; cbn [update_group g_tripGroupKey g_events g_start g_end g_year].
  - done.
  - by rewrite He.
  - rewrite omap_snoc.
    apply (pick_least some_text text_lt String.ltb); try done.
    + apply ltb_irrefl.
    + apply ltb_trans.
    + rewrite <- omap_snoc. apply valid_texts.
      eapply Forall_impl; [exact Hwf|]. by intros ? (? & ? & ?).
  - rewrite omap_snoc.
    apply (pick_least some_text (λ a b, text_lt b a) (flip String.ltb)); try done.
    + intros x. apply ltb_irrefl.
    + intros x y z H1 H2. by apply (ltb_trans z y x).
    + rewrite <- omap_snoc. apply valid_texts.
      eapply Forall_impl; [exact Hwf|]. by intros ? (? & ? & ?).
  - rewrite omap_snoc.
    apply (pick_least some_int int_lt Z.ltb); try done.
    + apply Z.ltb_irrefl.
    + intros x y z. rewrite !Z.ltb_lt. lia.
    + rewrite <- omap_snoc. apply valid_ints.
      eapply Forall_impl; [exact Hwf|]. by intros ? (? & ? & ?).
Qed.

Lemma new_group_ok (es : list EventSummary) (e : EventSummary) :
  members (tripGroupKey e) es = [] →
  group_ok (es ++ [e]) (tripGroupKey e) (update_group (new_group (tripGroupKey e) e) e).
Proof.
  intros Hnone.
  assert (Hm : members (tripGroupKey e) (es ++ [e]) = [e]).
  { rewrite members_app, Hnone. by rewrite decide_True. }
  split; rewrite ?Hm; cbn [update_group new_group g_tripGroupKey g_events g_start g_end g_year].
  - done.
  - done.
  - replace (omap start [e]) with (option_list (start e)) by (cbn; by destruct (start e)).
    change (least String.ltb (option_list (start e))
              (pick some_text text_lt (start e) (start e))).
    rewrite pick_same. apply least_single, ltb_irrefl.
  - replace (omap end_ [e]) with (option_list (end_ e)) by (cbn; by destruct (end_ e)).
    change (least (flip String.ltb) (option_list (end_ e))
              (pick some_text (λ a b, text_lt b a) (end_ e) (end_ e))).
    rewrite pick_same. apply least_single. intros x. apply ltb_irrefl.
  - replace (omap year [e]) with (option_list (year e)) by (cbn; by destruct (year e)).
    change (least Z.ltb (option_list (year e))
              (pick some_int int_lt (year e) (year e))).
    rewrite pick_same. apply least_single, Z.ltb_irrefl.
Qed.

Lemma group_ok_other (es : list EventSummary) (e : EventSummary) k g :
  tripGroupKey e ≠ k → group_ok es k g → group_ok (es ++ [e]) k g.
Proof.
  intros Hne H.
  assert (members k (es ++ [e]) = members k es) as Hm.
  { rewrite members_app, decide_False by done. apply app_nil_r. }
  destruct H. by split; rewrite ?Hm.
Qed.

Lemma add_event_ok (es : list EventSummary) (e : EventSummary) groups :
  Forall well_formed (es ++ [e]) →
  groups_ok es groups → groups_ok (es ++ [e]) (add_event groups e).
Proof.
  intros Hwf (Hnd & Hg & Hin). unfold add_event.
  destruct (String.eqb_spec (tripGroupKey e) "") as [He|He].
  { split; [done|]. split.
    - intros k g Hkg. destruct (Hg k g Hkg) as (Hk & Hm & Hok).
      assert (tripGroupKey e ≠ k) by congruence.
      split; [done|]. split; [|by apply group_ok_other].
      by rewrite members_app, decide_False, app_nil_r.
    - intros e' [He'| ->%list_elem_of_singleton]%elem_of_app; [by apply Hin | done]. }
  destruct (assoc (tripGroupKey e) groups) as [g0|] eqn:Ha.
  - split; [by rewrite alter_assoc_keys|]. split.
    + intros k g' Hkg'.
      destruct (alter_assoc_elem _ _ _ _ _ Hnd Hkg') as (g & Hkg & ->).
      destruct (Hg k g Hkg) as (Hk & Hm & Hok). split; [done|].
      destruct (String.eqb_spec k (tripGroupKey e)) as [->|Hne].
      * split; [|by apply update_group_ok].
        rewrite members_app, decide_True by done. by destruct (members _ es).
      * split; [|by apply group_ok_other].
        by rewrite members_app, decide_False, app_nil_r.
    + rewrite alter_assoc_keys.
      intros e' [He'| ->%list_elem_of_singleton]%elem_of_app; [by apply Hin|].
      intros _. destruct (decide (tripGroupKey e ∈ map fst groups)) as [|Hn]; [done|].
      apply assoc_None in Hn. congruence.
  - apply assoc_None in Ha.
    assert (Hnone : members (tripGroupKey e) es = []).
    { destruct (members (tripGroupKey e) es) as [|e' m] eqn:Em; [done|].
      assert (He' : e' ∈ members (tripGroupKey e) es) by (rewrite Em; by left).
      apply list_elem_of_filter in He' as [Hk He'].
      exfalso. apply Ha. rewrite <- Hk. apply Hin; [done | congruence]. }
    split.
    { rewrite map_app. apply NoDup_app. split; [done|]. split; [|by apply NoDup_singleton].
      intros k Hk ->%list_elem_of_singleton. done. }
    split.
    + intros k g [Hkg|[= -> ->]%list_elem_of_singleton]%elem_of_app.
      * destruct (Hg k g Hkg) as (Hk & Hm & Hok).
        assert (tripGroupKey e ≠ k).
        { intros <-. apply Ha. apply list_elem_of_fmap. by exists (tripGroupKey e, g). }
        split; [done|]. split; [|by apply group_ok_other].
        by rewrite members_app, decide_False, app_nil_r.
      * split; [done|]. split; [|by apply new_group_ok].
        by rewrite members_app, Hnone, decide_True.
    + rewrite map_app.
      intros e' [He'| ->%list_elem_of_singleton]%elem_of_app Hk; apply elem_of_app.
      * left. by apply Hin.
      * right. by left.
Qed.

Lemma foldl_add_event_ok (events : list EventSummary) :
  Forall well_formed events → groups_ok events (foldl add_event [] events).
Proof.
  induction events as [|e es IH] using rev_ind; intros Hwf.
  - split; [constructor|]. split; [by intros ?? ?%elem_of_nil | by intros ? ?%elem_of_nil].
  - rewrite foldl_snoc. apply add_event_ok; [done|].
    apply IH. by apply Forall_app in Hwf as [? _].
Qed.

Lemma key_le_absent_first (a b : option string) :
  a ≠ Some "" → text_le (default "" a) (default "" b) → absent_first a b.
Proof.
  destruct a as [x|], b as [y|]; cbn; try done.
  intros Hx. unfold text_le. destruct x; [done|]. discriminate.
Qed.

Lemma StronglySorted_weaken {A} (R R' : A → A → Prop) (l : list A) :
  (∀ x y, x ∈ l → R x y → R' x y) → StronglySorted R l → StronglySorted R' l.
Proof.
  intros H Hs. induction Hs as [|x l Hl IH Hx]; constructor.
  - apply IH. intros y z Hy. apply H. by right.
  - eapply Forall_impl; [exact Hx|]. intros y. apply H. by left.
Qed.

Lemma least_start_not_empty (es : list EventSummary) (r : option string) :
  Forall well_formed es → least String.ltb (omap start es) r → r ≠ Some "".
Proof.
  intros Hwf Hl ->. destruct Hl as [(e & He & Hs)%list_elem_of_omap _].
  rewrite Forall_forall in Hwf. by destruct (Hwf e He) as (? & _).
Qed.

Lemma trip_groups_two (events : list EventSummary) e1 e2 k s1 s2 :
  events = [e1; e2] ∨ events = [e2; e1] →
  k ≠ "" → tripGroupKey e1 = k → tripGroupKey e2 = k →
  start e1 = Some ("2024-01-01" +:+ s1) → start e2 = Some ("2024-01-05" +:+ s2) →
  ∃ g, trip_groups events = [g] ∧ g_start g = start e1 ∧ g_events g = [e1; e2].
Proof.
  intros Hev Hk Hk1 Hk2 Hs1 Hs2.
  assert (Hlt : String.ltb ("2024-01-01" +:+ s1) ("2024-01-05" +:+ s2) = true) by done.
  assert (Hgt : String.ltb ("2024-01-05" +:+ s2) ("2024-01-01" +:+ s1) = false) by done.
  assert (Hne : ∀ s, String.eqb ("2024-01-01" +:+ s) "" = false) by done.
  assert (Hne5 : ∀ s, String.eqb ("2024-01-05" +:+ s) "" = false) by done.
  apply String.eqb_neq in Hk.
  destruct e1 as [k1 n1 tk1 ti1 ty1 y1 st1 en1 c1], e2 as [k2 n2 tk2 ti2 ty2 y2 st2 en2 c2].
  cbn in Hk1, Hk2, Hs1, Hs2. subst k1 k2 st1 st2.
  destruct Hev as [-> | ->]; eexists;
    unfold trip_groups, add_event, sort_inside, update_group, new_group, start_key,
      text_lt, some_text;
    repeat (progress (cbn -[String.eqb String.ltb String.append];
                      rewrite ?Hk, ?String.eqb_refl, ?Hlt, ?Hgt, ?Hne, ?Hne5, ?ltb_irrefl));
    done.
Qed.

(** C8. The output assembler: one trip group per group key, holding the
    events of that key; the group's start is the least and its end the
    greatest of its members' starts and ends and its year the least of their
    years; the members of a group, and the groups themselves, are in
    ascending order of start, an absent start first; two summaries that
    start with "2024-01-01" and "2024-01-05" under one key give a group that
    starts at the earlier value with the earlier member first. *)
Theorem trip_groups_spec (events : list EventSummary) :
  Forall well_formed events →
  NoDup (map g_tripGroupKey (trip_groups events))
  ∧ (∀ e, e ∈ events → tripGroupKey e ≠ "" →
       ∃ g, g ∈ trip_groups events ∧ g_tripGroupKey g = tripGroupKey e)
  ∧ (∀ g, g ∈ trip_groups events →
       let ms := members (g_tripGroupKey g) events in
       g_tripGroupKey g ≠ "" ∧ ms ≠ []
       ∧ g_events g = sorted_by start_key ms
       ∧ Permutation (g_events g) ms
       ∧ StronglySorted (λ a b, absent_first (start a) (start b)) (g_events g)
       ∧ least String.ltb (omap start ms) (g_start g)
       ∧ least (flip String.ltb) (omap end_ ms) (g_end g)
       ∧ least Z.ltb (omap year ms) (g_year g))
  ∧ StronglySorted (λ a b, absent_first (g_start a) (g_start b)) (trip_groups events)
  ∧ (∀ e1 e2 k s1 s2,
       events = [e1; e2] ∨ events = [e2; e1] →
       k ≠ "" → tripGroupKey e1 = k → tripGroupKey e2 = k →
       start e1 = Some ("2024-01-01" +:+ s1) → start e2 = Some ("2024-01-05" +:+ s2) →
       ∃ g, trip_groups events = [g] ∧ g_start g = start e1 ∧ g_events g = [e1; e2]).
Proof.
  intros Hwf. pose proof (foldl_add_event_ok events Hwf) as (Hnd & Hg & Hin).
  unfold trip_groups. set (groups := foldl add_event [] events) in *.
  set (tg := map sort_inside (map snd groups)).
  pose proof (sorted_by_perm group_start_key tg) as Hperm.
  assert (Hkeys : map g_tripGroupKey tg = map fst groups).
  { subst tg. rewrite !map_map. apply map_ext_in. intros [k g] Hkg%list_elem_of_In.
    cbn. by destruct (Hg k g Hkg) as (_ & _ & [-> _ _ _ _]). }
  assert (Htg : ∀ g, g ∈ sorted_by group_start_key tg →
            ∃ k g0, (k, g0) ∈ groups ∧ g = sort_inside g0).
  { intros g Hgin. rewrite Hperm in Hgin. subst tg.
    apply list_elem_of_fmap in Hgin as (g0 & -> & Hg0).
    apply list_elem_of_fmap in Hg0 as ([k g1] & -> & Hg1). by exists k, g1. }
  split; [|split; [|split; [|split]]].
  - rewrite Hperm, Hkeys. done.
  - intros e He Hk. specialize (Hin e He Hk). rewrite <- Hkeys in Hin.
    apply list_elem_of_fmap in Hin as (g & Heq & Hgin). exists g.
    split; [by rewrite Hperm | done].
  - intros g (k & g0 & Hkg & ->)%Htg. destruct (Hg k g0 Hkg) as (Hk & Hm & [Hkey Hev Hs He Hy]).
    cbn [sort_inside g_tripGroupKey g_events g_start g_end g_year]. rewrite Hkey, Hev.
    repeat split; try done.
    + apply sorted_by_perm.
    + eapply StronglySorted_weaken; [|apply sorted_by_sorted].
      intros x y Hx. apply key_le_absent_first.
      rewrite sorted_by_perm in Hx. apply list_elem_of_filter in Hx as [_ Hx].
      rewrite Forall_forall in Hwf. by destruct (Hwf x Hx) as (? & _).
  - eapply StronglySorted_weaken; [|apply sorted_by_sorted].
    intros x y (k & g0 & Hkg & ->)%Htg. apply key_le_absent_first.
    destruct (Hg k g0 Hkg) as (_ & _ & [_ _ Hs _ _]). cbn.
    eapply least_start_not_empty; [|exact Hs]. by apply members_well_formed.
  - intros e1 e2 k s1 s2. apply trip_groups_two.
Qed.

(** ** The segment resolver *)

Lemma bind_Ok {A B} (f : A → result B) (m : result A) (b : B) :
  m ≫= f = Ok b → ∃ a, m = Ok a ∧ f a = Ok b.
Proof. destruct m as [a|e]; [by exists a | discriminate]. Qed.

Tactic Notation "bind_inv" hyp(H) "as" ident(x) ident(Hx) :=
  apply bind_Ok in H as (x & Hx & H).

Lemma for_each_rel {S A B} (body : S → A → result S) (f : A → list B)
    (R : S → S → list B → Prop) :
  (∀ s, R s s []) →
  (∀ s1 s2 s3 l1 l2, R s1 s2 l1 → R s2 s3 l2 → R s1 s3 (l1 ++ l2)) →
  (∀ s x s', body s x = Ok s' → R s s' (f x)) →
  ∀ xs s s', for_each body xs s = Ok s' → R s s' (concat (map f xs)).
Proof.
  intros Hrefl Htrans Hbody xs. induction xs as [|x xs IH]; intros s s' H; cbn in *.
  - injection H as <-. apply Hrefl.
  - bind_inv H as s1 H1. eapply Htrans; [by apply Hbody | by apply IH].
Qed.

Section ResolverProperties.
Context (L : pylib) (airport_index : gmap string airport).

Lemma grows_refl gk name key t st : grows L airport_index gk name key t st st [].
Proof. split; [cbn; lia|]. exists []. split; [by rewrite app_nil_r | constructor]. Qed.

Lemma grows_trans gk name key t s1 s2 s3 l1 l2 :
  grows L airport_index gk name key t s1 s2 l1 → grows L airport_index gk name key t s2 s3 l2 →
  grows L airport_index gk name key t s1 s3 (l1 ++ l2).
Proof.
  intros (Hc1 & n1 & Hs1 & Hf1) (Hc2 & n2 & Hs2 & Hf2). split.
  - rewrite length_app. lia.
  - exists (n1 ++ n2). split; [by rewrite Hs2, Hs1, app_assoc|].
    rewrite filter_app. by apply Forall2_app.
Qed.

Lemma process_segment_grows gk name key t st seg st' :
  process_segment L airport_index gk name key t st seg = Ok st' → grows L airport_index gk name key t st st' [seg].
Proof.
  unfold process_segment. intros H.
  bind_inv H as departureDate H1. bind_inv H as departureTimeZoneID H2. bind_inv H as dep_dt H3.
  bind_inv H as arrivalDate H4. bind_inv H as arrivalTimeZoneID H5. bind_inv H as arr_dt H6.
  bind_inv H as start_dt H7. bind_inv H as end_dt H8. bind_inv H as r Hr.
  split.
  - destruct r as [[[[? ?] ?] [[? ?] ?]]|]; injection H as <-; cbn; lia.
  - rewrite filter_cons, filter_nil. unfold resolvable. rewrite Hr.
    destruct r as [[[[dla dlo] dlab] [[ala alo] alab]]|]; injection H as <-; cbn [segments].
    + rewrite decide_True by done. eexists. split; [reflexivity|].
      constructor; [|constructor]. by exists dla, dlo, dlab, ala, alo, alab.
    + rewrite decide_False by done. exists []. split; [by rewrite app_nil_r | constructor].
Qed.

Lemma items_Ok (v : result json) (x : json) (l : list json) :
  v = Ok x → py_iter (x ||| JArr []) = Ok l → items v = l.
Proof. intros -> H. unfold items. cbn. by rewrite H. Qed.

Lemma process_leg_grows gk name key t st leg st' :
  process_leg L airport_index gk name key t st leg = Ok st' → grows L airport_index gk name key t st st' (leg_segments leg).
Proof.
  unfold process_leg. intros H.
  bind_inv H as v Hv. bind_inv H as l Hl.
  unfold leg_segments. rewrite (items_Ok _ _ _ Hv Hl).
  apply (for_each_rel _ (λ seg, [seg]) (grows L airport_index gk name key t)) in H.
  - replace (concat (map (λ seg, [seg]) l)) with l in H; [done|].
    clear. induction l as [|x l IH]; [done|]. cbn. by rewrite <- IH.
  - apply grows_refl.
  - apply grows_trans.
  - apply process_segment_grows.
Qed.

(** An event that does not take the lodging shortcut: a record for each
    raw segment that resolves, and a summary when there is a raw segment,
    resolved or not. *)
Lemma process_event_transport stem gk name segs evs ev_i ev segs' evs' :
  process_event L airport_index stem gk name (segs, evs) (ev_i, ev) = Ok (segs', evs') →
  lodging_shortcut (event_type ev) ev = Ok false →
  let key := event_key L stem ev_i ev in
  (∃ new, segs' = segs ++ new
     ∧ Forall2 (emitted L airport_index gk name key (py_str L (event_type ev)))
         (filter (λ seg, resolvable L airport_index seg = true) (raw_segments ev)) new)
  ∧ match raw_segments ev with
    | [] => evs' = evs
    | _ :: _ => ∃ s, evs' = evs ++ [s] ∧ summary_of gk name key segs' s
                  ∧ type_ s = py_str L (event_type ev)
    end.
Proof.
  intros H Hshort key. unfold process_event in H.
  bind_inv H as UIDescription H1. bind_inv H as id H2.
  assert (Ht : event_type ev = UIDescription ||| JStr "Other")
    by (unfold event_type; by rewrite H1).
  assert (Hkey : key = stem +:+ ":" +:+ py_str L id)
    by (unfold key, event_key; by rewrite H2).
  rewrite <- Ht, <- Hkey in H. rewrite Hshort in H. cbn [mbind result_bind] in H.
  bind_inv H as v Hv. bind_inv H as legs Hlegs. bind_inv H as st Hst.
  apply (for_each_rel _ leg_segments (grows L airport_index gk name key (py_str L (event_type ev)))) in Hst;
    [|apply grows_refl|apply grows_trans|apply process_leg_grows].
  replace (concat (map leg_segments legs)) with (raw_segments ev) in Hst
    by (unfold raw_segments; by rewrite (items_Ok _ _ _ Hv Hlegs)).
  destruct Hst as (Hcount & new & Hsegs & Hnew). cbn [segments seg_count] in Hcount, Hsegs.
  destruct (raw_segments ev) as [|seg raws] eqn:Eraw.
  - cbn in Hcount. rewrite Hcount in H. cbn in H. injection H as <- <-.
    split; [by exists new | done].
  - assert ((0 <? seg_count st)%nat = true) as Hpos
      by (apply Nat.ltb_lt; rewrite Hcount; cbn; lia).
    rewrite Hpos in H. bind_inv H as start_iso Hs. bind_inv H as end_iso He.
    injection H as <- <-. split; [by exists new|].
    eexists. split; [reflexivity|]. by repeat split.
Qed.

(** An event that takes the lodging shortcut: one summary, counting no
    segment, and no record. *)
Lemma process_event_lodging stem gk name segs evs ev_i ev segs' evs' :
  process_event L airport_index stem gk name (segs, evs) (ev_i, ev) = Ok (segs', evs') →
  lodging_shortcut (event_type ev) ev = Ok true →
  segs' = segs
  ∧ ∃ s, evs' = evs ++ [s] ∧ tripGroupKey s = gk ∧ tripName s = name
      ∧ tripKey s = event_key L stem ev_i ev ∧ type_ s = "Hotel" ∧ segmentCount s = 0%nat.
Proof.
  intros H Hshort. unfold process_event in H.
  bind_inv H as UIDescription H1. bind_inv H as id H2.
  assert (Ht : event_type ev = UIDescription ||| JStr "Other")
    by (unfold event_type; by rewrite H1).
  rewrite <- Ht in H. rewrite Hshort in H. cbn [mbind result_bind] in H.
  bind_inv H as address Ha. bind_inv H as latitude Hlat. bind_inv H as lat Hla.
  bind_inv H as longitude Hlon. bind_inv H as lon Hlo. bind_inv H as locationName Hn.
  bind_inv H as rawAddress Hr. bind_inv H as venueStartDate Hvs. bind_inv H as start Hst.
  bind_inv H as venueEndDate Hve. bind_inv H as end_ Hen. bind_inv H as start_iso Hsi.
  bind_inv H as end_iso Hei. injection H as <- <-.
  split; [done|]. eexists. split; [reflexivity|].
  repeat split. unfold event_key. by rewrite H2.
Qed.

End ResolverProperties.

Section EndpointProperties.
Context (L : pylib) (airport_index : gmap string airport).

Lemma get_Ok (v : json) (k : string) (x : json) : py_get v k = Ok x → get v k = x.
Proof. unfold get. by intros ->. Qed.

Lemma coords_from_address_spec (addr : json) lat lon raw :
  coords_from_address L addr = Ok (lat, lon, raw) →
  (addr = JObj [] ∨ truthy addr = true) →
  raw = address_raw L addr
  ∧ (lat, lon) = match direct_coords L addr with
                 | Some (la, lo) => (Some la, Some lo)
                 | None => (None, None)
                 end.
Proof.
  unfold coords_from_address, address_raw, direct_coords. intros H [-> | Ht].
  { injection H as <- <- <-. split; reflexivity. }
  rewrite Ht in H. cbn [negb] in H.
  bind_inv H as la H1. bind_inv H as lo H2. bind_inv H as r H3.
  rewrite (get_Ok _ _ _ H1), (get_Ok _ _ _ H2), (get_Ok _ _ _ H3).
  destruct (is_none la), (is_none lo); cbn [negb andb orb] in *;
    try (by injection H as <- <- <-).
  destruct (py_float L la) as [x|]; cbn in H; [|by injection H as <- <- <-].
  destruct (py_float L lo) as [y|]; cbn in H; by injection H as <- <- <-.
Qed.






Lemma py_or_truthy (a b : json) : truthy b = true → truthy (a ||| b) = true.
Proof. unfold py_or. by destruct (truthy a) eqn:E. Qed.

Lemma or_empty_dict (v : json) : v ||| JObj [] = JObj [] ∨ truthy (v ||| JObj []) = true.
Proof. unfold py_or. destruct (truthy v) eqn:E; [by right | by left]. Qed.




End EndpointProperties.

(** ** The claims *)

Section ClaimProperties.
Context (L : pylib) (airport_index : gmap string airport).

Lemma count_key_app (segs new : list SegmentRecord) (key : string) :
  Forall (λ r, trip_key r = key) new →
  count_key (segs ++ new) key = (count_key segs key + length new)%nat.
Proof.
  intros H. unfold count_key. rewrite filter_app, length_app. f_equal.
  induction H as [|r new Hr _ IH]; [done|].
  rewrite filter_cons, decide_True by done. cbn. by rewrite IH.
Qed.


(** C1, as the code has it. For an event that does not take the lodging
    shortcut, a summary is emitted if and only if the event has a raw
    segment, whether or not a segment survives coordinate resolution: with
    a raw segment, one summary, whose segment count is the number of records
    with the event's trip key; with none, no summary and no record. The
    records added are as many as the raw segments that resolve. *)
Theorem summary_iff_raw_segment stem gk name segs evs ev_i ev segs' evs' :
  process_event L airport_index stem gk name (segs, evs) (ev_i, ev) = Ok (segs', evs') →
  lodging_shortcut (event_type ev) ev = Ok false →
  let key := event_key L stem ev_i ev in
  (raw_segments ev ≠ [] →
     ∃ s, evs' = evs ++ [s] ∧ tripGroupKey s = gk ∧ tripKey s = key
          ∧ segmentCount s = count_key segs' key)
  ∧ (raw_segments ev = [] → evs' = evs ∧ segs' = segs)
  ∧ length segs' = (length segs
      + length (filter (λ seg, resolvable L airport_index seg = true) (raw_segments ev)))%nat.
Proof.
  intros H Hs key.
  destruct (process_event_transport _ _ _ _ _ _ _ _ _ _ _ H Hs) as [(new & -> & Hnew) Hev].
  fold key in Hev, Hnew. split; [|split].
  - intros Hne. destruct (raw_segments ev); [done|].
    destruct Hev as (s & -> & (? & ? & ? & ?) & _). by exists s.
  - intros Hnil. rewrite Hnil in Hev, Hnew. split; [done|].
    rewrite filter_nil in Hnew. apply Forall2_nil_inv_l in Hnew as ->. by rewrite app_nil_r.
  - rewrite length_app. f_equal. symmetry. by eapply Forall2_length.
Qed.





End ClaimProperties.

(** ** The claims on sample documents *)

(** C1 fails as stated: a transport event whose only segment does not
    resolve still gets a summary, counting no segment. *)
Lemma unresolved_event_is_summarized :
  lodging_shortcut (event_type train_event) train_event = Ok false
  ∧ raw_segments train_event = [seg_unresolved]
  ∧ resolvable demo_lib demo_index seg_unresolved = false
  ∧ collect_segments demo_lib demo_index [file_of "trip" [train_event]]
    = Ok ([], [summary_T1 "trip:0" (JStr "Train trip") "Train"
                 (Some "2024-02-01T07:00:00") 0]).
Proof. repeat split; vm_compute; reflexivity. Qed.

Lemma summary_iff_raw_segment_witness :
  ∃ segs' evs',
    process_event demo_lib demo_index "trip" "T1" "trip" ([], []) (0%nat, train_event)
    = Ok (segs', evs')
    ∧ lodging_shortcut (event_type train_event) train_event = Ok false
    ∧ (raw_segments train_event ≠ [] →
         ∃ s, evs' = [] ++ [s] ∧ tripGroupKey s = "T1"
              ∧ tripKey s = event_key demo_lib "trip" 0 train_event
              ∧ segmentCount s
                = count_key segs' (event_key demo_lib "trip" 0 train_event)).
Proof.
  eexists _, _. split; [vm_compute; reflexivity|]. split; [vm_compute; reflexivity|].
  refine (proj1 (summary_iff_raw_segment demo_lib demo_index "trip" "T1" "trip" [] []
                   0 train_event _ _ _ _)); vm_compute; reflexivity.
Defined.






Lemma trip_groups_spec_witness :
  Forall well_formed demo_events
  ∧ NoDup (map g_tripGroupKey (trip_groups demo_events))
  ∧ (g_start <$> trip_groups demo_events) = [Some "2024-01-01T09:00:00"]
  ∧ (map tripKey <$> (g_events <$> trip_groups demo_events))
    = [["trip:2"; "trip:0"; "trip:1"]].
Proof.
  assert (Hwf : Forall well_formed demo_events)
    by (repeat constructor; discriminate).
  split; [exact Hwf|]. split; [exact (proj1 (trip_groups_spec demo_events Hwf))|].
  split; vm_compute; reflexivity.
Defined.

(** C9 fails on the code, whose record type says of the trip key that it is
    unique per event: the positional index that stands in for a missing id
    collides with the id 0 of the next event. Two events, one trip key; the
    record of each matches both summaries, and the second summary counts the
    record of the first event too. *)
Lemma trip_keys_collide :
  match collect_segments demo_lib demo_index
          [file_of "trip" [event_of "Flight" [seg_resolved]; event_with_id_0]] with
  | Ok (segs, evs) => Some (map trip_key segs, map tripKey evs, map segmentCount evs)
  | Raise _ => None
  end
  = Some (["trip:0"; "trip:0"], ["trip:0"; "trip:0"], [1; 2]%nat).
Proof. vm_compute. reflexivity. Qed.

(** ** Timestamps *)

#[local] Transparent Ascii.eqb.

Lemma digit_cases (c : ascii) :
  is_digit c = true →
  c ∈ ["0"; "1"; "2"; "3"; "4"; "5"; "6"; "7"; "8"; "9"]%char.
Proof.
  destruct c as [[] [] [] [] [] [] [] []]; try discriminate; intros _;
    repeat (first [by left | right]).
Qed.

Lemma digit_not_space (c : ascii) : is_digit c = true → is_space c = false.
Proof. intros H%digit_cases. repeat (apply elem_of_cons in H as [->|H]; [done|]).
  by apply elem_of_nil in H. Qed.

(** A group that matches the prefix [pre] hands the rest to what follows. *)
Lemma rmatch_group {R} (name : string) (r : regex) (pre rest : list ascii)
    (caps : captures) (k : list ascii → captures → option R) (x : R) :
  (∀ k', k' rest caps = Some x → rmatch r (pre ++ rest) caps k' = Some x) →
  k rest ((name, pre) :: caps) = Some x →
  rmatch (RGroup name r) (pre ++ rest) caps k = Some x.
Proof. intros Hr Hk. cbn [rmatch]. apply Hr. by rewrite take_consumed. Qed.

Ltac each_digit H :=
  apply digit_cases in H;
  repeat (apply elem_of_cons in H as [->|H]); [..|by apply elem_of_nil in H].

Ltac two_digits H1 H2 Hk :=
  each_digit H1; each_digit H2;
  first [ by (cbn; rewrite Hk) | by (exfalso; vm_compute in *; intuition congruence) ].

Lemma dir_m_two {R} c1 c2 rest caps (k : list ascii → captures → option R) x :
  is_digit c1 = true → is_digit c2 = true → (1 ≤ val2 c1 c2 ≤ 12)%Z →
  k rest (("m", [c1; c2]) :: caps) = Some x →
  rmatch dir_m (c1 :: c2 :: rest) caps k = Some x.
Proof.
  intros H1 H2 Hv Hk. apply (rmatch_group "m" _ [c1; c2]); [|done].
  clear Hk. intros k' Hk. two_digits H1 H2 Hk.
Qed.

Lemma dir_d_two {R} c1 c2 rest caps (k : list ascii → captures → option R) x :
  is_digit c1 = true → is_digit c2 = true → (1 ≤ val2 c1 c2 ≤ 31)%Z →
  k rest (("d", [c1; c2]) :: caps) = Some x →
  rmatch dir_d (c1 :: c2 :: rest) caps k = Some x.
Proof.
  intros H1 H2 Hv Hk. apply (rmatch_group "d" _ [c1; c2]); [|done].
  clear Hk. intros k' Hk. two_digits H1 H2 Hk.
Qed.

Lemma dir_H_two {R} c1 c2 rest caps (k : list ascii → captures → option R) x :
  is_digit c1 = true → is_digit c2 = true → (val2 c1 c2 ≤ 23)%Z →
  k rest (("H", [c1; c2]) :: caps) = Some x →
  rmatch dir_H (c1 :: c2 :: rest) caps k = Some x.
Proof.
  intros H1 H2 Hv Hk. apply (rmatch_group "H" _ [c1; c2]); [|done].
  clear Hk. intros k' Hk. two_digits H1 H2 Hk.
Qed.

Lemma dir_M_two {R} c1 c2 rest caps (k : list ascii → captures → option R) x :
  is_digit c1 = true → is_digit c2 = true → (val2 c1 c2 ≤ 59)%Z →
  k rest (("M", [c1; c2]) :: caps) = Some x →
  rmatch dir_M (c1 :: c2 :: rest) caps k = Some x.
Proof.
  intros H1 H2 Hv Hk. apply (rmatch_group "M" _ [c1; c2]); [|done].
  clear Hk. intros k' Hk. two_digits H1 H2 Hk.
Qed.

Lemma dir_S_two {R} c1 c2 rest caps (k : list ascii → captures → option R) x :
  is_digit c1 = true → is_digit c2 = true → (val2 c1 c2 ≤ 59)%Z →
  k rest (("S", [c1; c2]) :: caps) = Some x →
  rmatch dir_S (c1 :: c2 :: rest) caps k = Some x.
Proof.
  intros H1 H2 Hv Hk. apply (rmatch_group "S" _ [c1; c2]); [|done].
  clear Hk. intros k' Hk. two_digits H1 H2 Hk.
Qed.

Lemma dir_Y_four {R} c1 c2 c3 c4 rest caps (k : list ascii → captures → option R) x :
  is_digit c1 = true → is_digit c2 = true → is_digit c3 = true → is_digit c4 = true →
  k rest (("Y", [c1; c2; c3; c4]) :: caps) = Some x →
  rmatch dir_Y (c1 :: c2 :: c3 :: c4 :: rest) caps k = Some x.
Proof.
  intros H1 H2 H3 H4 Hk. apply (rmatch_group "Y" _ [c1; c2; c3; c4]); [|done].
  clear Hk. intros k' Hk. cbn. unfold d_. by rewrite H1, H2, H3, H4.
Qed.

Lemma dir_f_six {R} c1 c2 c3 c4 c5 c6 caps (k : list ascii → captures → option R) x :
  Forall (λ c, is_digit c = true) [c1; c2; c3; c4; c5; c6] →
  k [] (("f", [c1; c2; c3; c4; c5; c6]) :: caps) = Some x →
  rmatch dir_f [c1; c2; c3; c4; c5; c6] caps k = Some x.
Proof.
  intros Hd Hk.
  rewrite <- (app_nil_r [c1; c2; c3; c4; c5; c6]).
  apply (rmatch_group "f" _ [c1; c2; c3; c4; c5; c6]); [|done].
  clear Hk. intros k' Hk. cbn.
  repeat (apply Forall_cons in Hd as [-> Hd]). cbn. by rewrite Hk.
Qed.

Lemma blank_one {R} (c : ascii) rest caps (k : list ascii → captures → option R) x :
  is_space c = false → k (c :: rest) caps = Some x →
  rmatch blank (" "%char :: c :: rest) caps k = Some x.
Proof. intros Hc Hk. cbn. rewrite Hc. cbn. by rewrite Hk. Qed.

Lemma lit_one {R} (c : ascii) rest caps (k : list ascii → captures → option R) :
  rmatch (lit c) (c :: rest) caps k = k rest caps.
Proof. cbn. by rewrite Ascii.eqb_refl. Qed.

(** A match fails when what follows fails on every suffix of the text. *)
Lemma rep_fails {R} p lo hi (s : list ascii) (k : list ascii → option R) :
  (∀ s', s' `suffix_of` s → k s' = None) → rep p lo hi s k = None.
Proof.
  revert lo hi. induction s as [|c s IH]; intros lo hi Hk; cbn.
  - destruct lo; [by apply Hk|done].
  - assert (k (c :: s) = None) as Hc by (by apply Hk).
    rewrite IH by (intros s' Hs'; apply Hk; by apply suffix_cons_r).
    destruct (p c && room hi); destruct lo; done.
Qed.

Lemma rmatch_fails {R} (r : regex) (s : list ascii) caps
    (k : list ascii → captures → option R) :
  (∀ s' caps', s' `suffix_of` s → k s' caps' = None) → rmatch r s caps k = None.
Proof.
  revert s caps k. induction r as [p|r1 IH1 r2 IH2|r1 IH1 r2 IH2|p lo hi|r IH|name r IH|];
    intros s caps k Hk; cbn [rmatch].
  - destruct s as [|c s]; [done|]. destruct (p c); [|done].
    apply Hk. by apply suffix_cons_r.
  - apply IH1. intros s' caps' Hs'. apply IH2. intros s'' caps'' Hs''.
    apply Hk. by etrans.
  - by rewrite IH1, IH2.
  - apply rep_fails. intros s' Hs'. by apply Hk.
  - rewrite IH by done. by apply Hk.
  - apply IH. intros s' caps' Hs'. by apply Hk.
  - destruct s as [|c [|c' s]]; [by apply Hk| |done].
    destruct (Ascii.eqb c "010"); [by apply Hk | done].
Qed.

(** Texts of the exact forms are accepted. *)
Section ExactForm.
Variables y1 y2 y3 y4 m1 m2 d1 d2 h1 h2 n1 n2 s1 s2 f1 f2 f3 f4 f5 f6 : ascii.

#[local] Notation "'seconds_text'" :=
  (seconds_form y1 y2 y3 y4 m1 m2 d1 d2 h1 h2 n1 n2 s1 s2).
#[local] Notation "'fraction_text'" :=
  (fraction_form y1 y2 y3 y4 m1 m2 d1 d2 h1 h2 n1 n2 s1 s2 f1 f2 f3 f4 f5 f6).
#[local] Notation "'groups_of_text'" :=
  (seconds_groups y1 y2 y3 y4 m1 m2 d1 d2 h1 h2 n1 n2 s1 s2).
#[local] Notation "'value'" := (denoted y1 y2 y3 y4 m1 m2 d1 d2 h1 h2 n1 n2 s1 s2).

Hypothesis Hvalid :
  valid_form y1 y2 y3 y4 m1 m2 d1 d2 h1 h2 n1 n2 s1 s2 f1 f2 f3 f4 f5 f6.

Lemma days_in_month_le (y m : Z) : (days_in_month y m ≤ 31)%Z.
Proof. unfold days_in_month. repeat case_match; lia. Qed.

Lemma match_seconds {R} (rest : list ascii) (k : list ascii → captures → option R) x :
  k rest groups_of_text = Some x →
  rmatch FMT_SECONDS (seconds_text ++ rest) [] k = Some x.
Proof.
  destruct Hvalid as (Hd & Hy & Hm & Hday & Hh & Hn & Hs).
  repeat (apply Forall_cons in Hd as [? Hd]).
  pose proof (days_in_month_le (int_of_digits [y1; y2; y3; y4]) (val2 m1 m2)).
  intros Hk. unfold FMT_SECONDS, seconds_form. cbn [seqs app rmatch].
  apply dir_Y_four; try done. rewrite lit_one.
  apply dir_m_two; try done. rewrite lit_one.
  apply dir_d_two; try done; [lia|].
  apply blank_one; [by apply digit_not_space|].
  apply dir_H_two; try done. rewrite lit_one.
  apply dir_M_two; try done. rewrite lit_one.
  by apply dir_S_two.
Qed.

Lemma filter_digits (l : list ascii) :
  Forall (λ c, is_digit c = true) l → filter (λ c, is_digit c = true) l = l.
Proof.
  induction 1 as [|c l Hc _ IH]; [done|]. by rewrite filter_cons, decide_True, IH.
Qed.

Lemma strptime_seconds : strptime FMT_SECONDS (text seconds_text) = Some (value 0).
Proof.
  unfold strptime, re_match. rewrite chars_text.
  rewrite <- (app_nil_r seconds_text) at 1.
  rewrite (match_seconds [] _ ([], groups_of_text)) by done.
  destruct Hvalid as (Hd & Hy & Hm & Hday & Hh & Hn & Hs).
  repeat (apply Forall_cons in Hd as [? Hd]).
  unfold int_group, seconds_groups. cbn [group String.eqb Ascii.eqb Bool.eqb default].
  rewrite !filter_digits by (repeat constructor; done). unfold id.
  fold (val2 m1 m2) (val2 d1 d2) (val2 h1 h2) (val2 n1 n2) (val2 s1 s2).
  cbn [dt_year dt_month dt_day dt_second].
  rewrite (proj2 (Z.leb_le _ _) Hy), (proj2 (Z.leb_le _ _) (proj2 Hday)),
    (proj2 (Z.leb_le _ _) Hs).
  reflexivity.
Qed.

Lemma strptime_fraction :
  strptime DATE_FMT (text fraction_text)
  = Some (value (int_of_digits [f1; f2; f3; f4; f5; f6])).
Proof.
  unfold strptime, re_match. rewrite chars_text.
  unfold DATE_FMT, fraction_form. cbn [seqs rmatch].
  rewrite (match_seconds _ _ ([], ("f", [f1; f2; f3; f4; f5; f6]) :: groups_of_text)).
  2:{ rewrite lit_one. apply dir_f_six; [|done].
      destruct Hvalid as (Hd & _). by do 14 apply Forall_cons in Hd as [_ Hd]. }
  destruct Hvalid as (Hd & Hy & Hm & Hday & Hh & Hn & Hs).
  repeat (apply Forall_cons in Hd as [? Hd]).
  unfold int_group, seconds_groups. cbn [group String.eqb Ascii.eqb Bool.eqb default].
  rewrite !filter_digits by (repeat constructor; done). unfold id.
  fold (val2 m1 m2) (val2 d1 d2) (val2 h1 h2) (val2 n1 n2) (val2 s1 s2).
  cbn [dt_year dt_month dt_day dt_second length Nat.sub replicate app].
  rewrite (proj2 (Z.leb_le _ _) Hy), (proj2 (Z.leb_le _ _) (proj2 Hday)),
    (proj2 (Z.leb_le _ _) Hs).
  reflexivity.
Qed.

(** The pattern with a fraction does not match the text without one. *)
Lemma strptime_no_fraction : strptime DATE_FMT (text seconds_text) = None.
Proof.
  unfold strptime, re_match. rewrite chars_text.
  unfold DATE_FMT. cbn [seqs rmatch]. rewrite rmatch_fails; [done|].
  intros s' caps' Hs'.
  destruct s' as [|c s']; [done|]. unfold lit. cbn [rmatch].
  assert (Hc : c ∈ seconds_text).
  { destruct Hs' as [pre ->]. apply elem_of_app. right. by left. }
  destruct Hvalid as (Hd & _). repeat (apply Forall_cons in Hd as [? Hd]).
  assert (Hnd : ∀ x, is_digit x = true → Ascii.eqb "." x = false).
  { intros x Hx. destruct (Ascii.eqb_spec "." x) as [<-|]; [discriminate|done]. }
  assert (Ascii.eqb "." c = false) as ->; [|done].
  unfold seconds_form in Hc.
  repeat (apply elem_of_cons in Hc as [->|Hc]; [first [by apply Hnd | done]|]).
  by apply elem_of_nil in Hc.
Qed.

End ExactForm.

Lemma strip_trimmed (c c' : ascii) (l : list ascii) :
  is_space c = false → is_space c' = false →
  strip (text (c :: l ++ [c'])) = text (c :: l ++ [c']).
Proof.
  intros Hc Hc'. unfold strip, rstrip. rewrite chars_text. cbn [lstrip]. rewrite Hc.
  change (c :: l ++ [c']) with ((c :: l) ++ [c']).
  assert (rev ((c :: l) ++ [c']) = c' :: rev (c :: l)) as Hr
    by (by rewrite rev_app_distr).
  rewrite Hr. cbn [lstrip]. rewrite Hc', <- Hr. by rewrite rev_involutive.
Qed.

Lemma strptime_naive (fmt : regex) (s : string) (d : datetime) :
  strptime fmt s = Some d → tzinfo d = None.
Proof.
  unfold strptime. destruct (re_match fmt (chars s)) as [[[|? ?] m]|]; try discriminate.
  case_match; [|discriminate]. by intros [= <-].
Qed.

Lemma parse_dt_text (L : pylib) (s : string) (tzid : json) :
  parse_dt L (JStr s) tzid =
  Ok (if String.eqb s "" then None
      else (λ d, if truthy tzid then with_zone d (gettz L tzid) else d)
             <$> strptime_either (strip s)).
Proof.
  unfold parse_dt, strptime_either. cbn [truthy].
  destruct (String.eqb s ""); cbn [negb]; [done|].
  destruct (strptime DATE_FMT (strip s)) as [d|]; [by destruct (truthy tzid)|].
  destruct (strptime FMT_SECONDS (strip s)) as [d|]; [by destruct (truthy tzid) | done].
Qed.

Lemma exact_forms_trimmed y1 y2 y3 y4 m1 m2 d1 d2 h1 h2 n1 n2 s1 s2 f1 f2 f3 f4 f5 f6 :
  valid_form y1 y2 y3 y4 m1 m2 d1 d2 h1 h2 n1 n2 s1 s2 f1 f2 f3 f4 f5 f6 →
  strip (text (seconds_form y1 y2 y3 y4 m1 m2 d1 d2 h1 h2 n1 n2 s1 s2))
  = text (seconds_form y1 y2 y3 y4 m1 m2 d1 d2 h1 h2 n1 n2 s1 s2)
  ∧ strip (text (fraction_form y1 y2 y3 y4 m1 m2 d1 d2 h1 h2 n1 n2 s1 s2 f1 f2 f3 f4 f5 f6))
    = text (fraction_form y1 y2 y3 y4 m1 m2 d1 d2 h1 h2 n1 n2 s1 s2 f1 f2 f3 f4 f5 f6).
Proof.
  intros (Hd & _). repeat (apply Forall_cons in Hd as [? Hd]). split.
  - apply (strip_trimmed y1 s2 [y2; y3; y4; "-"; m1; m2; "-"; d1; d2; " "; h1; h2; ":";
                                 n1; n2; ":"; s1]%char); by apply digit_not_space.
  - apply (strip_trimmed y1 f6 [y2; y3; y4; "-"; m1; m2; "-"; d1; d2; " "; h1; h2; ":";
                                 n1; n2; ":"; s1; s2; "."; f1; f2; f3; f4; f5]%char);
      by apply digit_not_space.
Qed.




(** ** Completion of the run *)

Section Completion.
Context (L : pylib) (airport_index : gmap string airport).

Lemma py_get_dict (v : json) (k : string) :
  is_dict v = true → py_get v k = Ok (get v k).
Proof. by destruct v. Qed.

Lemma py_get_default_dict (v : json) (k : string) (d : json) :
  is_dict v = true → ∃ x, py_get_default v k d = Ok x.
Proof. destruct v; try done. intros _. by eexists. Qed.

Lemma py_get_falsy_or_dict (v : json) (k : string) :
  falsy_or is_dict v = true → py_get (v ||| JObj []) k = Ok (get (v ||| JObj []) k).
Proof.
  unfold falsy_or, py_or. destruct (truthy v); cbn; [|done]. apply py_get_dict.
Qed.

Lemma forallb_Forall {A} (p : A → bool) (l : list A) :
  forallb p l = true → Forall (λ x, p x = true) l.
Proof.
  induction l as [|x l IH]; cbn; [constructor|].
  intros [? ?]%andb_prop. constructor; auto.
Qed.

Lemma py_iter_list (p : json → bool) (v : json) :
  falsy_or (is_list_of p) v = true →
  ∃ l, py_iter (v ||| JArr []) = Ok l ∧ Forall (λ x, p x = true) l.
Proof.
  unfold falsy_or, py_or. destruct (truthy v); cbn.
  - destruct v as [| | | | |l|]; try done. intros H. exists l. split; [done|].
    by apply forallb_Forall.
  - intros _. by exists [].
Qed.

Lemma for_each_total {S A} (body : S → A → result S) (P : A → Prop) (I : S → Prop) :
  (∀ s x, P x → I s → ∃ s', body s x = Ok s' ∧ I s') →
  ∀ xs s, Forall P xs → I s → ∃ s', for_each body xs s = Ok s' ∧ I s'.
Proof.
  intros Hb xs. induction xs as [|x xs IH]; intros s Hxs Hs; cbn.
  - by exists s.
  - apply Forall_cons in Hxs as [Hx Hxs].
    destruct (Hb s x Hx Hs) as (s1 & -> & H1). cbn. by apply IH.
Qed.

Lemma parse_dt_naive (v tzid : json) :
  is_text_or_none v = true → truthy tzid = false →
  ∃ d, parse_dt L v tzid = Ok d ∧ naive d.
Proof.
  intros Hv Ht. destruct v as [| | | |s| |]; try done.
  - exists None. by split.
  - rewrite parse_dt_text, Ht. eexists. split; [done|].
    destruct (String.eqb s ""); [done|]. unfold strptime_either.
    destruct (strptime DATE_FMT (strip s)) as [d|] eqn:E1.
    + intros x [= <-]. by apply strptime_naive in E1.
    + destruct (strptime FMT_SECONDS (strip s)) as [d|] eqn:E2; [|done].
      intros x [= <-]. by apply strptime_naive in E2.
Qed.

Lemma track_naive (flip_args : bool) (dt cur : option datetime) :
  naive dt → naive cur →
  ∃ r, track (if flip_args then dt_gt L else dt_lt L) dt cur = Ok r ∧ naive r.
Proof.
  intros Hd Hc. destruct dt as [d|], cur as [c|]; cbn [track]; try (eexists; by split).
  pose proof (Hd d eq_refl) as Hd'. pose proof (Hc c eq_refl) as Hc'.
  destruct flip_args; unfold dt_gt, dt_lt; rewrite Hd', Hc'; cbn [mbind result_bind];
    eexists; (split; [reflexivity|]); case_match; done.
Qed.

Lemma dt_iso_naive (d : option datetime) : naive d → ∃ s, dt_iso L d = Ok s.
Proof.
  intros H. destruct d as [x|]; cbn; [|by eexists].
  rewrite (H x eq_refl). by eexists.
Qed.

Lemma coords_from_address_total (a : json) :
  wt_address a = true → ∃ c, coords_from_address L (a ||| JObj []) = Ok c.
Proof.
  unfold wt_address, falsy_or, py_or, coords_from_address.
  destruct (truthy a) eqn:Et; cbn [negb orb]; [|by eexists].
  intros [[Hd _]%andb_prop _]%andb_prop. rewrite Et. cbn [negb].
  rewrite (py_get_dict a "latitude") by done. cbn [mbind result_bind].
  rewrite (py_get_dict a "longitude") by done. cbn [mbind result_bind].
  rewrite (py_get_dict a "rawAddress") by done. cbn [mbind result_bind].
  destruct (_ && _); by eexists.
Qed.

Lemma endpoint_label_total (a : json) (raw : option string) (fallback : string) :
  wt_address a = true → raw = address_raw L (a ||| JObj []) → fallback ≠ "" →
  ∃ s, endpoint_label (a ||| JObj []) raw fallback = Ok (JStr s) ∧ s ≠ "".
Proof.
  unfold wt_address, falsy_or, py_or, endpoint_label, address_raw.
  intros H -> Hf. destruct fallback as [|f0 f]; [done|].
  destruct (truthy a) eqn:Et; cbn [negb orb] in H.
  - apply andb_prop in H as [[Hd Hc]%andb_prop Hr].
    rewrite (py_get_dict a "city") by done. cbn [mbind result_bind].
    rewrite (py_get_dict a "rawAddress") by done. cbn [mbind result_bind].
    unfold py_or, raw_text.
    destruct (get a "city") as [| | | |c| |]; try done;
      destruct (get a "rawAddress") as [| | | |r| |]; try done; cbn;
      repeat (case_match; cbn); try (cbn in *; congruence);
      eexists; (split; [reflexivity|]); try done;
      apply String.eqb_neq; cbn [truthy] in *; rewrite ?negb_true_iff in *; congruence.
  - cbn. by eexists.
Qed.

Lemma resolve_endpoint_total lat lon raw (s : string) :
  s ≠ "" → ∃ out, resolve_endpoint L airport_index lat lon raw (JStr s) = Ok out.
Proof.
  intros Hs%String.eqb_neq. unfold resolve_endpoint.
  destruct (bool_decide _ || bool_decide _); [|by eexists].
  destruct (iata_from_raw raw) as [code|]; [|by eexists].
  destruct (if String.eqb code "" then None else airport_index !! code)
    as [[[[? ?] ?] ?]|]; [|by eexists].
  unfold py_or. cbn [truthy]. rewrite Hs. cbn [negb py_contains mbind result_bind truthy].
  rewrite Hs. destruct (str_contains s code); by eexists.
Qed.

Lemma resolve_segment_total (seg : json) :
  wt_segment seg = true → ∃ r, resolve_segment L airport_index seg = Ok r.
Proof.
  unfold wt_segment. intros H. repeat (apply andb_prop in H as [H ?]).
  unfold resolve_segment.
  rewrite (py_get_dict seg "departureAddress") by done. cbn [mbind result_bind].
  rewrite (py_get_dict seg "arrivalAddress") by done. cbn [mbind result_bind]. cbv zeta.
  set (dep := get seg "departureAddress") in *. set (arr := get seg "arrivalAddress") in *.
  destruct (coords_from_address_total dep) as ([[dlat dlon] draw] & Hc1); [done|].
  destruct (coords_from_address_total arr) as ([[alat alon] araw] & Hc2); [done|].
  rewrite Hc1. cbn [mbind result_bind]. rewrite Hc2. cbn [mbind result_bind].
  destruct (coords_from_address_spec L _ _ _ _ Hc1 (or_empty_dict _)) as [Hr1 _].
  destruct (coords_from_address_spec L _ _ _ _ Hc2 (or_empty_dict _)) as [Hr2 _].
  destruct (endpoint_label_total dep draw "Departure") as (s1 & -> & Hs1); try done.
  destruct (endpoint_label_total arr araw "Arrival") as (s2 & -> & Hs2); try done.
  cbn [mbind result_bind].
  destruct (resolve_endpoint_total dlat dlon draw s1 Hs1) as ([[? ?] ?] & ->).
  cbn [mbind result_bind].
  destruct (resolve_endpoint_total alat alon araw s2 Hs2) as ([[? ?] ?] & ->).
  cbn [mbind result_bind]. repeat case_match; by eexists.
Qed.

Lemma process_segment_total gk name key t st seg :
  wt_segment seg = true → naive_state st →
  ∃ st', process_segment L airport_index gk name key t st seg = Ok st' ∧ naive_state st'.
Proof.
  intros Hwt [Hs He]. destruct (resolve_segment_total seg Hwt) as (r & Hr).
  unfold wt_segment in Hwt. repeat (apply andb_prop in Hwt as [Hwt ?]).
  unfold process_segment.
  rewrite (py_get_dict seg "departureDate") by done. cbn [mbind result_bind].
  rewrite (py_get_dict seg "departureTimeZoneID") by done. cbn [mbind result_bind].
  destruct (parse_dt_naive (get seg "departureDate") (get seg "departureTimeZoneID"))
    as (dep_dt & -> & Hdep); [done|by apply negb_true_iff|].
  cbn [mbind result_bind].
  rewrite (py_get_dict seg "arrivalDate") by done. cbn [mbind result_bind].
  rewrite (py_get_dict seg "arrivalTimeZoneID") by done. cbn [mbind result_bind].
  destruct (parse_dt_naive (get seg "arrivalDate") (get seg "arrivalTimeZoneID"))
    as (arr_dt & -> & Harr); [done|by apply negb_true_iff|].
  cbn [mbind result_bind].
  destruct (track_naive false dep_dt (start_dt st) Hdep Hs) as (s' & -> & Hs').
  cbn [mbind result_bind].
  destruct (track_naive true arr_dt (end_dt st) Harr He) as (e' & -> & He').
  cbn [mbind result_bind]. rewrite Hr. cbn [mbind result_bind].
  destruct r as [[[[? ?] ?] [[? ?] ?]]|]; eexists; (split; [reflexivity|]); by split.
Qed.

Lemma process_leg_total gk name key t st leg :
  wt_leg leg = true → naive_state st →
  ∃ st', process_leg L airport_index gk name key t st leg = Ok st' ∧ naive_state st'.
Proof.
  unfold wt_leg. intros [Hd Hl]%andb_prop Hst. unfold process_leg.
  rewrite (py_get_dict leg "segments") by done. cbn [mbind result_bind].
  destruct (py_iter_list _ _ Hl) as (l & -> & Hall). cbn [mbind result_bind].
  by apply (for_each_total _ (λ seg, wt_segment seg = true) naive_state);
    [intros; by apply process_segment_total|..].
Qed.

Lemma process_event_total stem gk name st ev_i ev :
  wt_event L ev = true →
  ∃ st', process_event L airport_index stem gk name st (ev_i, ev) = Ok st'.
Proof.
  unfold wt_event. intros [[[Hd Ht]%andb_prop Ha]%andb_prop Hrest]%andb_prop.
  destruct st as [segs evs]. unfold process_event.
  rewrite (py_get_dict ev "UIDescription") by done. cbn [mbind result_bind]. cbv zeta.
  destruct (py_get_default_dict ev "id" (JInt (Z.of_nat ev_i)) Hd) as (id & ->).
  cbn [mbind result_bind].
  assert (Hty : event_type ev = get ev "UIDescription" ||| JStr "Other")
    by (unfold event_type; by rewrite py_get_dict).
  rewrite <- Hty.
  assert (Hshort : ∃ b, lodging_shortcut (event_type ev) ev = Ok b).
  { unfold lodging_shortcut. rewrite Hty.
    assert (∃ tl, py_lower (get ev "UIDescription" ||| JStr "Other") = Ok tl) as (tl & ->).
    { unfold py_or. destruct (get ev "UIDescription") as [| | | |s| |]; try done; cbn;
        [|destruct (String.eqb s "")]; by eexists. }
    cbn [mbind result_bind]. destruct (String.eqb tl "hotel"); [|by eexists].
    rewrite (py_get_dict ev "address") by done. cbn [mbind result_bind].
    rewrite py_get_falsy_or_dict by done. by eexists. }
  destruct Hshort as (b & Hb). rewrite Hb in *. cbn [mbind result_bind].
  destruct b.
  - repeat (apply andb_prop in Hrest as [Hrest ?]).
    rewrite (py_get_dict ev "address") by done. cbn [mbind result_bind].
    rewrite (py_get_falsy_or_dict _ "latitude") by done. cbn [mbind result_bind].
    destruct (py_float L (get (get ev "address" ||| JObj []) "latitude")); [|done].
    cbn [mbind result_bind].
    rewrite (py_get_falsy_or_dict _ "longitude") by done. cbn [mbind result_bind].
    destruct (py_float L (get (get ev "address" ||| JObj []) "longitude")); [|done].
    cbn [mbind result_bind].
    rewrite (py_get_falsy_or_dict _ "locationName") by done. cbn [mbind result_bind].
    rewrite (py_get_falsy_or_dict _ "rawAddress") by done. cbn [mbind result_bind].
    rewrite (py_get_dict ev "venueStartDate") by done. cbn [mbind result_bind].
    destruct (parse_dt_naive (get ev "venueStartDate") JNull) as (d1 & -> & Hn1); try done.
    cbn [mbind result_bind].
    rewrite (py_get_dict ev "venueEndDate") by done. cbn [mbind result_bind].
    destruct (parse_dt_naive (get ev "venueEndDate") JNull) as (d2 & -> & Hn2); try done.
    cbn [mbind result_bind].
    destruct (dt_iso_naive d1 Hn1) as (s1 & ->). cbn [mbind result_bind].
    destruct (dt_iso_naive d2 Hn2) as (s2 & ->). cbn [mbind result_bind]. by eexists.
  - rewrite (py_get_dict ev "legs") by done. cbn [mbind result_bind].
    destruct (py_iter_list _ _ Hrest) as (l & -> & Hall). cbn [mbind result_bind].
    destruct (for_each_total
                (process_leg L airport_index gk name (stem +:+ ":" +:+ py_str L id)
                   (py_str L (event_type ev)))
                (λ leg, wt_leg leg = true) naive_state
                ltac:(intros; by apply process_leg_total) l
                {| segments := segs; seg_count := 0; start_dt := None; end_dt := None;
                   title_guess := None |} Hall ltac:(by split))
      as (st' & -> & [Hs He]).
    cbn [mbind result_bind]. destruct (0 <? seg_count st')%nat; [|by eexists].
    destruct (dt_iso_naive _ Hs) as (s1 & ->). cbn [mbind result_bind].
    destruct (dt_iso_naive _ He) as (s2 & ->). cbn [mbind result_bind]. by eexists.
Qed.

Lemma Forall_enumerate {A} (P : A → Prop) (l : list A) :
  Forall P l → Forall (λ p, P (snd p)) (enumerate l).
Proof.
  unfold enumerate. generalize 0%nat. intros n H. revert n.
  induction H as [|x l Hx _ IH]; intros n; cbn; constructor; [done | apply IH].
Qed.

Lemma process_file_total st p :
  wt_file L p = true → ∃ st', process_file L airport_index st p = Ok st'.
Proof.
  unfold wt_file, process_file. destruct (content p) as [obj|]; [|by eexists].
  unfold wt_doc. intros [Hd He]%andb_prop.
  rewrite (py_get_dict obj "tripID") by done. cbn [mbind result_bind]. cbv zeta.
  rewrite (py_get_dict obj "customName") by done. cbn [mbind result_bind].
  rewrite (py_get_dict obj "name") by done. cbn [mbind result_bind].
  rewrite (py_get_dict obj "tripEvents") by done. cbn [mbind result_bind].
  destruct (py_iter_list _ _ He) as (l & -> & Hall). cbn [mbind result_bind].
  destruct (for_each_total
              (process_event L airport_index (stem p)
                 (py_str L (get obj "tripID" ||| JStr (stem p)))
                 (py_str L (get obj "customName" ||| get obj "name" ||| JStr (stem p))))
              (λ iev, wt_event L (snd iev) = true) (λ _, True)) with (xs := enumerate l) (s := st)
    as (st' & -> & _);
    [| by apply (Forall_enumerate (λ ev, wt_event L ev = true)) | done | by eexists].
  intros s [i ev] Hev _. destruct (process_event_total (stem p)
    (py_str L (get obj "tripID" ||| JStr (stem p)))
    (py_str L (get obj "customName" ||| get obj "name" ||| JStr (stem p))) s i ev Hev)
    as (s' & ->). by exists s'.
Qed.

Lemma collect_segments_total (raw_dir : list source_file) :
  forallb (wt_file L) raw_dir = true → ∃ out, collect_segments L airport_index raw_dir = Ok out.
Proof.
  intros H. unfold collect_segments.
  destruct (for_each_total (process_file L airport_index)
              (λ p, wt_file L p = true) (λ _, True)) with (xs := raw_dir)
              (s := ([] : list SegmentRecord, [] : list EventSummary))
    as (out & -> & _); [| |done|by eexists].
  - intros s p Hp _. destruct (process_file_total s p Hp) as (s' & ->). by exists s'.
  - by apply forallb_Forall.
Qed.

Lemma for_each_app {S A} (body : S → A → result S) (l1 l2 : list A) (s : S) :
  for_each body (l1 ++ l2) s = for_each body l1 s ≫= for_each body l2.
Proof.
  revert s. induction l1 as [|x l1 IH]; intros s; cbn; [done|].
  destruct (body s x); cbn; [apply IH | done].
Qed.

End Completion.




(** * Further properties *)

(** ** The code extractor: the codes it returns *)

Lemma upper_char_upper (c : ascii) : is_upper c = true → upper_char c = c.
Proof. destruct c as [[] [] [] [] [] [] [] []]; first [reflexivity | discriminate]. Qed.

Lemma is_upper_not_space (c : ascii) : is_upper c = true → is_space c = false.
Proof. destruct c as [[] [] [] [] [] [] [] []]; first [reflexivity | discriminate]. Qed.

Lemma upper_char_idem (c : ascii) : upper_char (upper_char c) = upper_char c.
Proof. destruct c as [[] [] [] [] [] [] [] []]; reflexivity. Qed.

Lemma upper_lower_char (c : ascii) : upper_char (lower_char c) = upper_char c.
Proof. destruct c as [[] [] [] [] [] [] [] []]; reflexivity. Qed.

Lemma upper_idem (s : string) : upper (upper s) = upper s.
Proof.
  unfold upper. rewrite chars_text, map_map. f_equal.
  apply map_ext. intros c. apply upper_char_idem.
Qed.

Lemma upper_lower (s : string) : upper (lower s) = upper s.
Proof.
  unfold upper, lower. rewrite chars_text, map_map. f_equal.
  apply map_ext. intros c. apply upper_lower_char.
Qed.

Lemma lstrip_idem (l : list ascii) : lstrip (lstrip l) = lstrip l.
Proof.
  induction l as [|c l IH]; [reflexivity|]. cbn.
  destruct (is_space c) eqn:E; [exact IH|]. cbn. by rewrite E.
Qed.

Lemma rstrip_prefix (l : list ascii) : ∃ ws, l = rstrip l ++ ws.
Proof.
  destruct (lstrip_split (rev l)) as (ws & H & _). exists (rev ws).
  unfold rstrip. rewrite <- rev_app_distr, <- H. by rewrite rev_involutive.
Qed.

Lemma strip_idem (s : string) : strip (strip s) = strip s.
Proof.
  unfold strip. rewrite chars_text. f_equal.
  set (y := lstrip (chars s)).
  assert (Hl : lstrip (rstrip y) = rstrip y).
  { destruct (rstrip y) as [|c x] eqn:E; [reflexivity|].
    destruct (rstrip_prefix y) as (ws & Hy). rewrite E in Hy.
    cbn. unfold y in Hy. apply lstrip_head in Hy. by rewrite Hy. }
  rewrite Hl. unfold rstrip. rewrite rev_involutive. by rewrite lstrip_idem.
Qed.

Lemma exact_shape_upper3 (s code : list ascii) :
  exact_shape s = Some code → ∃ a b c, code = [a; b; c] ∧ upper3 a b c = true.
Proof.
  unfold exact_shape. intros H.
  repeat (case_match; try discriminate); injection H as <-; eexists _, _, _; split; try reflexivity.
  - done.
  - by repeat match goal with H : _ && _ = true |- _ => apply andb_prop in H as [H ?] end.
Qed.

Lemma last_paren_code_upper3 (s code : list ascii) :
  last_paren_code s = Some code → ∃ a b c, code = [a; b; c] ∧ upper3 a b c = true.
Proof.
  induction s as [|c s IH]; [discriminate|]. cbn [last_paren_code].
  destruct (last_paren_code s); [intros [= <-]; by apply IH|].
  unfold paren_code_at. intros H.
  repeat (case_match; try discriminate); injection H as <-; eexists _, _, _; split; try reflexivity.
  by repeat match goal with H : _ && _ = true |- _ => apply andb_prop in H as [H ?] end.
Qed.

Lemma alias_cases (code : string) :
  (IATA_ALIASES !! code = None ∧ alias code = code)
  ∨ (alias code = "BER" ∨ alias code = "JFK").
Proof.
  unfold alias. destruct (IATA_ALIASES !! code) as [v|] eqn:E; [right|by left].
  apply elem_of_list_to_map_2 in E. cbn.
  repeat (apply elem_of_cons in E as [[= _ ->]|E]; [by auto|]).
  by apply elem_of_nil in E.
Qed.

Lemma alias_code (c : string) : is_code c → is_code (alias c) ∧ alias (alias c) = alias c.
Proof.
  intros Hc. destruct (alias_cases c) as [[Hn ->]|[->| ->]].
  - split; [done|]. unfold alias. by rewrite Hn.
  - split; [by exists "B"%char, "E"%char, "R"%char | by vm_compute].
  - split; [by exists "J"%char, "F"%char, "K"%char | by vm_compute].
Qed.

Lemma code_extractor_code (c : string) : is_code c → code_extractor c = Some (alias c).
Proof.
  intros (a & b & d & -> & H). unfold code_extractor.
  assert (Hu : upper3 a b d = true) by done.
  unfold upper3 in H. apply andb_prop in H as [H Hd]. apply andb_prop in H as [Ha Hb].
  assert (chars (strip (upper (text [a; b; d]))) = [a; b; d]) as ->.
  { unfold upper, strip. rewrite !chars_text. cbn [map].
    rewrite !upper_char_upper by done. cbn [lstrip].
    rewrite (is_upper_not_space a) by done. unfold rstrip. cbn [rev app lstrip].
    by rewrite (is_upper_not_space d). }
  cbn [exact_shape]. by rewrite Hu.
Qed.

Lemma code_extractor_is_code (raw c : string) : code_extractor raw = Some c → is_code c.
Proof.
  unfold code_extractor.
  destruct (exact_shape _) as [code|] eqn:E1.
  - intros [= <-]. apply exact_shape_upper3 in E1 as (a & b & d & -> & H).
    apply alias_code. by exists a, b, d.
  - destruct (last_paren_code _) as [code|] eqn:E2; [|discriminate].
    intros [= <-]. apply last_paren_code_upper3 in E2 as (a & b & d & -> & H).
    apply alias_code. by exists a, b, d.
Qed.

Lemma code_extractor_alias_fixed (raw c : string) : code_extractor raw = Some c → alias c = c.
Proof.
  unfold code_extractor.
  destruct (exact_shape _) as [code|] eqn:E1.
  - intros [= <-]. apply exact_shape_upper3 in E1 as (a & b & d & -> & H).
    apply alias_code. by exists a, b, d.
  - destruct (last_paren_code _) as [code|] eqn:E2; [|discriminate].
    intros [= <-]. apply last_paren_code_upper3 in E2 as (a & b & d & -> & H).
    apply alias_code. by exists a, b, d.
Qed.

(** X1. Every code the code extractor returns is made of three capital
    letters, is no key of the alias table, and is returned as it is when it
    is given back to the extractor. *)
Theorem iata_from_raw_code (raw : option string) (c : string) :
  iata_from_raw raw = Some c →
  (∃ a b d, c = text [a; b; d] ∧ is_upper a = true ∧ is_upper b = true ∧ is_upper d = true)
  ∧ IATA_ALIASES !! c = None
  ∧ iata_from_raw (Some c) = Some c.
Proof.
  destruct raw as [raw|]; [|discriminate]. rewrite !iata_from_raw_eq. intros H.
  pose proof (code_extractor_is_code _ _ H) as Hc.
  pose proof (code_extractor_alias_fixed _ _ H) as Hf.
  split; [|split].
  - destruct Hc as (a & b & d & -> & Hu). exists a, b, d. split; [done|].
    unfold upper3 in Hu. apply andb_prop in Hu as [Hu ?]. by apply andb_prop in Hu as [? ?].
  - destruct (alias_cases c) as [[Hn _]|Hk]; [done|].
    rewrite Hf in Hk. by destruct Hk as [-> | ->].
  - rewrite code_extractor_code by done. by rewrite Hf.
Qed.

(** X2. The code extractor does not see the case of the letters nor the
    white space around the text: a text, its lower-case form, its
    upper-case form and the text trimmed get the same answer. *)
Theorem iata_from_raw_normalizes (s : string) :
  iata_from_raw (Some (lower s)) = iata_from_raw (Some s)
  ∧ iata_from_raw (Some (upper s)) = iata_from_raw (Some s)
  ∧ iata_from_raw (Some (strip s)) = iata_from_raw (Some s).
Proof.
  rewrite !iata_from_raw_eq. unfold code_extractor.
  rewrite upper_lower, upper_idem.
  by rewrite (strip_upper (strip s)), strip_idem, <- strip_upper.
Qed.

(** ** The airport reference index: which row gives the entry *)

Section IndexMore.
Context (L : pylib).

Lemma add_ourairports_entry (idx : gmap string airport) (row : gmap string string) :
  add_ourairports L idx row =
  match ourairports_entry L row with
  | Some (code, a) => <[code := a]> idx
  | None => idx
  end.
Proof.
  unfold add_ourairports, ourairports_entry.
  repeat case_match; simplify_eq; reflexivity.
Qed.

Lemma add_openflights_entry (idx : gmap string airport) (parts : list string) :
  add_openflights L idx parts =
  match openflights_entry L parts with
  | Some (code, a) => if bool_decide (is_Some (idx !! code)) then idx else <[code := a]> idx
  | None => idx
  end.
Proof.
  unfold add_openflights, openflights_entry.
  repeat case_match; simplify_eq; try reflexivity; congruence.
Qed.

Lemma entries_of_snoc code es e :
  entries_of code (es ++ [e]) = entries_of code es ++ (if decide (e.1 = code) then [e.2] else []).
Proof.
  unfold entries_of. rewrite filter_app, fmap_app. f_equal.
  rewrite filter_cons, filter_nil. by destruct (decide (e.1 = code)).
Qed.

Lemma last_snoc' {A} (l : list A) (x : A) : last (l ++ [x]) = Some x.
Proof. by rewrite last_snoc. Qed.

(** The primary dataset: the last row taken for a code is the one kept. *)
Lemma ourairports_lookup (rows : list (gmap string string)) (code : string) :
  foldl (add_ourairports L) ∅ rows !! code
  = last (entries_of code (omap (ourairports_entry L) rows)).
Proof.
  induction rows as [|row rows IH] using rev_ind; [done|].
  rewrite foldl_app, omap_app. cbn [foldl]. rewrite add_ourairports_entry.
  change (omap (ourairports_entry L) [row]) with (option_list (ourairports_entry L row)).
  destruct (ourairports_entry L row) as [[c a]|].
  - change (option_list (Some (c, a))) with [(c, a)]. rewrite entries_of_snoc. cbn [fst snd]. destruct (decide (c = code)) as [->|Hne].
    + by rewrite lookup_insert_eq, last_snoc.
    + by rewrite lookup_insert_ne, app_nil_r.
  - change (option_list None) with (@nil (string * airport)). by rewrite app_nil_r.
Qed.

(** The secondary dataset: the first line taken for a code is the one kept,
    and only if the code has no entry yet. *)
Lemma openflights_lookup (lines : list (list string)) (idx : gmap string airport)
    (code : string) :
  foldl (add_openflights L) idx lines !! code
  = match idx !! code with
    | Some a => Some a
    | None => head (entries_of code (omap (openflights_entry L) lines))
    end.
Proof.
  revert idx. induction lines as [|parts lines IH]; intros idx; [cbn [foldl]; destruct (idx !! code); reflexivity|].
  cbn [foldl]. rewrite IH, add_openflights_entry.
  change (omap (openflights_entry L) (parts :: lines))
    with (match openflights_entry L parts with
          | Some e => e :: omap (openflights_entry L) lines
          | None => omap (openflights_entry L) lines
          end).
  destruct (openflights_entry L parts) as [[c a]|]; [|done].
  unfold entries_of. rewrite filter_cons. cbn [fst].
  case_bool_decide as Hin.
  - destruct Hin as [x Hx]. destruct (decide (c = code)) as [->|Hne]; [|done].
    by rewrite Hx.
  - apply eq_None_not_Some in Hin.
    destruct (decide (c = code)) as [->|Hne].
    + by rewrite lookup_insert_eq, Hin.
    + by rewrite lookup_insert_ne.
Qed.




(** X3. The entry of a code in the index is the one of the last row of
    the primary dataset that is taken for the code; when there is none, the
    one of the first line of the secondary dataset that is taken for it;
    when there is none either, the manual patch of the code; and no entry
    otherwise. *)
Theorem load_iata_index_precedence (airports_csv : list (gmap string string))
    (openflights_dat : option (list (list string))) (code : string) :
  load_iata_index L airports_csv openflights_dat !! code
  = match last (entries_of code (omap (ourairports_entry L) airports_csv)) with
    | Some a => Some a
    | None =>
        match head (entries_of code (omap (openflights_entry L) (default [] openflights_dat))) with
        | Some a => Some a
        | None => assoc code MANUAL_AIRPORTS
        end
    end.
Proof.
  unfold load_iata_index. rewrite manual_lookup, openflights_lookup, ourairports_lookup.
  by repeat case_match.
Qed.


End IndexMore.

(** ** Decimal text *)

Lemma digits_of_acc (fuel : nat) (n : N) (acc : list ascii) :
  digits_of fuel n acc = digits_of fuel n [] ++ acc.
Proof.
  revert n acc. induction fuel as [|fuel IH]; intros n acc; [done|].
  cbn [digits_of]. destruct (n <? 10)%N; [done|].
  rewrite (IH _ (_ :: acc)), (IH _ [_]). by rewrite <- app_assoc.
Qed.

Lemma digits_of_fuel (f1 f2 : nat) (n : N) (acc : list ascii) :
  (n < 2 ^ N.of_nat f1)%N → (n < 2 ^ N.of_nat f2)%N → (0 < f1)%nat → (0 < f2)%nat →
  digits_of f1 n acc = digits_of f2 n acc.
Proof.
  revert f2 n acc. induction f1 as [|f1 IH]; intros f2 n acc H1 H2 ? ?; [lia|].
  destruct f2 as [|f2]; [lia|]. cbn [digits_of].
  destruct (n <? 10)%N eqn:E; [done|]. apply N.ltb_ge in E.
  rewrite Nat2N.inj_succ, N.pow_succ_r' in H1, H2.
  assert (f1 ≠ 0%nat) by (intros ->; cbn in H1; lia).
  assert (f2 ≠ 0%nat) by (intros ->; cbn in H2; lia).
  apply IH; try lia; apply N.Div0.div_lt_upper_bound; lia.
Qed.

Lemma decimal_of_small (n : N) : (n < 10)%N → decimal_of n = [digit_char (N.to_nat n)].
Proof.
  intros H. unfold decimal_of, str_of_N. rewrite chars_text. cbn [digits_of].
  apply N.ltb_lt in H as H'. rewrite H'. by rewrite N.mod_small.
Qed.

Lemma decimal_of_step (n : N) :
  (10 ≤ n)%N → decimal_of n = decimal_of (n / 10) ++ [digit_char (N.to_nat (n mod 10))].
Proof.
  intros H. unfold decimal_of, str_of_N. rewrite !chars_text.
  assert (E : digits_of (S (N.to_nat (N.log2 n))) n []
              = digits_of (N.to_nat (N.log2 n)) (n / 10) [digit_char (N.to_nat (n mod 10))]).
  { cbn [digits_of]. by assert ((n <? 10)%N = false) as -> by by apply N.ltb_ge. }
  rewrite E, digits_of_acc. f_equal.
  assert (0 < n / 10)%N by (apply N.div_str_pos; lia).
  assert (0 < n)%N by lia.
  pose proof (N.log2_spec n ltac:(done)) as [_ Hn].
  pose proof (N.log2_spec (n / 10) ltac:(done)) as [_ Hq].
  assert (3 ≤ N.log2 n)%N by (apply (N.log2_le_pow2 n 3); [done|cbn; lia]).
  rewrite N.pow_succ_r' in Hn.
  apply digits_of_fuel.
  - rewrite N2Nat.id. apply N.Div0.div_lt_upper_bound. lia.
  - by rewrite Nat2N.inj_succ, N2Nat.id.
  - lia.
  - lia.
Qed.

Lemma fixed_length (w : nat) (n : N) : length (fixed w n) = w.
Proof.
  revert n. induction w as [|w IH]; intros n; [done|].
  cbn [fixed]. rewrite length_app, IH. cbn. lia.
Qed.

Lemma fixed_zero (w : nat) : fixed w 0 = replicate w "0"%char.
Proof.
  induction w as [|w IH]; [done|]. cbn [fixed].
  change (0 / 10)%N with 0%N. rewrite IH.
  change [digit_char (N.to_nat (0 mod 10))] with (replicate 1 "0"%char).
  rewrite <- replicate_add. by replace (w + 1)%nat with (S w) by lia.
Qed.

(** A number below [10 ^ w], printed by [str] and padded with zeros to [w]
    digits, is the number on [w] digits. *)
Lemma replicate_decimal (w : nat) (n : N) :
  (0 < w)%nat → (n < 10 ^ N.of_nat w)%N →
  replicate (w - length (decimal_of n)) "0"%char ++ decimal_of n = fixed w n.
Proof.
  revert n. induction w as [|w IH]; intros n Hw Hn; [lia|].
  cbn [fixed]. destruct (N.lt_ge_cases n 10) as [Hs|Hl].
  - rewrite decimal_of_small by done. rewrite N.div_small, N.mod_small by done.
    rewrite fixed_zero. cbn [length]. by replace (S w - 1)%nat with w by lia.
  - rewrite decimal_of_step by done. rewrite length_app. cbn [length].
    rewrite Nat2N.inj_succ, N.pow_succ_r' in Hn.
    assert (w ≠ 0%nat) by (intros ->; cbn in Hn; lia).
    rewrite <- (IH (n / 10)%N) by (try lia; apply N.Div0.div_lt_upper_bound; lia).
    rewrite <- app_assoc. do 2 f_equal. lia.
Qed.

Lemma pad_fixed (w : nat) (z : Z) :
  (0 < w)%nat → (0 ≤ z < 10 ^ Z.of_nat w)%Z → pad w z = text (fixed w (Z.to_N z)).
Proof.
  intros Hw Hz. unfold pad. f_equal.
  assert (str_of_Z z = str_of_N (Z.to_N z)) as -> by (destruct z; [reflexivity|reflexivity|lia]).
  apply replicate_decimal; [done|].
  apply N2Z.inj_lt. rewrite Z2N.id, N2Z.inj_pow by lia. rewrite nat_N_Z. exact (proj2 Hz).
Qed.

(** ** Digits and their value *)

Lemma int_of_digits_snoc (l : list ascii) (c : ascii) :
  int_of_digits (l ++ [c]) = (10 * int_of_digits l + digit_val c)%Z.
Proof. unfold int_of_digits. by rewrite fold_left_app. Qed.

Lemma digit_val_range (c : ascii) : is_digit c = true → (0 ≤ digit_val c ≤ 9)%Z.
Proof. destruct c as [[] [] [] [] [] [] [] []]; try discriminate; intros _; by vm_compute. Qed.

Lemma digit_char_val (c : ascii) :
  is_digit c = true → digit_char (Z.to_nat (digit_val c)) = c.
Proof. destruct c as [[] [] [] [] [] [] [] []]; try discriminate; reflexivity. Qed.

Lemma int_of_digits_range (l : list ascii) :
  Forall (λ c, is_digit c = true) l →
  (0 ≤ int_of_digits l < 10 ^ Z.of_nat (length l))%Z.
Proof.
  induction l as [|c l IH] using rev_ind; intros H; [by vm_compute|].
  apply Forall_app in H as [Hl Hc]. rewrite Forall_singleton in Hc.
  rewrite int_of_digits_snoc, length_app. cbn [length].
  replace (Z.of_nat (length l + 1)) with (Z.succ (Z.of_nat (length l))) by lia.
  rewrite Z.pow_succ_r by lia.
  pose proof (digit_val_range c Hc). specialize (IH Hl). lia.
Qed.

Lemma fixed_digits (l : list ascii) :
  Forall (λ c, is_digit c = true) l →
  fixed (length l) (Z.to_N (int_of_digits l)) = l.
Proof.
  induction l as [|c l IH] using rev_ind; intros H; [done|].
  apply Forall_app in H as [Hl Hc]. rewrite Forall_singleton in Hc.
  rewrite int_of_digits_snoc, length_app. cbn [length].
  replace (length l + 1)%nat with (S (length l)) by lia. cbn [fixed].
  pose proof (digit_val_range c Hc). pose proof (int_of_digits_range l Hl) as [? _].
  assert (Z.to_N (10 * int_of_digits l + digit_val c) / 10 = Z.to_N (int_of_digits l))%N as ->.
  { apply N2Z.inj. rewrite N2Z.inj_div, !Z2N.id by lia. change (Z.of_N 10) with 10%Z.
    symmetry. apply (Z.div_unique _ _ _ (digit_val c)); lia. }
  assert (N.to_nat (Z.to_N (10 * int_of_digits l + digit_val c) mod 10)
          = Z.to_nat (digit_val c)) as ->.
  { apply Nat2Z.inj. rewrite N_nat_Z, Z2Nat.id by lia.
    rewrite N2Z.inj_mod, !Z2N.id by lia. change (Z.of_N 10) with 10%Z.
    symmetry. apply (Z.mod_unique _ _ (int_of_digits l)); lia. }
  by rewrite IH, digit_char_val.
Qed.

(** Digits printed as they were read. *)
Lemma pad_digits (w : nat) (l : list ascii) :
  length l = w → (0 < w)%nat → Forall (λ c, is_digit c = true) l →
  pad w (int_of_digits l) = text l.
Proof.
  intros <- Hw H. rewrite pad_fixed.
  - by rewrite fixed_digits.
  - done.
  - by apply int_of_digits_range.
Qed.

(** ** The order on ISO texts *)

Lemma compare_text (a b : list ascii) : String.compare (text a) (text b) = lcmp a b.
Proof.
  revert b. induction a as [|x a IH]; intros [|y b]; try reflexivity.
  cbn. by rewrite IH.
Qed.

Lemma ltb_chars (a b : string) :
  String.ltb a b = match lcmp (chars a) (chars b) with Lt => true | _ => false end.
Proof. unfold String.ltb. by rewrite <- compare_text, !text_chars. Qed.

Lemma chars_app (a b : string) : chars (a +:+ b) = chars a ++ chars b.
Proof. unfold chars. induction a as [|c a IH]; [done|]. cbn. by rewrite <- IH. Qed.

Lemma ascii_compare_refl (c : ascii) : Ascii.compare c c = Eq.
Proof. unfold Ascii.compare. apply N.compare_refl. Qed.

Lemma lcmp_cons (c : ascii) (s t : list ascii) : lcmp (c :: s) (c :: t) = lcmp s t.
Proof. cbn. by rewrite ascii_compare_refl. Qed.

Lemma lcmp_app (a b s t : list ascii) :
  length a = length b →
  lcmp (a ++ s) (b ++ t) = match lcmp a b with Eq => lcmp s t | c => c end.
Proof.
  revert b. induction a as [|x a IH]; intros [|y b] H; try discriminate; [done|].
  cbn. destruct (Ascii.compare x y); [|done..]. apply IH. by injection H.
Qed.

Lemma digit_char_compare (i j : nat) :
  (i < 10)%nat → (j < 10)%nat →
  Ascii.compare (digit_char i) (digit_char j) = Nat.compare i j.
Proof.
  intros Hi Hj.
  do 10 (destruct i as [|i]; [do 10 (destruct j as [|j]; [reflexivity|]); lia|]). lia.
Qed.

Lemma lcmp_fixed (w : nat) (m n : N) :
  (m < 10 ^ N.of_nat w)%N → (n < 10 ^ N.of_nat w)%N →
  lcmp (fixed w m) (fixed w n) = (m ?= n)%N.
Proof.
  revert m n. induction w as [|w IH]; intros m n Hm Hn.
  - cbn in *. assert (m = 0%N) as -> by lia. by assert (n = 0%N) as -> by lia.
  - cbn [fixed]. rewrite lcmp_app by by rewrite !fixed_length.
    rewrite Nat2N.inj_succ, N.pow_succ_r' in Hm, Hn.
    rewrite IH by (apply N.Div0.div_lt_upper_bound; lia).
    pose proof (N.mod_lt m 10 ltac:(lia)). pose proof (N.mod_lt n 10 ltac:(lia)).
    cbn [lcmp]. rewrite digit_char_compare by lia.
    rewrite <- N2Nat.inj_compare.
    pose proof (N.div_mod m 10 ltac:(lia)). pose proof (N.div_mod n 10 ltac:(lia)).
    clear IH Hm Hn.
    generalize dependent (m / 10)%N. generalize dependent (m mod 10)%N.
    generalize dependent (n / 10)%N. generalize dependent (n mod 10)%N.
    intros rn ? qn ? rm ? qm ?.
    destruct (N.compare_spec qm qn), (N.compare_spec rm rn),
      (N.compare_spec m n); try reflexivity; lia.
Qed.

Lemma lcmp_pad (w : nat) (x y : Z) (s t : list ascii) :
  (0 < w)%nat → (0 ≤ x < 10 ^ Z.of_nat w)%Z → (0 ≤ y < 10 ^ Z.of_nat w)%Z →
  lcmp (chars (pad w x) ++ s) (chars (pad w y) ++ t)
  = match (x ?= y)%Z with Eq => lcmp s t | c => c end.
Proof.
  intros Hw Hx Hy. rewrite !pad_fixed, !chars_text by done.
  rewrite lcmp_app by by rewrite !fixed_length.
  rewrite lcmp_fixed.
  - by rewrite Z2N.inj_compare by lia.
  - apply N2Z.inj_lt. rewrite Z2N.id, N2Z.inj_pow, nat_N_Z by lia. exact (proj2 Hx).
  - apply N2Z.inj_lt. rewrite Z2N.id, N2Z.inj_pow, nat_N_Z by lia. exact (proj2 Hy).
Qed.

(** The characters of [dt.isoformat()]. *)
Lemma chars_isoformat (d : datetime) :
  chars (isoformat d)
  = chars (pad 4 (dt_year d)) ++ "-"%char :: chars (pad 2 (dt_month d)) ++ "-"%char
    :: chars (pad 2 (dt_day d)) ++ "T"%char :: chars (pad 2 (dt_hour d)) ++ ":"%char
    :: chars (pad 2 (dt_minute d)) ++ ":"%char :: chars (pad 2 (dt_second d))
    ++ (if (dt_microsecond d =? 0)%Z then []
        else "."%char :: chars (pad 6 (dt_microsecond d)) ++ []).
Proof.
  unfold isoformat. rewrite !chars_app. cbn [chars list_ascii_of_string app].
  repeat f_equal.
  destruct (dt_microsecond d =? 0)%Z; [done|]. rewrite chars_app. cbn. by rewrite app_nil_r.
Qed.

Lemma days_in_month_le_31 (y m : Z) : (days_in_month y m ≤ 31)%Z.
Proof. unfold days_in_month. repeat case_match; lia. Qed.

(** The order of the ISO texts of two dates without zone is the order of the
    dates. *)
Lemma isoformat_order (a b : datetime) :
  valid_datetime a → valid_datetime b →
  String.ltb (isoformat a) (isoformat b) = lex_lt (fields a) (fields b).
Proof.
  intros (Ya & Ma & Da & Ha & Na & Sa & Ua) (Yb & Mb & Db & Hb & Nb & Sb & Ub).
  pose proof (days_in_month_le_31 (dt_year a) (dt_month a)).
  pose proof (days_in_month_le_31 (dt_year b) (dt_month b)).
  rewrite ltb_chars, !chars_isoformat.
  rewrite lcmp_pad by (cbn; lia). rewrite lcmp_cons.
  rewrite lcmp_pad by (cbn; lia). rewrite lcmp_cons.
  rewrite lcmp_pad by (cbn; lia). rewrite lcmp_cons.
  rewrite lcmp_pad by (cbn; lia). rewrite lcmp_cons.
  rewrite lcmp_pad by (cbn; lia). rewrite lcmp_cons.
  rewrite lcmp_pad by (cbn; lia).
  assert (Hus : lcmp (if (dt_microsecond a =? 0)%Z then []
                      else "."%char :: chars (pad 6 (dt_microsecond a)) ++ [])
                     (if (dt_microsecond b =? 0)%Z then []
                      else "."%char :: chars (pad 6 (dt_microsecond b)) ++ [])
                = (dt_microsecond a ?= dt_microsecond b)%Z).
  { destruct (Z.eqb_spec (dt_microsecond a) 0) as [Ea|Ea],
      (Z.eqb_spec (dt_microsecond b) 0) as [Eb|Eb].
    - by rewrite Ea, Eb.
    - rewrite Ea. cbn [lcmp]. symmetry. apply Z.compare_lt_iff. lia.
    - rewrite Eb. cbn [lcmp]. symmetry. apply Z.compare_gt_iff. lia.
    - rewrite lcmp_cons, lcmp_pad by (cbn; lia). cbn [lcmp].
      by destruct (dt_microsecond a ?= dt_microsecond b)%Z. }
  rewrite Hus. unfold fields, lex_lt.
  repeat match goal with
  | |- context [(?x ?= ?y)%Z] =>
      destruct (Z.compare_spec x y) as [->| |];
      [rewrite Z.ltb_irrefl, Z.eqb_refl; cbn [orb andb]
      |by rewrite (proj2 (Z.ltb_lt _ _)) by done
      |by rewrite (proj2 (Z.ltb_ge _ _)), (proj2 (Z.eqb_neq _ _)) by lia]
  end.
  reflexivity.
Qed.

(** ** From the text of a date to its ISO text *)

Lemma parse_dt_exact (L : pylib) y1 y2 y3 y4 m1 m2 d1 d2 h1 h2 n1 n2 s1 s2 f1 f2 f3 f4 f5 f6 :
  valid_form y1 y2 y3 y4 m1 m2 d1 d2 h1 h2 n1 n2 s1 s2 f1 f2 f3 f4 f5 f6 →
  parse_dt L
    (JStr (text (fraction_form y1 y2 y3 y4 m1 m2 d1 d2 h1 h2 n1 n2 s1 s2
                   f1 f2 f3 f4 f5 f6))) JNull
  = Ok (Some (denoted y1 y2 y3 y4 m1 m2 d1 d2 h1 h2 n1 n2 s1 s2
                (int_of_digits [f1; f2; f3; f4; f5; f6])))
  ∧ parse_dt L (JStr (text (seconds_form y1 y2 y3 y4 m1 m2 d1 d2 h1 h2 n1 n2 s1 s2))) JNull
    = Ok (Some (denoted y1 y2 y3 y4 m1 m2 d1 d2 h1 h2 n1 n2 s1 s2 0)).
Proof.
  intros Hv.
  destruct (exact_forms_trimmed _ _ _ _ _ _ _ _ _ _ _ _ _ _ _ _ _ _ _ _ Hv) as [Hs Hf].
  rewrite !parse_dt_text, Hs, Hf. unfold strptime_either.
  rewrite (strptime_fraction _ _ _ _ _ _ _ _ _ _ _ _ _ _ _ _ _ _ _ _ Hv).
  rewrite (strptime_no_fraction _ _ _ _ _ _ _ _ _ _ _ _ _ _ f1 f2 f3 f4 f5 f6 Hv).
  rewrite (strptime_seconds _ _ _ _ _ _ _ _ _ _ _ _ _ _ f1 f2 f3 f4 f5 f6 Hv).
  split; reflexivity.
Qed.

Lemma isoformat_denoted y1 y2 y3 y4 m1 m2 d1 d2 h1 h2 n1 n2 s1 s2 f1 f2 f3 f4 f5 f6 (us : Z) :
  valid_form y1 y2 y3 y4 m1 m2 d1 d2 h1 h2 n1 n2 s1 s2 f1 f2 f3 f4 f5 f6 →
  us = 0%Z ∨ us = int_of_digits [f1; f2; f3; f4; f5; f6] →
  isoformat (denoted y1 y2 y3 y4 m1 m2 d1 d2 h1 h2 n1 n2 s1 s2 us)
  = text (iso_form y1 y2 y3 y4 m1 m2 d1 d2 h1 h2 n1 n2 s1 s2
          ++ if (us =? 0)%Z then [] else ["."; f1; f2; f3; f4; f5; f6]%char).
Proof.
  intros (Hd & _) Hus. repeat (apply Forall_cons in Hd as [? Hd]).
  rewrite <- (text_chars (isoformat _)). f_equal. rewrite chars_isoformat.
  unfold denoted, val2. cbn [dt_year dt_month dt_day dt_hour dt_minute dt_second dt_microsecond].
  rewrite (pad_digits 4 [y1; y2; y3; y4]) by (try done; try lia; by repeat constructor).
  rewrite (pad_digits 2 [m1; m2]) by (try done; try lia; by repeat constructor).
  rewrite (pad_digits 2 [d1; d2]) by (try done; try lia; by repeat constructor).
  rewrite (pad_digits 2 [h1; h2]) by (try done; try lia; by repeat constructor).
  rewrite (pad_digits 2 [n1; n2]) by (try done; try lia; by repeat constructor).
  rewrite (pad_digits 2 [s1; s2]) by (try done; try lia; by repeat constructor).
  rewrite !chars_text. unfold iso_form. cbn [app]. repeat f_equal.
  destruct (us =? 0)%Z eqn:E; [done|].
  destruct Hus as [->| ->]; [done|].
  rewrite (pad_digits 6 [f1; f2; f3; f4; f5; f6]) by (try done; try lia; by repeat constructor).
  by rewrite chars_text.
Qed.

(** X6. A text of the exact form [YYYY-MM-DD HH:MM:SS] that denotes a date
    and a time of day, read by [parse_dt] and written by [dt_iso], is the
    same text with a [T] for the blank. With a fraction of six digits the
    fraction is written as it was read, and left out when it is zero. *)
Theorem parse_dt_iso_round_trip (L : pylib)
    y1 y2 y3 y4 m1 m2 d1 d2 h1 h2 n1 n2 s1 s2 f1 f2 f3 f4 f5 f6 :
  valid_form y1 y2 y3 y4 m1 m2 d1 d2 h1 h2 n1 n2 s1 s2 f1 f2 f3 f4 f5 f6 →
  parse_dt L (JStr (text (seconds_form y1 y2 y3 y4 m1 m2 d1 d2 h1 h2 n1 n2 s1 s2))) JNull
    ≫= dt_iso L
  = Ok (Some (text (iso_form y1 y2 y3 y4 m1 m2 d1 d2 h1 h2 n1 n2 s1 s2)))
  ∧ parse_dt L
      (JStr (text (fraction_form y1 y2 y3 y4 m1 m2 d1 d2 h1 h2 n1 n2 s1 s2
                     f1 f2 f3 f4 f5 f6))) JNull
      ≫= dt_iso L
    = Ok (Some (text (iso_form y1 y2 y3 y4 m1 m2 d1 d2 h1 h2 n1 n2 s1 s2
                      ++ if (int_of_digits [f1; f2; f3; f4; f5; f6] =? 0)%Z then []
                         else ["."; f1; f2; f3; f4; f5; f6]%char))).
Proof.
  intros Hv. destruct (parse_dt_exact L _ _ _ _ _ _ _ _ _ _ _ _ _ _ _ _ _ _ _ _ Hv) as [-> ->].
  cbn [mbind result_bind dt_iso denoted tzinfo]. split.
  - rewrite (isoformat_denoted _ _ _ _ _ _ _ _ _ _ _ _ _ _ f1 f2 f3 f4 f5 f6) by auto.
    cbn [Z.eqb]. by rewrite app_nil_r.
  - by rewrite (isoformat_denoted _ _ _ _ _ _ _ _ _ _ _ _ _ _ f1 f2 f3 f4 f5 f6) by auto.
Qed.

(** X7. On two dates without zone, the order of the texts that [dt_iso]
    gives, which is the order [main] compares starts and ends by, is the
    order of the dates, which is the order [collect_segments] compares them
    by. *)
Theorem dt_iso_order (L : pylib) (a b : datetime) :
  valid_datetime a → valid_datetime b → tzinfo a = None → tzinfo b = None →
  ∃ sa sb, dt_iso L (Some a) = Ok (Some sa) ∧ dt_iso L (Some b) = Ok (Some sb)
           ∧ dt_lt L a b = Ok (String.ltb sa sb)
           ∧ dt_gt L a b = Ok (String.ltb sb sa).
Proof.
  intros Ha Hb Na Nb. exists (isoformat a), (isoformat b).
  unfold dt_iso, dt_gt, dt_lt. rewrite Na, Nb.
  by rewrite !isoformat_order.
Qed.

(** ** The run, event by event *)

Lemma for_each_inv {S A B} (body : S → A → result S) (f : A → list B)
    (I : list B → S → Prop) :
  (∀ done x s s', I done s → body s x = Ok s' → I (done ++ f x) s') →
  ∀ xs done s s', I done s → for_each body xs s = Ok s' → I (done ++ concat (map f xs)) s'.
Proof.
  intros Hbody xs. induction xs as [|x xs IH]; intros done s s' HI H; cbn in *.
  - injection H as <-. by rewrite app_nil_r.
  - bind_inv H as s1 H1. rewrite app_assoc. eapply IH; [|done]. by eapply Hbody.
Qed.

Lemma concat_singletons {A B} (f : A → B) (l : list A) :
  concat (map (λ x, [f x]) l) = f <$> l.
Proof. induction l as [|x l IH]; [done|]. cbn. by rewrite IH. Qed.

Section Run.
Context (L : pylib) (airport_index : gmap string airport).

(** What holds after every event holds after the run. *)
Lemma collect_segments_inv
    (I : list located → list SegmentRecord * list EventSummary → Prop)
    (raw_dir : list source_file) out :
  I [] ([], []) →
  (∀ done e st st',
     I done st →
     process_event L airport_index (l_stem e) (l_gk e) (l_name e) st (l_index e, l_event e)
     = Ok st' →
     I (done ++ [e]) st') →
  collect_segments L airport_index raw_dir = Ok out →
  I (run_events L raw_dir) out.
Proof.
  intros H0 Hstep H. unfold collect_segments in H.
  apply (for_each_inv _ (file_events L) I) with (done := []) in H; [done| |done].
  clear H. intros done p st st' HI H. unfold process_file, file_events in *.
  destruct (content p) as [obj|]; [|injection H as <-; by rewrite app_nil_r].
  bind_inv H as tripID H1. bind_inv H as customName H2. bind_inv H as name H3.
  bind_inv H as tripEvents H4. bind_inv H as events H5.
  rewrite (get_Ok _ _ _ H1), (get_Ok _ _ _ H2), (get_Ok _ _ _ H3), (items_Ok _ _ _ H4 H5).
  rewrite <- concat_singletons.
  eapply (for_each_inv _ _ I); [|done|exact H].
  intros done' [i ev] s s' HI' Hev. by apply (Hstep done' (Build_located _ _ _ i ev) s s').
Qed.

Lemma lodging_shortcut_defined stem gk name st ev_i ev st' :
  process_event L airport_index stem gk name st (ev_i, ev) = Ok st' →
  ∃ b, lodging_shortcut (event_type ev) ev = Ok b.
Proof.
  destruct st as [segs evs]. unfold process_event. intros H.
  bind_inv H as UIDescription H1. bind_inv H as id H2. bind_inv H as b Hb.
  exists b. unfold event_type. by rewrite H1.
Qed.

(** An event adds records that carry its trip key, the trip group key and
    the trip name of its file, and at most one summary, which carries them
    too; it adds a summary whenever it adds a record. *)
Lemma process_event_step stem gk name segs evs ev_i ev segs' evs' :
  process_event L airport_index stem gk name (segs, evs) (ev_i, ev) = Ok (segs', evs') →
  let key := event_key L stem ev_i ev in
  ∃ new,
    segs' = segs ++ new
    ∧ Forall (λ r, trip_key r = key ∧ trip_group_key r = gk ∧ trip_name r = name
                   ∧ type r = py_str L (event_type ev)) new
    ∧ ((evs' = evs ∧ new = [])
       ∨ ∃ s, evs' = evs ++ [s] ∧ tripKey s = key ∧ tripGroupKey s = gk ∧ tripName s = name
              ∧ ((type_ s = "Hotel" ∧ segmentCount s = 0%nat ∧ new = [])
                 ∨ (type_ s = py_str L (event_type ev)
                    ∧ segmentCount s = count_key segs' key))).
Proof.
  intros H key. destruct (lodging_shortcut_defined _ _ _ _ _ _ _ H) as [[] Hb].
  - apply process_event_lodging in H as (-> & s & -> & ? & ? & ? & ? & ?); [|done].
    exists []. split; [by rewrite app_nil_r|]. split; [constructor|].
    right. exists s. repeat split; try done. by left.
  - apply process_event_transport in H as ((new & -> & Hnew) & Hevs); [|done].
    exists new. split; [done|]. split.
    + clear Hevs. induction Hnew as [|seg r raws new Hr _ IH]; constructor; [|done].
      by destruct Hr as (? & ? & ? & ? & ? & ? & _ & ? & ? & ? & ? & _).
    + destruct (raw_segments ev) as [|seg raws].
      * left. split; [done|]. rewrite filter_nil in Hnew. by inversion Hnew.
      * right. destruct Hevs as (s & -> & (? & ? & ? & ?) & ?).
        exists s. repeat split; try done. by right.
Qed.

End Run.

(** ** Records and their summaries *)

Lemma count_key_none (segs : list SegmentRecord) (key : string) :
  Forall (λ r, trip_key r ≠ key) segs → count_key segs key = 0%nat.
Proof.
  induction 1 as [|r segs Hr _ IH]; [done|].
  unfold count_key in *. rewrite filter_cons. by rewrite decide_False.
Qed.

Lemma count_key_other (segs new : list SegmentRecord) (key key' : string) :
  Forall (λ r, trip_key r = key) new → key' ≠ key →
  count_key (segs ++ new) key' = count_key segs key'.
Proof.
  intros Hnew Hne. unfold count_key. rewrite filter_app, length_app.
  fold (count_key new key'). rewrite count_key_none; [lia|].
  eapply Forall_impl; [exact Hnew|]. cbn. congruence.
Qed.

Lemma NoDup_fmap_eq {A B} (f : A → B) (l : list A) (x y : A) :
  NoDup (f <$> l) → x ∈ l → y ∈ l → f x = f y → x = y.
Proof.
  induction l as [|z l IH]; [by intros _ ?%elem_of_nil|].
  rewrite fmap_cons, NoDup_cons. intros [Hz Hl] Hx Hy Hf.
  apply elem_of_cons in Hx as [->|Hx], Hy as [->|Hy]; [done| | |by apply IH].
  - exfalso. apply Hz. rewrite Hf. by apply list_elem_of_fmap_2.
  - exfalso. apply Hz. rewrite <- Hf. by apply list_elem_of_fmap_2.
Qed.

Lemma sum_list_snoc (l : list nat) (n : nat) : sum_list (l ++ [n]) = (sum_list l + n)%nat.
Proof. induction l as [|m l IH]; cbn; lia. Qed.

Section RunCounts.
Context (L : pylib) (airport_index : gmap string airport).

(** When the trip keys of the events are pairwise distinct, the summaries
    count the records of their event, each record once. *)
Lemma distinct_keys_count (raw_dir : list source_file) segs evs :
  collect_segments L airport_index raw_dir = Ok (segs, evs) →
  NoDup (run_keys L raw_dir) →
  NoDup (tripKey <$> evs)
  ∧ (∀ s, s ∈ evs → segmentCount s = count_key segs (tripKey s))
  ∧ sum_list (segmentCount <$> evs) = length segs
  ∧ Forall (λ r, trip_key r ∈ tripKey <$> evs) segs.
Proof.
  intros H Hnd.
  pose proof (collect_segments_inv L airport_index
    (λ done st, NoDup (l_key L <$> done) →
       Forall (λ r, trip_key r ∈ l_key L <$> done) st.1
       ∧ Forall (λ s, tripKey s ∈ l_key L <$> done) st.2
       ∧ NoDup (tripKey <$> st.2)
       ∧ (∀ s, s ∈ st.2 → segmentCount s = count_key st.1 (tripKey s))
       ∧ sum_list (segmentCount <$> st.2) = length st.1
       ∧ Forall (λ r, trip_key r ∈ tripKey <$> st.2) st.1) raw_dir (segs, evs)) as Hinv.
  cbn beta in Hinv.
  destruct Hinv as (_ & _ & ? & ? & ? & ?); [| |exact H|exact Hnd|done]; clear H Hnd.
  - intros _. cbn. repeat split; try constructor. by intros s ?%elem_of_nil.
  - clear. intros done e [segs evs] [segs' evs'] IH Hev Hnd. cbn [fst snd] in *.
    rewrite fmap_app, NoDup_app in Hnd. destruct Hnd as (Hnd & Hfresh & _).
    destruct (IH Hnd) as (Hsegs & Hevs & Hkeys & Hcount & Hsum & Hhas). clear IH.
    assert (Hk : l_key L e ∉ l_key L <$> done).
    { intros Hin. apply (Hfresh _ Hin). cbn. by apply list_elem_of_singleton. }
    apply process_event_step in Hev as (new & -> & Hnew & Hsum').
    fold (l_key L e) in Hnew, Hsum'.
    assert (Hnewk : Forall (λ r, trip_key r = l_key L e) new)
      by (eapply Forall_impl; [exact Hnew|]; by intros ? [? _]).
    assert (Hzero : count_key segs (l_key L e) = 0%nat).
    { apply count_key_none. eapply Forall_impl; [exact Hsegs|]. cbn. congruence. }
    split; [|split; [|split; [|split; [|split]]]].
    + rewrite fmap_app. apply Forall_app. split.
      * eapply Forall_impl; [exact Hsegs|]. cbn. intros r ?. apply elem_of_app. by left.
      * eapply Forall_impl; [exact Hnewk|]. cbn. intros r ->. apply elem_of_app. right.
        by apply list_elem_of_singleton.
    + rewrite fmap_app.
      assert (Forall (λ s, tripKey s ∈ (l_key L <$> done) ++ (l_key L <$> [e])) evs).
      { eapply Forall_impl; [exact Hevs|]. cbn. intros s ?. apply elem_of_app. by left. }
      destruct Hsum' as [[-> _]|(s & -> & Hsk & _)]; [done|].
      apply Forall_app. split; [done|]. constructor; [|constructor].
      apply elem_of_app. right. rewrite Hsk. by apply list_elem_of_singleton.
    + destruct Hsum' as [[-> _]|(s & -> & Hsk & _)]; [done|].
      rewrite fmap_app. apply NoDup_app. split; [done|]. split; [|by apply NoDup_singleton].
      intros k Hin ->%list_elem_of_singleton. apply Hk. rewrite <- Hsk.
      apply list_elem_of_fmap in Hin as (s0 & -> & Hs0).
      rewrite Forall_forall in Hevs. by apply Hevs.
    + assert (Hold : ∀ s, s ∈ evs → segmentCount s = count_key (segs ++ new) (tripKey s)).
      { intros s Hs. rewrite count_key_other with (key := l_key L e); [by apply Hcount|done|].
        intros E. apply Hk. rewrite <- E. rewrite Forall_forall in Hevs. by apply Hevs. }
      destruct Hsum' as [[-> _]|(s & -> & Hsk & _ & _ & [(_ & Hc & ->)|[_ Hc]])]; [done| |].
      * intros s0 [Hs0| ->%list_elem_of_singleton]%elem_of_app; [by apply Hold|].
        by rewrite Hc, Hsk, app_nil_r, Hzero.
      * intros s0 [Hs0| ->%list_elem_of_singleton]%elem_of_app; [by apply Hold|].
        by rewrite Hc, Hsk.
    + rewrite length_app.
      destruct Hsum' as [[-> ->]|(s & -> & Hsk & _ & _ & [(_ & Hc & ->)|[_ Hc]])]; [cbn; lia| |].
      * rewrite fmap_app. change (segmentCount <$> [s]) with [segmentCount s].
        rewrite sum_list_snoc. cbn. lia.
      * rewrite fmap_app. change (segmentCount <$> [s]) with [segmentCount s].
        rewrite sum_list_snoc. rewrite Hc, count_key_app, Hzero by done. lia.
    + apply Forall_app. split.
      * eapply Forall_impl; [exact Hhas|]. cbn. intros r Hr.
        destruct Hsum' as [[-> _]|(s & -> & _)]; [done|].
        rewrite fmap_app. apply elem_of_app. by left.
      * destruct Hsum' as [[_ ->]|(s & -> & Hsk & _)]; [constructor|].
        eapply Forall_impl; [exact Hnewk|]. cbn. intros r ->.
        rewrite fmap_app. apply elem_of_app. right. rewrite <- Hsk. by left.
Qed.

(** X11. In every run that completes, each record has a summary of its
    event: a summary with the trip key, the trip group key, the trip name
    and the category of the record, that counts one segment at least. *)
Theorem segments_have_summaries (raw_dir : list source_file) segs evs :
  collect_segments L airport_index raw_dir = Ok (segs, evs) →
  ∀ r, r ∈ segs →
    ∃ s, s ∈ evs ∧ tripKey s = trip_key r ∧ tripGroupKey s = trip_group_key r
         ∧ tripName s = trip_name r ∧ type_ s = type r ∧ (1 ≤ segmentCount s)%nat.
Proof.
  refine (collect_segments_inv L airport_index
    (λ _ st, ∀ r, r ∈ st.1 →
       ∃ s, s ∈ st.2 ∧ tripKey s = trip_key r ∧ tripGroupKey s = trip_group_key r
            ∧ tripName s = trip_name r ∧ type_ s = type r ∧ (1 ≤ segmentCount s)%nat)
    raw_dir (segs, evs) _ _); [by intros r ?%elem_of_nil|].
  clear. intros _ e [segs evs] [segs' evs'] IH Hev r Hr. cbn [fst snd] in *.
  apply process_event_step in Hev as (new & -> & Hnew & Hevs).
  apply elem_of_app in Hr as [Hr|Hr].
  - destruct (IH r Hr) as (s & Hs & ?). exists s. split; [|done].
    destruct Hevs as [[-> _]|(s' & -> & _)]; [done|]. apply elem_of_app. by left.
  - destruct Hevs as [[_ ->]|(s & -> & Hk & Hg & Hn & [(_ & _ & ->)|[Ht Hc]])];
      [by apply elem_of_nil in Hr..|].
    pose proof Hnew as Hall. rewrite Forall_forall in Hnew.
    destruct (Hnew r Hr) as (Hrk & Hrg & Hrn & Hrt).
    exists s. split; [apply elem_of_app; right; by apply list_elem_of_singleton|].
    repeat split; try congruence.
    rewrite Hc, count_key_app by (eapply Forall_impl; [exact Hall|]; by intros ? [? _]).
    destruct new; [by apply elem_of_nil in Hr | cbn; lia].
Qed.

(** X12. When the trip keys of the events of a run are pairwise distinct,
    so are those of the summaries; each summary counts the records that
    carry its trip key in the whole output, the counts add up to the number
    of records, and each record has the trip key of one summary only. *)
Theorem distinct_keys_counts (raw_dir : list source_file) segs evs :
  collect_segments L airport_index raw_dir = Ok (segs, evs) →
  NoDup (run_keys L raw_dir) →
  NoDup (tripKey <$> evs)
  ∧ (∀ s, s ∈ evs → segmentCount s = count_key segs (tripKey s))
  ∧ sum_list (segmentCount <$> evs) = length segs
  ∧ (∀ r, r ∈ segs →
       ∃ s, s ∈ evs ∧ tripKey s = trip_key r
            ∧ ∀ s', s' ∈ evs → tripKey s' = trip_key r → s' = s).
Proof.
  intros H Hnd.
  destruct (distinct_keys_count _ _ _ H Hnd) as (Hkeys & Hcount & Hsum & Hhas).
  split; [done|]. split; [done|]. split; [done|]. intros r Hr.
  rewrite Forall_forall in Hhas.
  destruct (proj1 (list_elem_of_fmap _ _ _) (Hhas r Hr)) as (s & Hk & Hs).
  exists s. split; [done|]. split; [done|]. intros s' Hs' Hk'.
  apply (NoDup_fmap_eq tripKey evs); [done..|congruence].
Qed.

End RunCounts.

(** ** Trip keys without ids *)

Lemma digit_val_char (k : nat) : (k < 10)%nat → digit_val (digit_char k) = Z.of_nat k.
Proof. intros H. do 10 (destruct k as [|k]; [reflexivity|]). lia. Qed.

Lemma is_digit_char (k : nat) : (k < 10)%nat → is_digit (digit_char k) = true.
Proof. intros H. do 10 (destruct k as [|k]; [reflexivity|]). lia. Qed.

Lemma decimal_of_digits (n : N) : Forall (λ c, is_digit c = true) (decimal_of n).
Proof.
  induction (N.lt_wf_0 n) as [n _ IH].
  destruct (N.lt_ge_cases n 10) as [Hs|Hl].
  - rewrite decimal_of_small by done. constructor; [|constructor]. apply is_digit_char. lia.
  - rewrite decimal_of_step by done. apply Forall_app. split.
    + apply IH. apply N.div_lt; lia.
    + constructor; [|constructor]. apply is_digit_char.
      pose proof (N.mod_lt n 10 ltac:(lia)). lia.
Qed.

Lemma decimal_of_value (n : N) : int_of_digits (decimal_of n) = Z.of_N n.
Proof.
  induction (N.lt_wf_0 n) as [n _ IH].
  destruct (N.lt_ge_cases n 10) as [Hs|Hl].
  - rewrite decimal_of_small by done. unfold int_of_digits. cbn [fold_left].
    rewrite digit_val_char by lia. lia.
  - rewrite decimal_of_step, int_of_digits_snoc by done.
    pose proof (N.mod_lt n 10 ltac:(lia)).
    rewrite IH by (apply N.div_lt; lia). rewrite digit_val_char by lia.
    pose proof (N.div_mod n 10 ltac:(lia)). lia.
Qed.

Lemma str_of_nat_inj (i j : nat) : str_of_Z (Z.of_nat i) = str_of_Z (Z.of_nat j) → i = j.
Proof.
  assert (H : ∀ k, str_of_Z (Z.of_nat k) = text (decimal_of (N.of_nat k))).
  { intros k. unfold decimal_of. rewrite text_chars.
    destruct k; [done|]. cbn [Z.of_nat str_of_Z]. f_equal; lia. }
  rewrite !H. intros E. apply (f_equal chars) in E. rewrite !chars_text in E.
  apply (f_equal int_of_digits) in E. rewrite !decimal_of_value in E. lia.
Qed.

Lemma str_of_nat_digits (i : nat) :
  Forall (λ c, is_digit c = true) (chars (str_of_Z (Z.of_nat i))).
Proof.
  assert (str_of_Z (Z.of_nat i) = text (decimal_of (N.of_nat i))) as ->.
  { unfold decimal_of. rewrite text_chars.
    destruct i; [done|]. cbn [Z.of_nat str_of_Z]. f_equal; lia. }
  rewrite chars_text. apply decimal_of_digits.
Qed.

(** A text is cut in one way only at its last colon. *)
Lemma last_colon (l1 l2 d1 d2 : list ascii) :
  ":"%char ∉ d1 → ":"%char ∉ d2 →
  l1 ++ ":"%char :: d1 = l2 ++ ":"%char :: d2 → l1 = l2 ∧ d1 = d2.
Proof.
  intros H1 H2. revert l2. induction l1 as [|c l1 IH]; intros [|c' l2] E; cbn in E.
  - by injection E.
  - injection E as <- ->. exfalso. apply H1. apply elem_of_app. right. by left.
  - injection E as -> <-. exfalso. apply H2. apply elem_of_app. right. by left.
  - injection E as -> E. by destruct (IH _ E) as [-> ->].
Qed.

Lemma chars_inj (a b : string) : chars a = chars b → a = b.
Proof. intros E. by rewrite <- (text_chars a), <- (text_chars b), E. Qed.

Lemma position_key_inj : Inj (=) (=) position_key.
Proof.
  intros [s1 i1] [s2 i2] E. unfold position_key in E. cbn [fst snd] in E.
  apply (f_equal chars) in E. rewrite !chars_app in E.
  change (chars ":") with [":"%char] in E. cbn [app] in E.
  apply last_colon in E as [Es Ei].
  - f_equal; [by apply chars_inj | by apply str_of_nat_inj, chars_inj].
  - intros Hin. pose proof (str_of_nat_digits i1) as Hd. rewrite Forall_forall in Hd.
    by specialize (Hd _ Hin).
  - intros Hin. pose proof (str_of_nat_digits i2) as Hd. rewrite Forall_forall in Hd.
    by specialize (Hd _ Hin).
Qed.

Lemma elem_of_concat {A} (x : A) (ls : list (list A)) :
  x ∈ concat ls → ∃ l, l ∈ ls ∧ x ∈ l.
Proof.
  induction ls as [|l ls IH]; cbn; [by intros ?%elem_of_nil|].
  intros [H|H]%elem_of_app.
  - exists l. split; [by left | done].
  - destruct (IH H) as (l' & ? & ?). exists l'. split; [by right | done].
Qed.

Section Keys.
Context (L : pylib).

Lemma no_id_key (e : located) :
  no_id (l_event e) → l_key L e = position_key (l_stem e, l_index e).
Proof.
  intros (kv & Hev & Hid). unfold l_key, event_key, position_key. rewrite Hev.
  cbn [py_get_default]. by rewrite Hid.
Qed.

Lemma file_events_stem (p : source_file) (e : located) :
  e ∈ file_events L p → l_stem e = stem p.
Proof.
  unfold file_events. destruct (content p); [|by intros ?%elem_of_nil].
  by intros (iev & -> & _)%list_elem_of_fmap.
Qed.

Lemma file_events_positions (p : source_file) :
  NoDup ((λ e, (l_stem e, l_index e)) <$> file_events L p).
Proof.
  unfold file_events. destruct (content p) as [obj|]; [|constructor].
  rewrite <- list_fmap_compose.
  set (evs := items (py_get obj "tripEvents")).
  assert ((λ e : located, (l_stem e, l_index e))
            ∘ (λ iev : nat * json,
                 {| l_stem := stem p;
                    l_gk := py_str L (get obj "tripID" ||| JStr (stem p));
                    l_name := py_str L (get obj "customName" ||| get obj "name"
                                        ||| JStr (stem p));
                    l_index := iev.1; l_event := iev.2 |})
          = (λ i, (stem p, i)) ∘ fst) as -> by done.
  rewrite list_fmap_compose. unfold enumerate. rewrite fst_zip by (rewrite length_seq; lia).
  apply NoDup_fmap_2; [|apply NoDup_seq]. by intros i j [= ->].
Qed.

Lemma run_events_positions (raw_dir : list source_file) :
  NoDup (stem <$> raw_dir) →
  NoDup ((λ e, (l_stem e, l_index e)) <$> run_events L raw_dir).
Proof.
  induction raw_dir as [|p rest IH]; [constructor|].
  rewrite fmap_cons, NoDup_cons. intros [Hp Hrest].
  unfold run_events. cbn [map concat]. rewrite fmap_app. apply NoDup_app.
  split; [apply file_events_positions|]. split; [|by apply IH].
  intros [s i] (e & [= -> ->] & He)%list_elem_of_fmap (e' & [= Es Ei] & He')%list_elem_of_fmap.
  apply Hp. rewrite <- (file_events_stem _ _ He), Es.
  apply elem_of_concat in He' as (l & Hl & He').
  apply list_elem_of_In, in_map_iff in Hl as (p' & <- & Hp'%list_elem_of_In).
  rewrite (file_events_stem _ _ He'). by apply list_elem_of_fmap_2.
Qed.

(** Without ids, the trip keys of the run are pairwise distinct. *)
Lemma positions_distinct (raw_dir : list source_file) :
  NoDup (stem <$> raw_dir) →
  Forall (λ e, no_id (l_event e)) (run_events L raw_dir) →
  NoDup (run_keys L raw_dir).
Proof.
  intros Hstems Hno. unfold run_keys.
  rewrite (Forall_fmap_ext_1 (l_key L) (position_key ∘ (λ e, (l_stem e, l_index e))))
    by (eapply Forall_impl; [exact Hno|]; intros e ?; by apply no_id_key).
  rewrite list_fmap_compose.
  apply NoDup_fmap_2; [apply position_key_inj|]. by apply run_events_positions.
Qed.

(** X13. When no event of the input carries an id, the trip keys of the
    events of a run are pairwise distinct, the files of a directory having
    distinct stems: a key is the stem of the file followed by a colon and by
    the position of the event in the file. *)
Theorem keys_without_ids_distinct (raw_dir : list source_file) :
  NoDup (stem <$> raw_dir) →
  Forall (λ e, no_id (l_event e)) (run_events L raw_dir) →
  NoDup (run_keys L raw_dir)
  ∧ Forall (λ e, l_key L e = position_key (l_stem e, l_index e)) (run_events L raw_dir).
Proof.
  intros Hstems Hno. split; [by apply positions_distinct|].
  eapply Forall_impl; [exact Hno|]. intros e ?. by apply no_id_key.
Qed.

End Keys.

(** ** The dates of a summary *)

Lemma lex_lt_irrefl (l : list Z) : lex_lt l l = false.
Proof.
  induction l as [|x l IH]; [done|]. cbn. by rewrite Z.ltb_irrefl, Z.eqb_refl, IH.
Qed.

Lemma lex_lt_trans (a b c : list Z) :
  lex_lt a b = true → lex_lt b c = true → lex_lt a c = true.
Proof.
  revert b c. induction a as [|x a IH]; intros [|y b] [|z c]; cbn; try done.
  intros H1 H2.
  apply orb_true_iff in H1 as [H1%Z.ltb_lt|[H1%Z.eqb_eq H1']%andb_true_iff];
  apply orb_true_iff in H2 as [H2%Z.ltb_lt|[H2%Z.eqb_eq H2']%andb_true_iff];
  apply orb_true_iff.
  - left. apply Z.ltb_lt. lia.
  - left. apply Z.ltb_lt. lia.
  - left. apply Z.ltb_lt. lia.
  - right. apply andb_true_iff. split; [apply Z.eqb_eq; lia | by eapply IH].
Qed.

Lemma ltd_irrefl (a : datetime) : ltd a a = false.
Proof. apply lex_lt_irrefl. Qed.

Lemma ltd_trans (a b c : datetime) : ltd a b = true → ltd b c = true → ltd a c = true.
Proof. apply lex_lt_trans. Qed.

Lemma flip_ltd_trans (a b c : datetime) :
  flip ltd a b = true → flip ltd b c = true → flip ltd a c = true.
Proof. unfold flip. intros ? ?. by eapply ltd_trans. Qed.

Section Dates.
Context (L : pylib).

(** On dates without zone, the running start is the earlier of the two and
    the running end the later. *)
Lemma track_naive_pick (dt cur : option datetime) :
  naive dt → naive cur →
  track (dt_lt L) dt cur = Ok (pick present earlier dt cur)
  ∧ track (dt_gt L) dt cur = Ok (pick present later dt cur).
Proof.
  intros Hd Hc. destruct dt as [d|], cur as [c|]; try done.
  specialize (Hd d eq_refl). specialize (Hc c eq_refl).
  unfold track, dt_gt, dt_lt, pick. rewrite Hd, Hc. cbn.
  unfold ltd.
  split; [destruct (lex_lt (fields d) (fields c)) | destruct (lex_lt (fields c) (fields d))];
    reflexivity.
Qed.

Lemma track_cases before (dt cur r : option datetime) :
  track before dt cur = Ok r → r = dt ∨ r = cur.
Proof.
  destruct dt as [d|], cur as [c|]; cbn; try (intros [= <-]; by auto).
  destruct (before d c) as [[]|]; cbn; intros [= <-]; by auto.
Qed.

Lemma strptime_year (fmt : regex) (s : string) (d : datetime) :
  strptime fmt s = Some d → (1 ≤ dt_year d)%Z.
Proof.
  unfold strptime. destruct (re_match fmt (chars s)) as [[[|] m]|]; try done.
  case_match eqn:E; [|done]. intros [= <-].
  apply andb_prop in E as [E _]. apply andb_prop in E as [E _]. cbn in *. lia.
Qed.

Lemma parse_dt_year (v tzid : json) (d : datetime) :
  parse_dt L v tzid = Ok (Some d) → (1 ≤ dt_year d)%Z.
Proof.
  unfold parse_dt. destruct (negb (truthy v)); [done|]. destruct v; try done.
  destruct (strptime DATE_FMT _) as [d0|] eqn:E1.
  - apply strptime_year in E1. destruct (truthy tzid); by intros [= <-].
  - destruct (strptime FMT_SECONDS _) as [d0|] eqn:E2; [|done].
    apply strptime_year in E2. destruct (truthy tzid); by intros [= <-].
Qed.

Lemma chars_not_empty (s : string) : chars s ≠ [] → s ≠ "".
Proof. by destruct s. Qed.

Lemma isoformat_not_empty (d : datetime) (suffix : string) : isoformat d +:+ suffix ≠ "".
Proof.
  apply chars_not_empty. rewrite chars_app, chars_isoformat.
  intros [E _]%app_eq_nil. by apply app_eq_nil in E as [_ ?].
Qed.

(** The ISO text of a date: present exactly when the date is, and never
    empty. *)
Lemma dt_iso_present (d : option datetime) (s : option string) :
  dt_iso L d = Ok s → (s = None ↔ d = None) ∧ s ≠ Some "".
Proof.
  destruct d as [d|]; [|by intros [= <-]]. cbn.
  destruct (tzinfo d).
  - destruct (astimezone_utc L d) as [u|]; [|done]. cbn. intros [= <-].
    split; [done|]. intros [= E]. by apply isoformat_not_empty in E.
  - intros [= <-]. split; [done|]. intros [= E].
    apply (isoformat_not_empty d ""). rewrite E. reflexivity.
Qed.

End Dates.

(** ** The loops of an event *)

Section Anatomy.
Context (L : pylib) (airport_index : gmap string airport).

(** One turn of the loop over the segments. *)
Lemma process_segment_anatomy gk name key t st seg st' :
  process_segment L airport_index gk name key t st seg = Ok st' →
  seg_count st' = S (seg_count st)
  ∧ parse_dt L (get seg "departureDate") (get seg "departureTimeZoneID")
    = Ok (seg_departure L seg)
  ∧ parse_dt L (get seg "arrivalDate") (get seg "arrivalTimeZoneID")
    = Ok (seg_arrival L seg)
  ∧ track (dt_lt L) (seg_departure L seg) (start_dt st) = Ok (start_dt st')
  ∧ track (dt_gt L) (seg_arrival L seg) (end_dt st) = Ok (end_dt st')
  ∧ ((resolvable L airport_index seg = false
      ∧ segments st' = segments st ∧ title_guess st' = title_guess st)
     ∨ (resolvable L airport_index seg = true
        ∧ ∃ r, segments st' = segments st ++ [r]
             ∧ trip_group_key r = gk ∧ trip_name r = name ∧ trip_key r = key ∧ type r = t
             ∧ departure r = seg_departure L seg ∧ arrival r = seg_arrival L seg
             ∧ title_guess st' = guess (title_guess st) (route r))).
Proof.
  unfold process_segment. intros H.
  bind_inv H as departureDate H1. bind_inv H as departureTimeZoneID H2. bind_inv H as dep_dt H3.
  bind_inv H as arrivalDate H4. bind_inv H as arrivalTimeZoneID H5. bind_inv H as arr_dt H6.
  bind_inv H as sdt H7. bind_inv H as edt H8. bind_inv H as r Hr.
  apply get_Ok in H1, H2, H4, H5. subst.
  assert (Hd : seg_departure L seg = dep_dt) by (unfold seg_departure; by rewrite H3).
  assert (Ha : seg_arrival L seg = arr_dt) by (unfold seg_arrival; by rewrite H6).
  rewrite Hd, Ha. unfold resolvable. rewrite Hr.
  destruct r as [[[[dla dlo] dlab] [[ala alo] alab]]|]; injection H as <-;
    cbn [segments seg_count start_dt end_dt title_guess];
    (split; [done|]); (split; [done|]); (split; [done|]); (split; [done|]); (split; [done|]).
  - right. split; [done|]. eexists. split; [reflexivity|]. by repeat split.
  - by left.
Qed.

(** The loops over the legs and their segments are one loop over the raw
    segments of the event. *)
Lemma process_legs_flat gk name key t (legs : list json) st st' :
  for_each (process_leg L airport_index gk name key t) legs st = Ok st' →
  for_each (process_segment L airport_index gk name key t)
    (concat (map leg_segments legs)) st = Ok st'.
Proof.
  revert st. induction legs as [|leg legs IH]; intros st H; [done|].
  cbn [for_each] in H. bind_inv H as s1 H1. cbn [map concat].
  rewrite for_each_app. unfold process_leg in H1.
  bind_inv H1 as v Hv. bind_inv H1 as l Hl.
  change (leg_segments leg) with (items (py_get leg "segments")).
  rewrite (items_Ok _ _ _ Hv Hl), H1. cbn. by apply IH.
Qed.

Lemma seg_count_length gk name key t (raws : list json) st st' :
  for_each (process_segment L airport_index gk name key t) raws st = Ok st' →
  seg_count st' = (seg_count st + length raws)%nat.
Proof.
  revert st. induction raws as [|seg raws IH]; intros st H.
  - injection H as <-. cbn. lia.
  - cbn [for_each] in H. bind_inv H as s1 H1.
    apply process_segment_anatomy in H1 as (Hc & _). rewrite (IH _ H), Hc. cbn. lia.
Qed.

(** An event that does not take the lodging shortcut, in full. *)
Lemma process_event_loop stem gk name segs evs ev_i ev segs' evs' :
  process_event L airport_index stem gk name (segs, evs) (ev_i, ev) = Ok (segs', evs') →
  lodging_shortcut (event_type ev) ev = Ok false →
  let key := event_key L stem ev_i ev in
  let t := py_str L (event_type ev) in
  ∃ st,
    for_each (process_segment L airport_index gk name key t) (raw_segments ev)
      (first_state segs) = Ok st
    ∧ segs' = segments st
    ∧ match raw_segments ev with
      | [] => evs' = evs
      | _ :: _ =>
          ∃ start_iso end_iso,
            dt_iso L (start_dt st) = Ok start_iso ∧ dt_iso L (end_dt st) = Ok end_iso
            ∧ evs' = evs ++
                [{| tripGroupKey := gk; tripName := name; tripKey := key;
                    title := JStr match title_guess st with
                                  | None | Some "" => t +:+ " trip"
                                  | Some g => g
                                  end;
                    type_ := t; year := dt_year <$> start_dt st;
                    start := start_iso; end_ := end_iso;
                    segmentCount := count_key (segments st) key |}]
      end.
Proof.
  intros H Hshort key t. unfold process_event in H.
  bind_inv H as UIDescription H1. bind_inv H as id H2.
  assert (Ht : event_type ev = UIDescription ||| JStr "Other")
    by (unfold event_type; by rewrite H1).
  assert (Hkey : key = stem +:+ ":" +:+ py_str L id)
    by (unfold key, event_key; by rewrite H2).
  rewrite <- Ht, <- Hkey in H. rewrite Hshort in H. cbn [mbind result_bind] in H.
  bind_inv H as v Hv. bind_inv H as legs Hlegs. bind_inv H as st Hst.
  apply process_legs_flat in Hst.
  replace (concat (map leg_segments legs)) with (raw_segments ev) in Hst
    by (unfold raw_segments; by rewrite (items_Ok _ _ _ Hv Hlegs)).
  exists st. split; [exact Hst|].
  apply seg_count_length in Hst as Hcount. cbn [seg_count first_state] in Hcount.
  destruct (raw_segments ev) as [|seg raws] eqn:Eraw.
  - cbn in Hcount. rewrite Hcount in H. cbn in H. by injection H as <- <-.
  - assert ((0 <? seg_count st)%nat = true) as Hpos
      by (apply Nat.ltb_lt; rewrite Hcount; cbn; lia).
    rewrite Hpos in H. bind_inv H as start_iso Hs. bind_inv H as end_iso He.
    injection H as <- <-. split; [done|]. by exists start_iso, end_iso.
Qed.

(** An event that takes the lodging shortcut, in full. *)
Lemma process_event_hotel stem gk name segs evs ev_i ev segs' evs' :
  process_event L airport_index stem gk name (segs, evs) (ev_i, ev) = Ok (segs', evs') →
  lodging_shortcut (event_type ev) ev = Ok true →
  let addr := get ev "address" ||| JObj [] in
  ∃ lat lon start end_ start_iso end_iso,
    py_float L (get addr "latitude") = Ok lat
    ∧ py_float L (get addr "longitude") = Ok lon
    ∧ parse_dt L (get ev "venueStartDate") JNull = Ok start
    ∧ parse_dt L (get ev "venueEndDate") JNull = Ok end_
    ∧ dt_iso L start = Ok start_iso ∧ dt_iso L end_ = Ok end_iso
    ∧ segs' = segs
    ∧ evs' = evs ++
        [{| tripGroupKey := gk; tripName := name; tripKey := event_key L stem ev_i ev;
            title := get addr "locationName" ||| get addr "rawAddress" ||| JStr "Hotel";
            type_ := "Hotel"; year := dt_year <$> start;
            start := start_iso; end_ := end_iso; segmentCount := 0 |}].
Proof.
  intros H Hshort. unfold process_event in H.
  bind_inv H as UIDescription H1. bind_inv H as id H2.
  assert (Ht : event_type ev = UIDescription ||| JStr "Other")
    by (unfold event_type; by rewrite H1).
  rewrite <- Ht in H. rewrite Hshort in H. cbn [mbind result_bind] in H.
  bind_inv H as address Ha. bind_inv H as latitude Hlat. bind_inv H as lat Hla.
  bind_inv H as longitude Hlon. bind_inv H as lon Hlo. bind_inv H as locationName Hn.
  bind_inv H as rawAddress Hr. bind_inv H as venueStartDate Hvs. bind_inv H as start Hst.
  bind_inv H as venueEndDate Hve. bind_inv H as end_ Hen. bind_inv H as start_iso Hsi.
  bind_inv H as end_iso Hei. injection H as <- <-.
  apply get_Ok in Ha, Hvs, Hve. subst. apply get_Ok in Hlat, Hlon, Hn, Hr. subst.
  cbn zeta. exists lat, lon, start, end_, start_iso, end_iso.
  repeat split; try done. unfold event_key. by rewrite H2.
Qed.

End Anatomy.

(** ** The start, the end and the title of a summary *)

Lemma for_each_snoc_inv {S A} (body : S → A → result S) (I : list A → S → Prop) :
  (∀ done x s s', I done s → body s x = Ok s' → I (done ++ [x]) s') →
  ∀ xs s s', I [] s → for_each body xs s = Ok s' → I xs s'.
Proof.
  intros Hbody xs s s' H0 H.
  apply (for_each_inv body (λ x, [x]) I Hbody xs [] s s' H0) in H.
  by rewrite concat_singletons, list_fmap_id in H.
Qed.

Lemma least_Forall {A} (ltb : A → A → bool) (P : A → Prop) (xs : list A) (r : option A) :
  least ltb xs r → Forall P xs → ∀ m, r = Some m → P m.
Proof.
  intros Hl HP m ->. destruct Hl as [Hin _]. rewrite Forall_forall in HP. by apply HP.
Qed.

Lemma route_not_empty (r : SegmentRecord) : route r ≠ "".
Proof.
  apply chars_not_empty. unfold route. rewrite !chars_app.
  intros [_ E]%app_eq_nil. by apply app_eq_nil in E as [E _].
Qed.

Lemma guess_route (r r0 : SegmentRecord) :
  guess None (route r) = Some (route r)
  ∧ guess (Some (route r0)) (route r) = Some (route r0).
Proof.
  split; [done|]. pose proof (route_not_empty r0). unfold guess. by destruct (route r0).
Qed.

Section EventProperties.
Context (L : pylib) (airport_index : gmap string airport).

Lemma naive_omap (f : json → option datetime) (raws : list json) :
  Forall (λ seg, naive (f seg)) raws → Forall (λ d, tzinfo d = None) (omap f raws).
Proof.
  induction 1 as [|seg raws H _ IH]; [constructor|]. cbn.
  destruct (f seg) as [d|] eqn:E; [|done]. constructor; [by apply H | done].
Qed.

Lemma least_naive ltb (f : json → option datetime) (raws : list json) r :
  least ltb (omap f raws) r → Forall (λ seg, naive (f seg)) raws → naive r.
Proof.
  intros Hl Hn m Hm.
  by apply (least_Forall ltb (λ d, tzinfo d = None) _ _ Hl (naive_omap _ _ Hn)).
Qed.

Lemma loop_dates gk name key t (raws : list json) segs st :
  for_each (process_segment L airport_index gk name key t) raws (first_state segs) = Ok st →
  Forall (naive_segment L) raws →
  least ltd (omap (seg_departure L) raws) (start_dt st)
  ∧ least (flip ltd) (omap (seg_arrival L) raws) (end_dt st).
Proof.
  apply (for_each_snoc_inv _
    (λ done st, Forall (naive_segment L) done →
       least ltd (omap (seg_departure L) done) (start_dt st)
       ∧ least (flip ltd) (omap (seg_arrival L) done) (end_dt st))); [|done].
  clear. intros done seg st st' IH H Hn.
  apply Forall_app in Hn as [Hdone Hseg]. rewrite Forall_singleton in Hseg.
  destruct Hseg as [Hdep Harr]. destruct (IH Hdone) as [Hs He]. clear IH.
  apply process_segment_anatomy in H as (_ & _ & _ & Hts & Hte & _).
  assert (Hns : naive (start_dt st)).
  { apply (least_naive _ _ _ _ Hs). eapply Forall_impl; [exact Hdone|]. by intros ? [? _]. }
  assert (Hne : naive (end_dt st)).
  { apply (least_naive _ _ _ _ He). eapply Forall_impl; [exact Hdone|]. by intros ? [_ ?]. }
  destruct (track_naive_pick L _ _ Hdep Hns) as [E1 _].
  destruct (track_naive_pick L _ _ Harr Hne) as [_ E2].
  rewrite E1 in Hts. rewrite E2 in Hte. injection Hts as <-. injection Hte as <-.
  rewrite !omap_snoc. split.
  - apply (pick_least present earlier ltd); try done.
    + apply ltd_irrefl.
    + apply ltd_trans.
    + by apply Forall_forall.
  - apply (pick_least present later (flip ltd)); try done.
    + intros x. apply ltd_irrefl.
    + apply flip_ltd_trans.
    + by apply Forall_forall.
Qed.

Lemma loop_title gk name key t (raws : list json) segs st :
  for_each (process_segment L airport_index gk name key t) raws (first_state segs) = Ok st →
  ∃ new, segments st = segs ++ new
         ∧ title_guess st = match new with [] => None | r :: _ => Some (route r) end.
Proof.
  apply (for_each_snoc_inv _
    (λ _ st, ∃ new, segments st = segs ++ new
       ∧ title_guess st = match new with [] => None | r :: _ => Some (route r) end)).
  - clear. intros _ seg st st' (new & Hsegs & Htitle) H.
    apply process_segment_anatomy in H
      as (_ & _ & _ & _ & _ & [(_ & Hs & Ht)|(_ & r & Hs & _ & _ & _ & _ & _ & _ & Ht)]).
    + exists new. by rewrite Hs, Ht.
    + exists (new ++ [r]). rewrite Hs, Hsegs, Ht, Htitle, app_assoc. split; [done|].
      destruct new as [|r0 new]; cbn [app];
        [exact (proj1 (guess_route r r)) | exact (proj2 (guess_route r r0))].
  - exists []. cbn. by rewrite app_nil_r.
Qed.

Lemma loop_years gk name key t (raws : list json) segs st :
  for_each (process_segment L airport_index gk name key t) raws (first_state segs) = Ok st →
  ∀ d, start_dt st = Some d → (1 ≤ dt_year d)%Z.
Proof.
  apply (for_each_snoc_inv _ (λ _ st, ∀ d, start_dt st = Some d → (1 ≤ dt_year d)%Z)); [|done].
  clear. intros _ seg st st' IH H d Hd.
  apply process_segment_anatomy in H as (_ & Hp & _ & Ht & _).
  apply track_cases in Ht as [E|E]; rewrite E in Hd.
  - rewrite Hd in Hp. by apply parse_dt_year in Hp.
  - by apply IH.
Qed.

(** X9. The summary of an event whose dates carry no zone: its start is
    the ISO text of the earliest departure among the raw segments of the
    event, resolved or not, its end the ISO text of the latest arrival, and
    its year the year of that departure; each is absent when no raw segment
    has such a date. *)
Theorem event_dates stem gk name segs evs ev_i ev segs' evs' :
  process_event L airport_index stem gk name (segs, evs) (ev_i, ev) = Ok (segs', evs') →
  lodging_shortcut (event_type ev) ev = Ok false →
  raw_segments ev ≠ [] →
  Forall (naive_segment L) (raw_segments ev) →
  ∃ s first last,
    evs' = evs ++ [s]
    ∧ least ltd (omap (seg_departure L) (raw_segments ev)) first
    ∧ least (flip ltd) (omap (seg_arrival L) (raw_segments ev)) last
    ∧ start s = isoformat <$> first ∧ end_ s = isoformat <$> last
    ∧ year s = dt_year <$> first.
Proof.
  intros H Hshort Hraw Hnaive.
  apply process_event_loop in H as (st & Hloop & _ & Hevs); [|done].
  destruct (loop_dates _ _ _ _ _ _ _ Hloop Hnaive) as [Hs He].
  destruct (raw_segments ev) as [|seg raws] eqn:Eraw; [done|].
  destruct Hevs as (start_iso & end_iso & Hsi & Hei & ->).
  assert (Hns : naive (start_dt st)).
  { apply (least_naive _ _ _ _ Hs). eapply Forall_impl; [exact Hnaive|]. by intros ? [? _]. }
  assert (Hne : naive (end_dt st)).
  { apply (least_naive _ _ _ _ He). eapply Forall_impl; [exact Hnaive|]. by intros ? [_ ?]. }
  eexists _, (start_dt st), (end_dt st). split; [reflexivity|].
  split; [done|]. split; [done|]. cbn [start end_ year].
  repeat split.
  - destruct (start_dt st) as [d|]; [|by injection Hsi]. cbn in Hsi.
    rewrite (Hns d eq_refl) in Hsi. by injection Hsi.
  - destruct (end_dt st) as [d|]; [|by injection Hei]. cbn in Hei.
    rewrite (Hne d eq_refl) in Hei. by injection Hei.
Qed.

(** X10. The title of the summary of an event: the labels of the two ends
    of the first record of the event, joined by an arrow, and the category
    followed by "trip" when the event gave no record. *)
Theorem event_title stem gk name segs evs ev_i ev segs' evs' :
  process_event L airport_index stem gk name (segs, evs) (ev_i, ev) = Ok (segs', evs') →
  lodging_shortcut (event_type ev) ev = Ok false →
  raw_segments ev ≠ [] →
  ∃ s new,
    evs' = evs ++ [s] ∧ segs' = segs ++ new
    ∧ title s = JStr (summary_title (py_str L (event_type ev)) new).
Proof.
  intros H Hshort Hraw.
  apply process_event_loop in H as (st & Hloop & -> & Hevs); [|done].
  destruct (loop_title _ _ _ _ _ _ _ Hloop) as (new & Hsegs & Htitle).
  destruct (raw_segments ev) as [|seg raws] eqn:Eraw; [done|].
  destruct Hevs as (start_iso & end_iso & _ & _ & ->).
  eexists _, new. split; [reflexivity|]. split; [done|]. cbn [title]. f_equal.
  rewrite Htitle. destruct new as [|r new]; [done|]. cbn [summary_title].
  pose proof (route_not_empty r). by destruct (route r).
Qed.

(** X8. In every run that completes, a start or an end of a summary is
    never the empty text, a summary has a year exactly when it has a start,
    and the year is 1 at least: the summaries are as the grouping of [main]
    expects them. *)
Theorem summaries_dated (raw_dir : list source_file) segs evs :
  collect_segments L airport_index raw_dir = Ok (segs, evs) → Forall dated evs.
Proof.
  refine (collect_segments_inv L airport_index (λ _ st, Forall dated st.2)
            raw_dir (segs, evs) _ _); [constructor|].
  clear. intros _ e [segs evs] [segs' evs'] IH Hev. cbn [fst snd] in *.
  destruct (lodging_shortcut_defined _ _ _ _ _ _ _ _ _ Hev) as [[] Hb].
  - apply process_event_hotel in Hev
      as (lat & lon & start0 & end0 & si & ei & _ & _ & Hs & _ & Hsi & Hei & _ & ->); [|done].
    apply Forall_app. split; [done|]. constructor; [|constructor].
    destruct (dt_iso_present L _ _ Hsi) as [Hs1 Hs2], (dt_iso_present L _ _ Hei) as [_ He2].
    split; [|split]; cbn [year start end_].
    + split; [done|]. split; [done|]. destruct start0 as [d|]; [|done].
      apply parse_dt_year in Hs. cbn. intros [= E]. lia.
    + rewrite Hs1. by destruct start0.
    + destruct start0 as [d|]; [|done]. apply parse_dt_year in Hs. by intros y [= <-].
  - apply process_event_loop in Hev as (st & Hloop & _ & Hevs); [|done].
    pose proof (loop_years _ _ _ _ _ _ _ Hloop) as Hy.
    destruct (raw_segments (l_event e)); [by rewrite Hevs|].
    destruct Hevs as (si & ei & Hsi & Hei & ->).
    apply Forall_app. split; [done|]. constructor; [|constructor].
    destruct (dt_iso_present L _ _ Hsi) as [Hs1 Hs2], (dt_iso_present L _ _ Hei) as [_ He2].
    split; [|split]; cbn [year start end_].
    + split; [done|]. split; [done|]. destruct (start_dt st) as [d|]; [|done].
      specialize (Hy d eq_refl). cbn. intros [= E]. lia.
    + rewrite Hs1. by destruct (start_dt st).
    + destruct (start_dt st) as [d|]; [|done]. specialize (Hy d eq_refl). by intros y [= <-].
Qed.

End EventProperties.

(** ** Addresses *)

Section Address.
Context (L : pylib).

(** X5. [coords_from_address] raises only on an argument that is not a
    dict and not falsy, an [AttributeError]. On a dict, or a falsy value, it
    returns the raw address text and, with it, both coordinates or neither:
    both when latitude and longitude are present and [float] accepts each,
    neither otherwise, the exception of [float] being swallowed. *)
Theorem coords_from_address_closed_form (addr : json) :
  coords_from_address L addr =
  if truthy addr && negb (is_dict addr) then Raise AttributeError
  else Ok (fst <$> direct_coords L addr, snd <$> direct_coords L addr, address_raw L addr).
Proof.
  unfold coords_from_address, direct_coords, address_raw, get.
  destruct addr as [| [] | z | f | s | l | kv]; try reflexivity.
  - cbn [truthy]. destruct (negb (z =? 0)%Z); reflexivity.
  - cbn [truthy]. destruct (negb (PrimFloat.eqb f 0)); reflexivity.
  - cbn [truthy]. destruct (negb (String.eqb s "")); reflexivity.
  - cbn [truthy]. destruct (negb (bool_decide (l = []))); reflexivity.
  - destruct kv as [|p kv]; [reflexivity|].
    change (truthy (JObj (p :: kv))) with true.
    cbn [negb andb is_dict py_get py_get_default mbind result_bind try_except].
    generalize (default JNull (assoc "latitude" (p :: kv))) as lat.
    generalize (default JNull (assoc "longitude" (p :: kv))) as lon.
    generalize (raw_text L (default JNull (assoc "rawAddress" (p :: kv)))) as raw.
    intros raw lon lat.
    destruct (is_none lat), (is_none lon); cbn [negb andb orb]; try reflexivity.
    destruct (py_float L lat) as [la|]; [|reflexivity].
    destruct (py_float L lon) as [lo|]; reflexivity.
Qed.

End Address.

(** ** The map document *)

Section Outputs.
Context (L : pylib).

Lemma to_geojson_features_lines (s : SegmentRecord) (fs : list json) :
  to_geojson_features L s = Ok fs →
  length fs = 3%nat
  ∧ (λ f, property f "tripKey") <$> filter (λ f, is_line f = true) fs = [JStr (trip_key s)].
Proof.
  unfold to_geojson_features. intros H.
  bind_inv H as d Hd. bind_inv H as a Ha. injection H as <-.
  split; reflexivity.
Qed.

Lemma to_geojson_features_naive (s : SegmentRecord) :
  naive_record s → ∃ fs, to_geojson_features L s = Ok fs.
Proof.
  intros [Hd Ha]. unfold to_geojson_features.
  destruct (dt_iso_naive L _ Hd) as [d ->], (dt_iso_naive L _ Ha) as [a ->]. by eexists.
Qed.

Lemma to_geojson_loop (segs : list SegmentRecord) (feats : list json) :
  for_each (λ feats s, new ← to_geojson_features L s; Ok (feats ++ new)) segs [] = Ok feats →
  length feats = (3 * length segs)%nat
  ∧ (λ f, property f "tripKey") <$> filter (λ f, is_line f = true) feats = (λ r, JStr (trip_key r)) <$> segs.
Proof.
  apply (for_each_snoc_inv _
    (λ done feats, length feats = (3 * length done)%nat
       ∧ (λ f, property f "tripKey") <$> filter (λ f, is_line f = true) feats
         = (λ r, JStr (trip_key r)) <$> done)); [|done].
  clear. intros done s feats feats' [Hlen Hlines] H.
  bind_inv H as new Hnew. injection H as <-.
  apply to_geojson_features_lines in Hnew as [Hn Hl].
  rewrite !length_app, filter_app, !fmap_app, Hlen, Hn, Hlines, Hl. split; [cbn; lia|done].
Qed.

Lemma to_geojson_total (segs : list SegmentRecord) :
  Forall naive_record segs → is_ok (to_geojson L segs) = true.
Proof.
  intros Hn. unfold to_geojson.
  assert (H : ∀ acc, ∃ feats,
            for_each (λ feats s, new ← to_geojson_features L s; Ok (feats ++ new)) segs acc
            = Ok feats).
  { induction Hn as [|s segs Hs _ IH]; intros acc; [by eexists|].
    cbn [for_each]. destruct (to_geojson_features_naive s Hs) as [fs ->]. apply IH. }
  by destruct (H []) as [feats ->].
Qed.

(** X15. The map document has three features for each record: a line and
    the points of its two ends. Its lines are as many as the records and
    come in their order, each with the trip key of its record.
    [to_geojson] does not raise on records whose dates carry no zone. *)
Theorem to_geojson_lines (segs : list SegmentRecord) :
  (∀ geo, to_geojson L segs = Ok geo →
     length (features geo) = (3 * length segs)%nat
     ∧ length (filter (λ f, is_line f = true) (features geo)) = length segs
     ∧ (λ f, property f "tripKey") <$> filter (λ f, is_line f = true) (features geo)
       = (λ r, JStr (trip_key r)) <$> segs)
  ∧ (Forall naive_record segs → is_ok (to_geojson L segs) = true).
Proof.
  split; [|apply to_geojson_total].
  intros geo H. unfold to_geojson in H. bind_inv H as feats Hfeats. injection H as <-.
  apply to_geojson_loop in Hfeats as [Hlen Hlines].
  change (features _) with feats. split; [done|]. split; [|done].
  apply (f_equal length) in Hlines. by rewrite !length_fmap in Hlines.
Qed.

End Outputs.

(** ** The outputs of [main] *)

Lemma concat_map_perm {A B} (f : A → list B) (l l' : list A) :
  Permutation l l' → Permutation (concat (map f l)) (concat (map f l')).
Proof.
  induction 1 as [|x l l' _ IH|x y l|l l' l'' _ IH1 _ IH2]; cbn.
  - done.
  - by apply Permutation_app_head.
  - rewrite !app_assoc. apply Permutation_app_tail, Permutation_app_comm.
  - by etrans.
Qed.

Lemma concat_map_perm_each {A B} (f g : A → list B) (l : list A) :
  (∀ x, Permutation (f x) (g x)) → Permutation (concat (map f l)) (concat (map g l)).
Proof.
  intros H. induction l as [|x l IH]; cbn; [done|]. by apply Permutation_app.
Qed.

Lemma alter_assoc_grouped (e : EventSummary) (k : string) (kv : list (string * TripGroup)) :
  is_Some (assoc k kv) →
  Permutation (grouped (map snd (alter_assoc (λ g, update_group g e) k kv)))
              (e :: grouped (map snd kv)).
Proof.
  unfold grouped. induction kv as [|[k' g] kv IH]; cbn; [by intros [? ?]|].
  destruct (String.eqb k' k) eqn:E; cbn.
  - intros _. rewrite <- app_assoc. cbn.
    by rewrite <- Permutation_middle.
  - intros H. rewrite (IH H). by rewrite Permutation_middle.
Qed.

Lemma add_event_grouped (groups : list (string * TripGroup)) (e : EventSummary) :
  Permutation (grouped (map snd (add_event groups e)))
              (grouped (map snd groups) ++ keyed [e]).
Proof.
  unfold add_event, keyed. rewrite filter_cons, filter_nil.
  destruct (String.eqb_spec (tripGroupKey e) "") as [E|E].
  - rewrite decide_False by (by intros ?). by rewrite app_nil_r.
  - rewrite decide_True by done.
    destruct (assoc (tripGroupKey e) groups) as [g|] eqn:Eg.
    + rewrite alter_assoc_grouped by by rewrite Eg. by rewrite <- Permutation_cons_append.
    + unfold grouped. rewrite map_app, map_app, concat_app. by cbn.
Qed.

(** Grouping neither drops nor repeats an event that has a trip group key. *)
Lemma trip_groups_partition (events : list EventSummary) :
  Permutation (grouped (trip_groups events)) (keyed events).
Proof.
  unfold trip_groups.
  unfold grouped at 1. rewrite (concat_map_perm _ _ _ (sorted_by_perm _ _)).
  rewrite map_map.
  rewrite (concat_map_perm_each (λ x, g_events (sort_inside x)) g_events)
    by (intros g; apply sorted_by_perm).
  change (Permutation (grouped (map snd (foldl add_event [] events))) (keyed events)).
  induction events as [|e events IH] using rev_ind; [done|].
  rewrite foldl_app. cbn [foldl]. rewrite add_event_grouped, IH.
  unfold keyed. by rewrite filter_app.
Qed.

Lemma decimal_of_not_empty (n : N) : decimal_of n ≠ [].
Proof.
  destruct (N.lt_ge_cases n 10) as [Hs|Hl].
  - by rewrite decimal_of_small.
  - rewrite decimal_of_step by done. by intros [_ ?]%app_eq_nil.
Qed.

Lemma str_of_Z_not_empty (z : Z) : str_of_Z z ≠ "".
Proof.
  assert (H : ∀ n, str_of_N n ≠ "").
  { intros n E. apply (decimal_of_not_empty n). unfold decimal_of. by rewrite E. }
  destruct z; [apply H|apply H|done].
Qed.

Section MainProperties.
Context (L : pylib).

Lemma py_str_truthy (v : json) :
  (∀ v, repr L v ≠ "") → truthy v = true → py_str L v ≠ "".
Proof.
  intros Hrepr. destruct v as [| [] | z | f | s | l | kv]; cbn; try done.
  - intros _. apply str_of_Z_not_empty.
  - by intros ?%negb_true_iff%String.eqb_neq.
Qed.

Lemma py_or_stem (v : json) (s : string) :
  (∀ v, repr L v ≠ "") → s ≠ "" → py_str L (v ||| JStr s) ≠ "".
Proof.
  intros Hrepr Hs. apply py_str_truthy; [done|]. apply py_or_truthy. cbn.
  by apply negb_true_iff, String.eqb_neq.
Qed.

Lemma run_events_keyed (raw_dir : list source_file) :
  (∀ v, repr L v ≠ "") → Forall (λ p, stem p ≠ "") raw_dir →
  Forall (λ e, l_gk e ≠ "") (run_events L raw_dir).
Proof.
  intros Hrepr. induction 1 as [|p rest Hp _ IH]; [constructor|].
  unfold run_events. cbn [map concat]. apply Forall_app. split; [|exact IH].
  unfold file_events. destruct (content p) as [obj|]; [|constructor].
  apply Forall_fmap, Forall_forall. intros iev _. cbn. by apply py_or_stem.
Qed.

Lemma summaries_keyed (airport_index : gmap string airport) (raw_dir : list source_file)
    segs evs :
  collect_segments L airport_index raw_dir = Ok (segs, evs) →
  Forall (λ e, l_gk e ≠ "") (run_events L raw_dir) →
  Forall (λ s, tripGroupKey s ≠ "") evs.
Proof.
  refine (collect_segments_inv L airport_index
    (λ done st, Forall (λ e, l_gk e ≠ "") done → Forall (λ s, tripGroupKey s ≠ "") st.2)
    raw_dir (segs, evs) _ _); [constructor|].
  clear. intros done e [segs evs] [segs' evs'] IH Hev Hk. cbn [fst snd] in *.
  apply Forall_app in Hk as [Hdone He]. rewrite Forall_singleton in He.
  apply process_event_step in Hev as (new & _ & _ & [[-> _]|(s & -> & _ & Hg & _)]);
    [by apply IH|].
  apply Forall_app. split; [by apply IH|]. constructor; [|constructor]. by rewrite Hg.
Qed.

Lemma filter_all {A} (P : A → Prop) `{∀ x, Decision (P x)} (l : list A) :
  Forall P l → filter P l = l.
Proof.
  induction 1 as [|x l Hx _ IH]; [done|]. by rewrite filter_cons, decide_True, IH.
Qed.

(** X16. The two documents that [main] writes agree: the segment count of
    the summary is the number of lines of the map document. The number of
    source files counts every file of the input directory, read or not. The
    grouping neither drops nor repeats an event that has a trip group key;
    and every event of a run has one when the stems of the files are not
    empty and [str] gives no empty text for a trip id. *)
Theorem main_outputs_agree airports_csv openflights_dat (in_dir : list source_file) geo sm :
  main L airports_csv openflights_dat in_dir = Ok (geo, sm) →
  total_segmentCount sm = length (filter (λ f, is_line f = true) (features geo))
  ∧ length (features geo) = (3 * total_segmentCount sm)%nat
  ∧ sourceFiles sm = length in_dir
  ∧ Permutation (grouped (tripGroups sm)) (keyed (events sm))
  ∧ ((∀ v, repr L v ≠ "") → Forall (λ p, stem p ≠ "") in_dir →
       Permutation (grouped (tripGroups sm)) (events sm)).
Proof.
  unfold main. intros H. bind_inv H as out Hout. destruct out as [segs evs].
  bind_inv H as geo' Hgeo. injection H as <- <-.
  cbn [total_segmentCount sourceFiles events tripGroups].
  unfold to_geojson in Hgeo. bind_inv Hgeo as feats Hfeats. injection Hgeo as <-.
  apply to_geojson_loop in Hfeats as [Hlen Hlines]. change (features _) with feats.
  apply (f_equal length) in Hlines. rewrite !length_fmap in Hlines.
  split; [done|]. split; [by rewrite Hlen|]. split; [done|].
  split; [apply trip_groups_partition|].
  intros Hrepr Hstems. rewrite trip_groups_partition. unfold keyed.
  rewrite filter_all; [done|].
  eapply summaries_keyed; [done|]. by apply run_events_keyed.
Qed.

(** X14. A run completes only if [float] accepts the latitude and the
    longitude of every lodging event that has a latitude: a lodging with a
    latitude and no longitude, or with a coordinate that is no number, ends
    the run with an exception. *)
Theorem lodging_needs_coordinates (airport_index : gmap string airport)
    (raw_dir : list source_file) out :
  collect_segments L airport_index raw_dir = Ok out →
  ∀ e, e ∈ run_events L raw_dir →
    lodging_shortcut (event_type (l_event e)) (l_event e) = Ok true →
    let addr := get (l_event e) "address" ||| JObj [] in
    is_ok (py_float L (get addr "latitude")) = true
    ∧ is_ok (py_float L (get addr "longitude")) = true.
Proof.
  refine (collect_segments_inv L airport_index
    (λ done _, ∀ e, e ∈ done →
       lodging_shortcut (event_type (l_event e)) (l_event e) = Ok true →
       let addr := get (l_event e) "address" ||| JObj [] in
       is_ok (py_float L (get addr "latitude")) = true
       ∧ is_ok (py_float L (get addr "longitude")) = true)
    raw_dir out _ _); [by intros e ?%elem_of_nil|].
  clear. intros done e [segs evs] [segs' evs'] IH Hev e' [He'| ->%list_elem_of_singleton]%elem_of_app Hl;
    [by apply IH|].
  apply process_event_hotel in Hev as (lat & lon & _ & _ & _ & _ & Hlat & Hlon & _); [|done].
  cbn zeta. by rewrite Hlat, Hlon.
Qed.

End MainProperties.

(** ** The run as a whole *)

Section WholeRun.
Context (L : pylib) (airport_index : gmap string airport).

Lemma concat_map_snoc {A B} (f : A → list B) (l : list A) (x : A) :
  concat (map f (l ++ [x])) = concat (map f l) ++ f x.
Proof. rewrite map_app, concat_app. cbn. by rewrite app_nil_r. Qed.

(** The run, as a whole: a record for each raw segment that resolves of
    each event that does not take the lodging shortcut, and a summary for
    each event that takes it or has a raw segment, both in the order of the
    input. *)
Lemma collect_segments_whole (raw_dir : list source_file) segs evs :
  collect_segments L airport_index raw_dir = Ok (segs, evs) →
  Forall2 (record_of L airport_index) (run_records L airport_index raw_dir) segs
  ∧ Forall2 (summary_for L)
      (filter (λ e, summarized (l_event e) = true) (run_events L raw_dir)) evs.
Proof.
  refine (collect_segments_inv L airport_index
    (λ done st,
       Forall2 (record_of L airport_index)
         (concat (map (event_records L airport_index) done)) st.1
       ∧ Forall2 (summary_for L) (filter (λ e, summarized (l_event e) = true) done) st.2)
    raw_dir (segs, evs) _ _); [by split; constructor|].
  clear. intros done e [segs evs] [segs' evs'] [IHs IHe] Hev. cbn [fst snd] in *.
  rewrite concat_map_snoc, filter_app, filter_cons, filter_nil.
  unfold event_records at 2, summarized, summary_for.
  destruct (lodging_shortcut_defined _ _ _ _ _ _ _ _ _ Hev) as [[] Hb].
  - apply process_event_lodging in Hev as (-> & s & -> & ? & ? & ? & ? & ?); [|done].
    unfold takes_shortcut. rewrite Hb. cbn [orb]. rewrite decide_True by done.
    rewrite app_nil_r. split; [done|].
    apply Forall2_app; [done|]. constructor; [|constructor].
    unfold takes_shortcut. by rewrite Hb.
  - apply process_event_transport in Hev as ((new & -> & Hnew) & Hevs); [|done].
    unfold takes_shortcut. rewrite Hb. cbn [orb]. split.
    + apply Forall2_app; [done|]. apply Forall2_fmap_l.
      eapply Forall2_impl; [exact Hnew|]. by intros seg r ?.
    + destruct (raw_segments (l_event e)) as [|seg raws].
      * rewrite bool_decide_true by done. cbn [negb]. rewrite decide_False by done.
        rewrite app_nil_r. by rewrite Hevs.
      * rewrite bool_decide_false by done. cbn [negb]. rewrite decide_True by done.
        destruct Hevs as (s & -> & (? & ? & ? & ?) & ?).
        apply Forall2_app; [done|]. constructor; [|constructor].
        unfold takes_shortcut. by rewrite Hb.
Qed.

(** X17. A run that completes gives one record for each raw segment that
    resolves of each event that does not take the lodging shortcut, and one
    summary for each event that takes it or has a raw segment, resolved or
    not; records and summaries come in the order of the input, files in
    sorted order, and carry the keys of their event. *)
Theorem collect_segments_in_order (raw_dir : list source_file) segs evs :
  collect_segments L airport_index raw_dir = Ok (segs, evs) →
  Forall2 (record_of L airport_index) (run_records L airport_index raw_dir) segs
  ∧ Forall2 (summary_for L)
      (filter (λ e, summarized (l_event e) = true) (run_events L raw_dir)) evs
  ∧ length segs = length (run_records L airport_index raw_dir)
  ∧ length evs = length (filter (λ e, summarized (l_event e) = true) (run_events L raw_dir)).
Proof.
  intros H. destruct (collect_segments_whole _ _ _ H) as [Hs He].
  split; [done|]. split; [done|].
  split; symmetry; by eapply Forall2_length.
Qed.

End WholeRun.

(** ** Completion of [main] *)

Section MainCompletes.
Context (L : pylib) (airport_index : gmap string airport).

Lemma loop_naive_records gk name key t (raws : list json) segs st :
  for_each (process_segment L airport_index gk name key t) raws (first_state segs) = Ok st →
  Forall (naive_segment L) raws → Forall naive_record segs →
  Forall naive_record (segments st).
Proof.
  intros H Hraws Hsegs. revert H Hraws.
  apply (for_each_snoc_inv _
    (λ done st, Forall (naive_segment L) done → Forall naive_record (segments st)));
    [|done].
  clear. intros done seg st st' IH H Hn.
  apply Forall_app in Hn as [Hdone Hseg]. rewrite Forall_singleton in Hseg.
  specialize (IH Hdone).
  apply process_segment_anatomy in H
    as (_ & _ & _ & _ & _ & [(_ & -> & _)|(_ & r & -> & _ & _ & _ & _ & Hd & Ha & _)]);
    [done|].
  apply Forall_app. split; [done|]. constructor; [|constructor].
  unfold naive_record. rewrite Hd, Ha. exact Hseg.
Qed.

Lemma run_naive_records (raw_dir : list source_file) segs evs :
  collect_segments L airport_index raw_dir = Ok (segs, evs) →
  Forall (λ e, takes_shortcut (l_event e) = false
               → Forall (naive_segment L) (raw_segments (l_event e)))
         (run_events L raw_dir) →
  Forall naive_record segs.
Proof.
  refine (collect_segments_inv L airport_index
    (λ done st,
       Forall (λ e, takes_shortcut (l_event e) = false
                    → Forall (naive_segment L) (raw_segments (l_event e))) done
       → Forall naive_record st.1)
    raw_dir (segs, evs) _ _); [constructor|].
  clear. intros done e [segs evs] [segs' evs'] IH Hev Hn. cbn [fst snd] in *.
  apply Forall_app in Hn as [Hdone He]. rewrite Forall_singleton in He.
  specialize (IH Hdone).
  destruct (lodging_shortcut_defined _ _ _ _ _ _ _ _ _ Hev) as [[] Hb].
  - by apply process_event_lodging in Hev as (-> & _).
  - apply process_event_loop in Hev as (st & Hloop & -> & _); [|done].
    eapply loop_naive_records; [exact Hloop| |done].
    apply He. unfold takes_shortcut. by rewrite Hb.
Qed.

Lemma wt_segment_naive (seg : json) : wt_segment seg = true → naive_segment L seg.
Proof.
  unfold wt_segment. intros H.
  repeat (apply andb_prop in H as [H ?]).
  repeat match goal with H : negb _ = true |- _ => apply negb_true_iff in H end.
  unfold naive_segment, seg_departure, seg_arrival.
  destruct (parse_dt_naive L (get seg "departureDate") (get seg "departureTimeZoneID"))
    as (d & -> & Hd); [done..|].
  destruct (parse_dt_naive L (get seg "arrivalDate") (get seg "arrivalTimeZoneID"))
    as (a & -> & Ha); [done..|].
  by split.
Qed.

Lemma items_wt (p : json → bool) (v : json) (k : string) :
  is_dict v = true → falsy_or (is_list_of p) (get v k) = true →
  Forall (λ x, p x = true) (items (py_get v k)).
Proof.
  intros Hd Hl. destruct (py_iter_list p _ Hl) as (l & Hi & Hp).
  unfold items. rewrite (py_get_dict _ _ Hd). cbn. by rewrite Hi.
Qed.

Lemma wt_event_naive (ev : json) :
  wt_event L ev = true → takes_shortcut ev = false →
  Forall (naive_segment L) (raw_segments ev).
Proof.
  unfold wt_event, takes_shortcut. intros H Hs.
  apply andb_prop in H as [H Hlegs]. apply andb_prop in H as [H _].
  apply andb_prop in H as [Hd _].
  assert (Hl : falsy_or (is_list_of wt_leg) (get ev "legs") = true).
  { destruct (lodging_shortcut (event_type ev) ev) as [[]|]; done. }
  unfold raw_segments. pose proof (items_wt _ _ _ Hd Hl) as Hlegs'.
  induction Hlegs' as [|leg legs Hleg _ IH]; [constructor|].
  cbn [map concat]. apply Forall_app. split; [|exact IH].
  unfold wt_leg in Hleg. apply andb_prop in Hleg as [Hld Hsegs].
  unfold leg_segments. eapply Forall_impl; [exact (items_wt _ _ _ Hld Hsegs)|].
  apply wt_segment_naive.
Qed.

Lemma wt_run_naive (raw_dir : list source_file) :
  forallb (wt_file L) raw_dir = true →
  Forall (λ e, takes_shortcut (l_event e) = false
               → Forall (naive_segment L) (raw_segments (l_event e)))
         (run_events L raw_dir).
Proof.
  intros H. apply forallb_Forall in H.
  induction H as [|p rest Hp _ IH]; [constructor|].
  unfold run_events. cbn [map concat]. apply Forall_app. split; [|exact IH].
  unfold file_events, wt_file in *. destruct (content p) as [obj|]; [|constructor].
  unfold wt_doc in Hp. apply andb_prop in Hp as [Hd Hevs].
  apply Forall_fmap.
  eapply Forall_impl; [exact (Forall_enumerate _ _ (items_wt _ _ _ Hd Hevs))|].
  intros [i ev] Hwt. cbn. by apply wt_event_naive.
Qed.

End MainCompletes.

(** X18. On an input directory whose documents are well typed and carry
    no time zone identifier, [main] produces its two documents: neither
    [collect_segments] nor [to_geojson] raises. *)
Theorem main_completes (L : pylib) airports_csv openflights_dat (in_dir : list source_file) :
  forallb (wt_file L) in_dir = true →
  ∃ geo sm, main L airports_csv openflights_dat in_dir = Ok (geo, sm).
Proof.
  intros Hwt. unfold main.
  destruct (collect_segments_total L (load_iata_index L airports_csv (Some openflights_dat))
              in_dir Hwt) as [[segs evs] Hrun].
  rewrite Hrun. cbn [mbind result_bind].
  pose proof (run_naive_records L _ _ _ _ Hrun (wt_run_naive L _ Hwt)) as Hn.
  pose proof (to_geojson_total L segs Hn) as Hgeo.
  destruct (to_geojson L segs) as [geo|]; [|done]. by eexists _, _.
Qed.

(** ** Zones of the dates of an event *)

Section Zones.
Context (L : pylib) (airport_index : gmap string airport).

Lemma dt_lt_alike (a b : datetime) (r : bool) : dt_lt L a b = Ok r → alike a b.
Proof. unfold dt_lt, alike. by destruct (tzinfo a), (tzinfo b). Qed.

Lemma alike_sym (a b : datetime) : alike a b → alike b a.
Proof. unfold alike. tauto. Qed.

Lemma alike_trans (a b c : datetime) : alike a b → alike b c → alike a c.
Proof. unfold alike. tauto. Qed.

(** A running date that was set is alike to every date it was compared
    with. *)
Lemma track_alike (flip_args : bool) (ds : list datetime) (dt cur r : option datetime) :
  track (if flip_args then dt_gt L else dt_lt L) dt cur = Ok r →
  (∀ d, d ∈ ds → ∃ c, cur = Some c ∧ alike d c) →
  ∀ d, d ∈ ds ++ option_list dt → ∃ c, r = Some c ∧ alike d c.
Proof.
  intros H Hds d Hd. destruct dt as [x|]; cbn in *.
  - destruct cur as [c|].
    + destruct (if flip_args then dt_gt L x c else dt_lt L x c) as [b|] eqn:E; [|by destruct flip_args; rewrite E in H].
      assert (Hxc : alike x c).
      { destruct flip_args; [apply alike_sym|]; by eapply dt_lt_alike. }
      assert (Hr : r = Some x ∨ r = Some c).
      { destruct flip_args; rewrite E in H; cbn in H; destruct b; injection H as <-; auto. }
      apply elem_of_app in Hd as [Hd| ->%list_elem_of_singleton].
      * destruct (Hds d Hd) as (c' & [= <-] & Hdc).
        destruct Hr as [-> | ->]; (eexists; split; [done|]).
        -- eapply alike_trans; [exact Hdc | by apply alike_sym].
        -- exact Hdc.
      * destruct Hr as [-> | ->]; (eexists; split; [done|]); [by unfold alike | exact Hxc].
    + injection H as <-.
      apply elem_of_app in Hd as [Hd| ->%list_elem_of_singleton].
      * by destruct (Hds d Hd) as (c' & [=] & _).
      * eexists. split; [done|]. by unfold alike.
  - injection H as <-. rewrite app_nil_r in Hd. by apply Hds.
Qed.

Lemma loop_alike gk name key t (raws : list json) segs st :
  for_each (process_segment L airport_index gk name key t) raws (first_state segs) = Ok st →
  (∀ d, d ∈ omap (seg_departure L) raws → ∃ c, start_dt st = Some c ∧ alike d c)
  ∧ (∀ d, d ∈ omap (seg_arrival L) raws → ∃ c, end_dt st = Some c ∧ alike d c).
Proof.
  apply (for_each_snoc_inv _
    (λ done st,
       (∀ d, d ∈ omap (seg_departure L) done → ∃ c, start_dt st = Some c ∧ alike d c)
       ∧ (∀ d, d ∈ omap (seg_arrival L) done → ∃ c, end_dt st = Some c ∧ alike d c)));
    [|by split; intros d ?%elem_of_nil].
  clear. intros done seg st st' [IHs IHe] H.
  apply process_segment_anatomy in H as (_ & _ & _ & Hts & Hte & _).
  rewrite !omap_snoc. split.
  - by apply (track_alike false _ _ _ _ Hts).
  - by apply (track_alike true _ _ _ _ Hte).
Qed.

(** X19. When a transport event is processed without an exception, the
    departures of its segments that [parse_dt] reads are all without zone
    or all with one, and so are the arrivals: an event that mixes the two
    is never processed to its end. *)
Theorem zones_alike stem gk name segs evs ev_i ev out :
  process_event L airport_index stem gk name (segs, evs) (ev_i, ev) = Ok out →
  lodging_shortcut (event_type ev) ev = Ok false →
  (∀ d1 d2, d1 ∈ omap (seg_departure L) (raw_segments ev) →
            d2 ∈ omap (seg_departure L) (raw_segments ev) → alike d1 d2)
  ∧ (∀ d1 d2, d1 ∈ omap (seg_arrival L) (raw_segments ev) →
              d2 ∈ omap (seg_arrival L) (raw_segments ev) → alike d1 d2).
Proof.
  destruct out as [segs' evs']. intros H Hshort.
  apply process_event_loop in H as (st & Hloop & _); [|done].
  apply loop_alike in Hloop as [Hs He]. split; intros d1 d2 H1 H2.
  - destruct (Hs d1 H1) as (c & Hc & A1), (Hs d2 H2) as (c' & Hc' & A2).
    rewrite Hc in Hc'. injection Hc' as <-.
    eapply alike_trans; [exact A1|]. by apply alike_sym.
  - destruct (He d1 H1) as (c & Hc & A1), (He d2 H2) as (c' & Hc' & A2).
    rewrite Hc in Hc'. injection Hc' as <-.
    eapply alike_trans; [exact A1|]. by apply alike_sym.
Qed.

End Zones.

(** ** Labels and titles *)

Section Labels.
Context (L : pylib) (airport_index : gmap string airport).
Hypothesis repr_not_empty : ∀ v, repr L v ≠ "".

Lemma append_not_empty (a b : string) : b ≠ "" → a +:+ b ≠ "".
Proof. intros Hb. destruct a; [done|]. by cbn. Qed.

Lemma truthy_text (s : string) : s ≠ "" → truthy (JStr s) = true.
Proof. intros H. cbn. by apply negb_true_iff, String.eqb_neq. Qed.

Lemma endpoint_label_truthy (addr : json) (raw : option string) (fallback : string) lab :
  endpoint_label addr raw fallback = Ok lab → fallback ≠ "" → truthy lab = true.
Proof.
  unfold endpoint_label. intros H Hf.
  bind_inv H as city H1. bind_inv H as rawAddress H2. injection H as <-.
  by apply py_or_truthy, truthy_text.
Qed.

Lemma resolve_endpoint_truthy lat lon raw label lat' lon' label' :
  truthy label = true →
  resolve_endpoint L airport_index lat lon raw label = Ok (lat', lon', label') →
  truthy label' = true.
Proof.
  intros Ht. unfold resolve_endpoint.
  assert (Hor : ∀ code, label ||| JStr code = label) by (intros; unfold py_or; by rewrite Ht).
  destruct (bool_decide (lat = None) || bool_decide (lon = None)); [|by intros [= _ _ <-]].
  destruct (iata_from_raw raw) as [code|]; [|by intros [= _ _ <-]].
  destruct (if String.eqb code "" then None else airport_index !! code) as [[[[a_lat a_lon] ?] ?]|];
    [|by intros [= _ _ <-]].
  rewrite Hor, Ht. intros H. bind_inv H as inside Hi.
  destruct inside; cbn in H; injection H as _ _ <-; [done|].
  apply truthy_text, append_not_empty. done.
Qed.

Lemma resolve_segment_truthy (seg : json) dla dlo dlab ala alo alab :
  resolve_segment L airport_index seg = Ok (Some (dla, dlo, dlab, (ala, alo, alab))) →
  truthy dlab = true ∧ truthy alab = true.
Proof.
  unfold resolve_segment. intros H.
  bind_inv H as departureAddress H1. bind_inv H as arrivalAddress H2.
  bind_inv H as dc Hdc. destruct dc as [[dep_lat dep_lon] dep_raw].
  bind_inv H as ac Hac. destruct ac as [[arr_lat arr_lon] arr_raw].
  bind_inv H as dep_label Hdl. bind_inv H as arr_label Hal.
  bind_inv H as de Hde. destruct de as [[dep_lat' dep_lon'] dep_label'].
  bind_inv H as ae Hae. destruct ae as [[arr_lat' arr_lon'] arr_label'].
  apply endpoint_label_truthy in Hdl; [|done]. apply endpoint_label_truthy in Hal; [|done].
  apply (resolve_endpoint_truthy _ _ _ _ _ _ _ Hdl) in Hde.
  apply (resolve_endpoint_truthy _ _ _ _ _ _ _ Hal) in Hae.
  destruct dep_lat', dep_lon', arr_lat', arr_lon'; try discriminate.
  by injection H as _ _ <- _ _ <-.
Qed.

Lemma event_type_text (ev : json) : py_str L (event_type ev) ≠ "".
Proof.
  apply py_str_truthy; [done|]. unfold event_type. by apply py_or_truthy.
Qed.

Lemma emitted_labelled gk name key (ev seg : json) r :
  emitted L airport_index gk name key (py_str L (event_type ev)) seg r → labelled r.
Proof.
  intros (dla & dlo & dlab & ala & alo & alab & Hr & _ & _ & _ & Ht & Hf & Hto & _).
  apply resolve_segment_truthy in Hr as [Hd Ha].
  unfold labelled. rewrite Hf, Hto, Ht.
  split; [by apply py_str_truthy|]. split; [by apply py_str_truthy|]. apply event_type_text.
Qed.

(** X20. With a [str] that gives no empty text for a float, a list or a
    dict, every record of a completed run has a departure label, an arrival
    label and a type that are not empty, and every summary a title that is
    truthy and a type that is not empty. *)
Theorem records_labelled (raw_dir : list source_file) segs evs :
  collect_segments L airport_index raw_dir = Ok (segs, evs) →
  Forall labelled segs ∧ Forall titled evs.
Proof.
  refine (collect_segments_inv L airport_index
            (λ _ st, Forall labelled st.1 ∧ Forall titled st.2) raw_dir (segs, evs) _ _);
    [by split; constructor|].
  clear segs evs. intros _ e [segs evs] [segs' evs'] [IHs IHe] Hev. cbn [fst snd] in *.
  destruct (lodging_shortcut_defined _ _ _ _ _ _ _ _ _ Hev) as [[] Hb].
  - apply process_event_hotel in Hev as (? & ? & ? & ? & ? & ? & _ & _ & _ & _ & _ & _ & -> & ->);
      [|done].
    split; [done|]. apply Forall_app. split; [done|]. constructor; [|constructor].
    split; [|done]. cbn [title]. by apply py_or_truthy.
  - pose proof Hev as Hev'.
    apply process_event_transport in Hev' as ((new & -> & Hnew) & _); [|done].
    apply process_event_loop in Hev as (st & Hloop & Hsegs & Hevs); [|done].
    split.
    + apply Forall_app. split; [done|].
      clear -Hnew repr_not_empty. induction Hnew as [|seg r raws new Hr _ IH]; constructor; [|done].
      by eapply emitted_labelled.
    + destruct (raw_segments (l_event e)); [by rewrite Hevs|].
      destruct Hevs as (si & ei & _ & _ & ->).
      apply Forall_app. split; [done|]. constructor; [|constructor].
      split; cbn [title type_]; [|apply event_type_text].
      apply truthy_text. destruct (title_guess st) as [[|c g]|]; [| done |];
        apply append_not_empty; done.
Qed.

End Labels.

(** ** What [strptime] accepts *)

Lemma rep_sem {R} (p : ascii → bool) (s : list ascii) :
  ∀ lo hi (k : list ascii → option R) x,
    rep p lo hi s k = Some x →
    ∃ pre rest, s = pre ++ rest ∧ Forall (λ c, p c = true) pre ∧ (lo ≤ length pre)%nat
                ∧ (∀ n, hi = Some n → (length pre ≤ n)%nat) ∧ k rest = Some x.
Proof.
  induction s as [|c s IH]; intros lo hi k x H; cbn [rep] in H.
  - destruct lo; [|done]. exists [], []. repeat split; try done; cbn; intros; lia.
  - assert (Hstop : match lo with O => k (c :: s) | S _ => None end = Some x →
              ∃ pre rest, c :: s = pre ++ rest ∧ Forall (λ c, p c = true) pre
                ∧ (lo ≤ length pre)%nat ∧ (∀ n, hi = Some n → (length pre ≤ n)%nat)
                ∧ k rest = Some x).
    { destruct lo; [|done]. intros Hk. exists [], (c :: s).
      repeat split; try done; cbn; intros; lia. }
    destruct (p c && room hi) eqn:E; [|by apply Hstop].
    destruct (rep p (pred lo) (dec hi) s k) as [y|] eqn:Er; [|by apply Hstop].
    injection H as ->. apply andb_prop in E as [Hp Hroom].
    apply IH in Er as (pre & rest & -> & Hpre & Hlo & Hhi & Hk).
    exists (c :: pre), rest. split; [done|]. split; [by constructor|].
    split; [cbn; lia|]. split; [|done].
    intros n ->. destruct n; [done|]. cbn in *. specialize (Hhi n eq_refl). lia.
Qed.

Lemma rmatch_sem {R} (r : regex) :
  ∀ s caps (k : list ascii → captures → option R) x,
    rmatch r s caps k = Some x →
    ∃ pre rest caps', s = pre ++ rest ∧ sem r pre caps caps' ∧ k rest caps' = Some x.
Proof.
  induction r as [p|r1 IH1 r2 IH2|r1 IH1 r2 IH2|p lo hi|r1 IH1|name r1 IH1|];
    intros s caps k x H; cbn [rmatch] in H.
  - destruct s as [|c s]; [done|]. destruct (p c) eqn:E; [|done].
    exists [c], s, caps. split; [done|]. split; [by exists c | done].
  - apply IH1 in H as (p1 & rest1 & c1 & -> & H1 & H).
    apply IH2 in H as (p2 & rest & c2 & -> & H2 & H).
    exists (p1 ++ p2), rest, c2. split; [by rewrite app_assoc|]. split; [|done].
    by exists p1, p2, c1.
  - destruct (rmatch r1 s caps k) as [y|] eqn:E.
    + injection H as ->. apply IH1 in E as (pre & rest & c' & -> & H1 & H).
      exists pre, rest, c'. split; [done|]. split; [by left | done].
    + apply IH2 in H as (pre & rest & c' & -> & H2 & H).
      exists pre, rest, c'. split; [done|]. split; [by right | done].
  - apply rep_sem in H as (pre & rest & -> & Hp & Hlo & Hhi & Hk).
    by exists pre, rest, caps.
  - destruct (rmatch r1 s caps k) as [y|] eqn:E.
    + injection H as ->. apply IH1 in E as (pre & rest & c' & -> & H1 & H).
      exists pre, rest, c'. split; [done|]. split; [by right | done].
    + exists [], s, caps. split; [done|]. split; [by left | done].
  - apply IH1 in H as (pre & rest & c1 & -> & H1 & H).
    rewrite take_consumed in H. exists pre, rest, ((name, pre) :: c1).
    split; [done|]. split; [by exists c1 | done].
  - exists [], s, caps. split; [done|]. split; [done|].
    destruct s as [|c [|c' s]]; [done| |done].
    by destruct (Ascii.eqb c "010").
Qed.

(** ** The directives of [strptime] *)

Lemma digit_between (lo hi : nat) (c : ascii) :
  (48 ≤ lo)%nat → (hi ≤ 57)%nat → in_range lo hi c = true →
  is_digit c = true ∧ (Z.of_nat lo - 48 ≤ digit_val c ≤ Z.of_nat hi - 48)%Z.
Proof.
  unfold is_digit, in_range, digit_val. intros Hlo Hhi H.
  apply andb_prop in H as [H1 H2]. apply Nat.leb_le in H1, H2.
  split; [|lia]. apply andb_true_intro. split; apply Nat.leb_le; lia.
Qed.

Lemma number_1 (c : ascii) : is_digit c = true → number [c] = digit_val c.
Proof.
  intros H. unfold number. rewrite filter_cons_True by done.
  rewrite filter_nil. unfold int_of_digits. cbn [fold_left]. lia.
Qed.

Lemma number_2 (c1 c2 : ascii) :
  is_digit c1 = true → is_digit c2 = true → number [c1; c2] = (10 * digit_val c1 + digit_val c2)%Z.
Proof.
  intros H1 H2. unfold number. rewrite !filter_cons_True by done.
  rewrite filter_nil. unfold int_of_digits. cbn [fold_left]. lia.
Qed.

Lemma number_blank (c : ascii) (l : list ascii) :
  is_digit c = false → number (c :: l) = number l.
Proof. intros H. unfold number. rewrite filter_cons_False; [done|]. by rewrite H. Qed.

Lemma number_digits (l : list ascii) :
  Forall (λ c, is_digit c = true) l → number l = int_of_digits l.
Proof.
  intros H. unfold number. f_equal. induction H as [|c l Hc Hl IH]; [done|].
  rewrite filter_cons_True by done. by rewrite IH.
Qed.

(** Takes a match apart, down to its characters and their codes. *)
Ltac chars_of H :=
  cbn [sem seqs alts] in H;
  repeat match goal with
    | H : ∃ _, _ |- _ => destruct H as [? H]
    | H : _ ∧ _ |- _ => destruct H as [? H]
    | H : _ ∨ _ |- _ => destruct H as [H|H]
    end; simplify_eq;
  repeat match goal with
    | H : Ascii.eqb _ _ = true |- _ => apply Ascii.eqb_eq in H; subst
    | H : is_digit ?c = true |- _ =>
        lazymatch goal with
        | _ : (_ ≤ digit_val c ≤ _)%Z |- _ => fail
        | _ => pose proof (digit_val_range c H)
        end
    | H : in_range (nat_of_ascii ?a) (nat_of_ascii ?b) ?c = true |- _ =>
        let lo := eval vm_compute in (nat_of_ascii a) in
        let hi := eval vm_compute in (nat_of_ascii b) in
        change (in_range lo hi c = true) in H;
        apply digit_between in H; [destruct H|lia|lia]
    end; cbn [app].

Ltac number_of :=
  split; [reflexivity|];
  first [ rewrite number_2 by done | rewrite number_1 by done
        | rewrite number_blank by done; rewrite number_1 by done];
  repeat match goal with
    | |- context [digit_val ?c] =>
        tryif is_var c then fail
        else (let v := eval vm_compute in (digit_val c) in change (digit_val c) with v)
    end;
  lia.

Lemma sem_lit (c : ascii) pre caps caps' : sem (lit c) pre caps caps' → caps' = caps.
Proof. by intros (? & _ & _ & ->). Qed.

Lemma sem_blank pre caps caps' : sem blank pre caps caps' → caps' = caps.
Proof. by intros (_ & _ & _ & ->). Qed.

Lemma sem_Y pre caps caps' :
  sem dir_Y pre caps caps' → caps' = ("Y", pre) :: caps ∧ (0 ≤ number pre ≤ 9999)%Z.
Proof.
  unfold dir_Y, d_. intros H. chars_of H. split; [done|].
  rewrite number_digits by (repeat constructor; done).
  unfold int_of_digits. cbn [fold_left]. lia.
Qed.

Lemma sem_m pre caps caps' :
  sem dir_m pre caps caps' → caps' = ("m", pre) :: caps ∧ (1 ≤ number pre ≤ 12)%Z.
Proof. unfold dir_m, rng, lit. intros H. chars_of H; number_of. Qed.

Lemma sem_d pre caps caps' :
  sem dir_d pre caps caps' → caps' = ("d", pre) :: caps ∧ (1 ≤ number pre ≤ 31)%Z.
Proof. unfold dir_d, rng, lit, d_. intros H. chars_of H; number_of. Qed.

Lemma sem_H pre caps caps' :
  sem dir_H pre caps caps' → caps' = ("H", pre) :: caps ∧ (0 ≤ number pre ≤ 23)%Z.
Proof. unfold dir_H, rng, lit, d_. intros H. chars_of H; number_of. Qed.

Lemma sem_M pre caps caps' :
  sem dir_M pre caps caps' → caps' = ("M", pre) :: caps ∧ (0 ≤ number pre ≤ 59)%Z.
Proof. unfold dir_M, rng, lit, d_. intros H. chars_of H; number_of. Qed.

Lemma sem_S pre caps caps' :
  sem dir_S pre caps caps' → caps' = ("S", pre) :: caps ∧ (0 ≤ number pre ≤ 61)%Z.
Proof. unfold dir_S, rng, lit, d_. intros H. chars_of H; number_of. Qed.

Lemma sem_f pre caps caps' :
  sem dir_f pre caps caps' →
  caps' = ("f", pre) :: caps ∧ Forall (λ c, is_digit c = true) pre ∧ (length pre ≤ 6)%nat.
Proof.
  unfold dir_f. cbn [sem]. intros (c1 & (Hd & _ & Hhi & ->) & ->).
  split; [done|]. split; [done|]. by apply Hhi.
Qed.

Lemma sem_seconds pre caps caps' :
  sem FMT_SECONDS pre caps caps' →
  ∃ Y m d H M S,
    caps' = ("S", S) :: ("M", M) :: ("H", H) :: ("d", d) :: ("m", m) :: ("Y", Y) :: caps
    ∧ (0 ≤ number Y ≤ 9999 ∧ 1 ≤ number m ≤ 12 ∧ 1 ≤ number d ≤ 31
       ∧ 0 ≤ number H ≤ 23 ∧ 0 ≤ number M ≤ 59 ∧ 0 ≤ number S ≤ 61)%Z.
Proof.
  unfold FMT_SECONDS. cbn [sem seqs].
  intros (pY & ? & c1 & _ & HY & ? & ? & c2 & _ & L1 & pm & ? & c3 & _ & Hm
          & ? & ? & c4 & _ & L2 & pd & ? & c5 & _ & Hd & ? & ? & c6 & _ & B
          & pH & ? & c7 & _ & HH & ? & ? & c8 & _ & L3 & pM & ? & c9 & _ & HM
          & ? & pS & c10 & _ & L4 & HS).
  apply sem_Y in HY as [-> ?]. apply sem_lit in L1 as ->.
  apply sem_m in Hm as [-> ?]. apply sem_lit in L2 as ->.
  apply sem_d in Hd as [-> ?]. apply sem_blank in B as ->.
  apply sem_H in HH as [-> ?]. apply sem_lit in L3 as ->.
  apply sem_M in HM as [-> ?]. apply sem_lit in L4 as ->.
  apply sem_S in HS as [-> ?].
  by exists pY, pm, pd, pH, pM, pS.
Qed.

Lemma micro_range (f : list ascii) :
  Forall (λ c, is_digit c = true) f → (length f ≤ 6)%nat →
  (0 ≤ int_of_digits (f ++ replicate (6 - length f) "0"%char) ≤ 999999)%Z.
Proof.
  intros Hf Hlen.
  assert (Hall : Forall (λ c, is_digit c = true) (f ++ replicate (6 - length f) "0"%char)).
  { apply Forall_app. split; [done|]. by apply Forall_replicate. }
  apply int_of_digits_range in Hall.
  rewrite length_app, length_replicate in Hall.
  replace (length f + (6 - length f))%nat with 6%nat in Hall by lia.
  change (10 ^ Z.of_nat 6)%Z with 1000000%Z in Hall. lia.
Qed.

Lemma strptime_valid (fmt : regex) (s : string) (d : datetime) :
  fmt = DATE_FMT ∨ fmt = FMT_SECONDS → strptime fmt s = Some d → valid_datetime d.
Proof.
  intros Hfmt. unfold strptime, re_match.
  destruct (rmatch fmt (chars s) [] _) as [[rest m]|] eqn:E; [|done].
  destruct rest; [|done].
  apply rmatch_sem in E as (pre & rest & caps' & _ & Hsem & [= -> ->]).
  assert (∃ Y mo dd H M S f,
    int_group m "Y" = number Y ∧ int_group m "m" = number mo
    ∧ int_group m "d" = number dd ∧ int_group m "H" = number H
    ∧ int_group m "M" = number M ∧ int_group m "S" = number S
    ∧ default [] (group m "f") = f
    ∧ Forall (λ c, is_digit c = true) f ∧ (length f ≤ 6)%nat
    ∧ (0 ≤ number Y ≤ 9999 ∧ 1 ≤ number mo ≤ 12 ∧ 1 ≤ number dd ≤ 31
       ∧ 0 ≤ number H ≤ 23 ∧ 0 ≤ number M ≤ 59 ∧ 0 ≤ number S ≤ 61)%Z)
    as (Y & mo & dd & H & M & S & f & -> & -> & -> & -> & -> & -> & -> & Hf & Hlen & Hr).
  { destruct Hfmt as [-> | ->].
    - unfold DATE_FMT in Hsem. cbn [sem seqs] in Hsem.
      destruct Hsem as (? & ? & c1 & _ & Hs & ? & f & c2 & _ & Hl & Hf).
      apply sem_seconds in Hs as (Y & mo & dd & H & M & S & -> & Hr).
      apply sem_lit in Hl as ->. apply sem_f in Hf as (-> & Hf & Hlen).
      by exists Y, mo, dd, H, M, S, f.
    - apply sem_seconds in Hsem as (Y & mo & dd & H & M & S & -> & Hr).
      exists Y, mo, dd, H, M, S, []. repeat split; try done; try apply Hr.
      cbn; lia. }
  case_match eqn:C; [|done]. intros [= <-].
  apply andb_prop in C as [C C3]. apply andb_prop in C as [C1 C2].
  cbn [dt_year dt_month dt_day dt_second] in C1, C2, C3.
  apply Z.leb_le in C1, C2, C3.
  pose proof (micro_range f Hf Hlen).
  unfold valid_datetime.
  cbn [dt_year dt_month dt_day dt_hour dt_minute dt_second dt_microsecond]. lia.
Qed.

(** X21. Every date that [parse_dt] returns is a date of the calendar with
    a time of day: year 1 to 9999, month 1 to 12, a day that the month of
    that year has, hour below 24, minute and second below 60, microsecond
    below a million. *)
Theorem parse_dt_valid (L : pylib) (v tzid : json) (d : datetime) :
  parse_dt L v tzid = Ok (Some d) → valid_datetime d.
Proof.
  unfold parse_dt. destruct (negb (truthy v)); [done|]. destruct v; try done.
  destruct (strptime DATE_FMT _) as [d0|] eqn:E1.
  - apply strptime_valid in E1; [|by left].
    destruct (truthy tzid); by intros [= <-].
  - destruct (strptime FMT_SECONDS _) as [d0|] eqn:E2; [|done].
    apply strptime_valid in E2; [|by right].
    destruct (truthy tzid); by intros [= <-].
Qed.

(** ** The further properties on sample documents *)

Lemma iata_from_raw_code_witness :
  iata_from_raw (Some "Berlin Tegel (txl)") = Some "BER"
  ∧ IATA_ALIASES !! "BER" = None
  ∧ iata_from_raw (Some "BER") = Some "BER".
Proof.
  assert (H : iata_from_raw (Some "Berlin Tegel (txl)") = Some "BER") by by vm_compute.
  split; [exact H|]. exact (proj2 (iata_from_raw_code _ _ H)).
Defined.

Lemma parse_dt_iso_round_trip_witness :
  valid_form "2" "0" "2" "4" "0" "2" "2" "9" "2" "3" "5" "9" "5" "9"
             "0" "0" "0" "0" "0" "7"
  ∧ parse_dt demo_lib (JStr "2024-02-29 23:59:59") JNull ≫= dt_iso demo_lib
    = Ok (Some "2024-02-29T23:59:59")
  ∧ parse_dt demo_lib (JStr "2024-02-29 23:59:59.000007") JNull ≫= dt_iso demo_lib
    = Ok (Some "2024-02-29T23:59:59.000007").
Proof.
  assert (Hv : valid_form "2" "0" "2" "4" "0" "2" "2" "9" "2" "3" "5" "9" "5" "9"
                          "0" "0" "0" "0" "0" "7").
  { split; [by repeat constructor|]. by vm_compute. }
  split; [exact Hv|]. exact (parse_dt_iso_round_trip demo_lib _ _ _ _ _ _ _ _ _ _ _ _ _ _ _ _ _ _ _ _ Hv).
Defined.


Lemma dt_iso_order_witness :
  valid_datetime morning ∧ valid_datetime half_a_second_later
  ∧ ∃ sa sb,
      dt_iso demo_lib (Some morning) = Ok (Some sa)
      ∧ dt_iso demo_lib (Some half_a_second_later) = Ok (Some sb)
      ∧ dt_lt demo_lib morning half_a_second_later = Ok (String.ltb sa sb)
      ∧ dt_gt demo_lib morning half_a_second_later = Ok (String.ltb sb sa).
Proof.
  assert (Ha : valid_datetime morning) by (repeat split; by vm_compute).
  assert (Hb : valid_datetime half_a_second_later) by (repeat split; by vm_compute).
  split; [exact Ha|]. split; [exact Hb|].
  exact (dt_iso_order demo_lib _ _ Ha Hb eq_refl eq_refl).
Defined.

Lemma summaries_dated_witness :
  ∃ segs evs,
    collect_segments demo_lib demo_index demo_dir = Ok (segs, evs)
    ∧ length evs = 3%nat ∧ Forall dated evs.
Proof.
  eexists _, _. split; [vm_compute; reflexivity|]. split; [reflexivity|].
  refine (summaries_dated demo_lib demo_index demo_dir _ _ _). vm_compute; reflexivity.
Defined.

Lemma naive_demo_segments : Forall (naive_segment demo_lib) (raw_segments flight_event).
Proof.
  repeat constructor; intros x; vm_compute; intros [= <-]; reflexivity.
Defined.

Lemma event_dates_witness :
  ∃ segs' evs',
    process_event demo_lib demo_index "trip" "T1" "trip" ([], []) (0%nat, flight_event)
    = Ok (segs', evs')
    ∧ Forall (naive_segment demo_lib) (raw_segments flight_event)
    ∧ ∃ s first last,
        evs' = [] ++ [s]
        ∧ least ltd (omap (seg_departure demo_lib) (raw_segments flight_event)) first
        ∧ least (flip ltd) (omap (seg_arrival demo_lib) (raw_segments flight_event)) last
        ∧ start s = isoformat <$> first ∧ end_ s = isoformat <$> last
        ∧ year s = dt_year <$> first.
Proof.
  eexists _, _. split; [vm_compute; reflexivity|]. split; [exact naive_demo_segments|].
  refine (event_dates demo_lib demo_index "trip" "T1" "trip" [] [] 0 flight_event _ _ _ _ _
            naive_demo_segments); [vm_compute; reflexivity..|discriminate].
Defined.

Lemma event_title_witness :
  ∃ segs' evs',
    process_event demo_lib demo_index "trip" "T1" "trip" ([], []) (0%nat, flight_event)
    = Ok (segs', evs')
    ∧ ∃ s new,
        evs' = [] ++ [s] ∧ segs' = [] ++ new
        ∧ title s = JStr (summary_title (py_str demo_lib (event_type flight_event)) new).
Proof.
  eexists _, _. split; [vm_compute; reflexivity|].
  refine (event_title demo_lib demo_index "trip" "T1" "trip" [] [] 0 flight_event _ _ _ _ _);
    [vm_compute; reflexivity..|discriminate].
Defined.

Lemma segments_have_summaries_witness :
  ∃ segs evs,
    collect_segments demo_lib demo_index demo_dir = Ok (segs, evs)
    ∧ length segs = 1%nat
    ∧ ∀ r, r ∈ segs →
        ∃ s, s ∈ evs ∧ tripKey s = trip_key r ∧ tripGroupKey s = trip_group_key r
             ∧ tripName s = trip_name r ∧ type_ s = type r ∧ (1 ≤ segmentCount s)%nat.
Proof.
  eexists _, _. split; [vm_compute; reflexivity|]. split; [reflexivity|].
  refine (segments_have_summaries demo_lib demo_index demo_dir _ _ _). vm_compute; reflexivity.
Defined.

Lemma demo_keys_distinct : NoDup (run_keys demo_lib demo_dir).
Proof. apply (bool_decide_unpack _). by vm_compute. Defined.

Lemma distinct_keys_counts_witness :
  ∃ segs evs,
    collect_segments demo_lib demo_index demo_dir = Ok (segs, evs)
    ∧ NoDup (run_keys demo_lib demo_dir)
    ∧ NoDup (tripKey <$> evs)
    ∧ (∀ s, s ∈ evs → segmentCount s = count_key segs (tripKey s))
    ∧ sum_list (segmentCount <$> evs) = length segs
    ∧ (∀ r, r ∈ segs →
         ∃ s, s ∈ evs ∧ tripKey s = trip_key r
              ∧ ∀ s', s' ∈ evs → tripKey s' = trip_key r → s' = s).
Proof.
  eexists _, _. split; [vm_compute; reflexivity|]. split; [exact demo_keys_distinct|].
  refine (distinct_keys_counts demo_lib demo_index demo_dir _ _ _ demo_keys_distinct).
  vm_compute; reflexivity.
Defined.

Lemma keys_without_ids_distinct_witness :
  NoDup (stem <$> demo_dir)
  ∧ Forall (λ e, no_id (l_event e)) (run_events demo_lib demo_dir)
  ∧ run_keys demo_lib demo_dir = ["a:0"; "a:1"; "b:0"; "b:1"]
  ∧ NoDup (run_keys demo_lib demo_dir).
Proof.
  assert (H1 : NoDup (stem <$> demo_dir)) by (apply (bool_decide_unpack _); by vm_compute).
  assert (H2 : Forall (λ e, no_id (l_event e)) (run_events demo_lib demo_dir))
    by (repeat constructor; eexists; split; reflexivity).
  split; [exact H1|]. split; [exact H2|]. split; [by vm_compute|].
  exact (proj1 (keys_without_ids_distinct demo_lib demo_dir H1 H2)).
Defined.

Lemma lodging_needs_coordinates_witness :
  ∃ e out,
    collect_segments demo_lib demo_index demo_dir = Ok out
    ∧ e ∈ run_events demo_lib demo_dir
    ∧ l_event e = hotel_with_coordinates
    ∧ is_ok (py_float demo_lib
               (get (get (l_event e) "address" ||| JObj []) "latitude")) = true
    ∧ is_ok (py_float demo_lib
               (get (get (l_event e) "address" ||| JObj []) "longitude")) = true.
Proof.
  exists {| l_stem := "a"; l_gk := "T1"; l_name := "a"; l_index := 1;
            l_event := hotel_with_coordinates |}.
  eexists. split; [vm_compute; reflexivity|].
  assert (Hin : {| l_stem := "a"; l_gk := "T1"; l_name := "a"; l_index := 1;
                   l_event := hotel_with_coordinates |} ∈ run_events demo_lib demo_dir)
    by (vm_compute; right; left).
  split; [exact Hin|]. split; [reflexivity|].
  refine (lodging_needs_coordinates demo_lib demo_index demo_dir _ _ _ Hin _);
    vm_compute; reflexivity.
Defined.

Lemma main_outputs_agree_witness :
  ∃ geo sm,
    main demo_lib [demo_row] [] demo_dir = Ok (geo, sm)
    ∧ total_segmentCount sm = 1%nat
    ∧ total_segmentCount sm = length (filter (λ f, is_line f = true) (features geo))
    ∧ length (features geo) = (3 * total_segmentCount sm)%nat
    ∧ sourceFiles sm = 3%nat
    ∧ Permutation (grouped (tripGroups sm)) (events sm).
Proof.
  eexists _, _. split; [vm_compute; reflexivity|]. split; [reflexivity|].
  pose proof (main_outputs_agree demo_lib [demo_row] [] demo_dir _ _
                ltac:(vm_compute; reflexivity)) as (H1 & H2 & H3 & _ & H5).
  split; [exact H1|]. split; [exact H2|]. split; [exact H3|].
  apply H5; [done|]. repeat constructor; discriminate.
Defined.

Lemma collect_segments_in_order_witness :
  ∃ segs evs,
    collect_segments demo_lib demo_index demo_dir = Ok (segs, evs)
    ∧ length (run_records demo_lib demo_index demo_dir) = 1%nat
    ∧ Forall2 (record_of demo_lib demo_index) (run_records demo_lib demo_index demo_dir) segs
    ∧ Forall2 (summary_for demo_lib)
        (filter (λ e, summarized (l_event e) = true) (run_events demo_lib demo_dir)) evs.
Proof.
  eexists _, _. split; [vm_compute; reflexivity|]. split; [reflexivity|].
  pose proof (collect_segments_in_order demo_lib demo_index demo_dir _ _
                ltac:(vm_compute; reflexivity)) as (H1 & H2 & _).
  by split.
Defined.

Lemma main_completes_witness :
  forallb (wt_file demo_lib) demo_dir = true
  ∧ ∃ geo sm, main demo_lib [demo_row] [] demo_dir = Ok (geo, sm).
Proof.
  assert (H : forallb (wt_file demo_lib) demo_dir = true) by by vm_compute.
  split; [exact H|]. exact (main_completes demo_lib [demo_row] [] demo_dir H).
Defined.

Lemma zones_alike_witness :
  ∃ out,
    process_event demo_lib demo_index "trip" "T1" "trip" ([], []) (0%nat, flight_event) = Ok out
    ∧ (∀ d1 d2, d1 ∈ omap (seg_departure demo_lib) (raw_segments flight_event) →
                d2 ∈ omap (seg_departure demo_lib) (raw_segments flight_event) → alike d1 d2)
    ∧ (∀ d1 d2, d1 ∈ omap (seg_arrival demo_lib) (raw_segments flight_event) →
                d2 ∈ omap (seg_arrival demo_lib) (raw_segments flight_event) → alike d1 d2).
Proof.
  eexists. split; [vm_compute; reflexivity|].
  refine (zones_alike demo_lib demo_index "trip" "T1" "trip" [] [] 0 flight_event _ _ _);
    vm_compute; reflexivity.
Defined.

Lemma records_labelled_witness :
  (∀ v, repr demo_lib v ≠ "")
  ∧ ∃ segs evs,
      collect_segments demo_lib demo_index demo_dir = Ok (segs, evs)
      ∧ length evs = 3%nat ∧ Forall labelled segs ∧ Forall titled evs.
Proof.
  assert (Hrepr : ∀ v, repr demo_lib v ≠ "") by (intros v; discriminate).
  split; [exact Hrepr|]. eexists _, _. split; [vm_compute; reflexivity|].
  split; [reflexivity|].
  refine (records_labelled demo_lib demo_index Hrepr demo_dir _ _ _). vm_compute; reflexivity.
Defined.

Lemma parse_dt_valid_witness :
  ∃ d, parse_dt demo_lib (JStr " 2024-02-29  23:59:59.5 ") (JStr "Europe/Berlin") = Ok (Some d)
       ∧ dt_day d = 29%Z ∧ dt_microsecond d = 500000%Z ∧ valid_datetime d.
Proof.
  eexists. split; [vm_compute; reflexivity|]. split; [reflexivity|]. split; [reflexivity|].
  refine (parse_dt_valid demo_lib (JStr " 2024-02-29  23:59:59.5 ") (JStr "Europe/Berlin") _ _).
  vm_compute; reflexivity.
Defined.
